(** * Video recorder: the recording session controller of [video_capture.py]

    A shallow embedding of the module-level utilities ([log], [safe_move],
    [cleanup_delete_daily], device detection) and of the methods of
    [VideoRecorderApp] that drive a recording and its disposition window.

    Conventions of the embedding:
    - the operating system is a record [World]: the file system, a clock in
      milliseconds, the Tk [after] queue, the process table, a chronological
      trace of the observable effects, and the scripts that decide what the
      environment does where the program lets it fail ([shutil.move],
      [os.remove], [subprocess.Popen], the encoder's own behaviour);
    - a Python function with effects is a function [World -> A * World];
      a method of the application also threads the object [self : App];
    - the file system [fs] holds the entries the program moves, deletes
      and tests; the two files the program writes itself are kept apart
      from it: [logs/actions.log] is the [ELog] events of the trace, and
      [config.json] is the field [config_file];
    - the clock stands on the millisecond grid, and durations written as
      float seconds in the source ([0.4], [0.1], [2]) are integers in
      milliseconds; where the source compares two readings of
      [time.time()], the readings are the binary64 numbers they are in
      Python;
    - [_record_worker] is one function run to its end; of what the UI
      thread does while the worker sleeps, a click on Stop Recording is
      delivered at the poll that follows it.  Where the order in which the
      worker thread and the main loop take their turns matters, the two
      are cut into the moves of [run_move], taken in any order;
    - [os.path] is [posixpath]; strings are byte strings. *)

From Stdlib Require Import ZArith Lia Ascii.
From Stdlib Require PrimFloat.
From stdpp Require Import base strings list gmap fin_maps pretty.

#[local] Open Scope string_scope.
#[local] Open Scope Z_scope.

(** ** The environment *)

(** What [os.path.isfile] / [os.path.isdir] can tell about a directory
    entry: a regular file, a directory, or something that is neither (a
    dangling link, a device node). *)
Inductive kind := KFile | KDir | KOther.

#[global] Instance kind_eq_dec : EqDecision kind.
Proof. solve_decision. Defined.

(** Observable effects, in the order they happen. *)
Inductive event :=
| ELog (msg : string)                          (* a line of logs/actions.log *)
| ESleep (ms : Z)                              (* time.sleep *)
| EMove (src dst : string) (err : option string) (* one shutil.move call *)
| ERemove (path : string) (err : option string)  (* os.remove / shutil.rmtree *)
| EDialog (title msg : string)                 (* messagebox.showinfo *)
| EThread                                      (* Thread(target=_record_worker).start() *)
| EPopen (cmd : list string) (err : option string)
| ETerminate (h : nat)                         (* Popen.terminate *)
| EWait (h : nat) (timeout : Z).               (* Popen.wait(timeout=...) *)

(** How one launch of the encoder behaves; the program treats it as a black
    box.  [launch_error]: [Popen] raises.  [writes_output]: the output file
    appears, as soon as the process is started.  [exits_after]: the process
    ends by itself that long after the launch; [None] when it would run on.
    [term_latency]: it ends that long after [terminate()]; [None] when it
    ignores the request. *)
Record Launch := {
  launch_error : option string;
  writes_output : bool;
  exits_after : option Z;
  term_latency : option Z
}.

(** What [subprocess.run] of the device query gives: the text the encoder
    wrote on its standard error; [FileNotFoundError], the one failure the
    source catches; or any other exception ([PermissionError], another
    [OSError], output that cannot be decoded), which nothing catches. *)
Inductive run_result :=
| Completed (stderr : string)
| FileNotFound
| Raised (e : string).

(** What [json.load] makes of [config.json]: an object, here with the
    string values the program stores, or a value that is not an object (a
    list, [null], a number, a string). *)
Inductive json_doc := JObject (d : gmap string string) | JOther.

(** The state of [config.json]: absent, present with a text that [json.load]
    refuses (an empty or cut-off file among them), or holding a JSON
    value. *)
Inductive stored := Absent | Garbled | Stored (v : json_doc).

(** How a call of [save_config] fails, if it does: [open(..., "w")] raises
    and the file is what it was, or the file is opened, which empties it,
    and the write raises afterwards. *)
Inductive save_fault := OpenFails (e : string) | WriteFails (e : string).

(** A [Popen] object: when it was started, its behaviour, and when
    [terminate()] was first called on it. *)
Record Proc := {
  p_started : Z;
  p_launch : Launch;
  p_term_at : option Z
}.

Record World := {
  fs : gmap string kind;             (* existing paths *)
  now : Z;                           (* time.time(), in ms *)
  trace : list event;
  timers : gmap nat Z;               (* pending root.after jobs, with due time *)
  next_job : nat;
  procs : list Proc;                 (* process table; a handle is an index *)
  config_file : stored;              (* config.json *)
  mv_calls : nat;                    (* shutil.move calls so far *)
  popens : nat;                      (* Popen calls so far *)
  stop_at : option Z;                (* when the user clicks Stop Recording *)
  mv_fault : nat -> option string;   (* outcome of the n-th shutil.move call *)
  rm_fault : string -> option string; (* outcome of removing a path *)
  ffmpeg : nat -> Launch;            (* behaviour of the n-th Popen *)
  dshow : run_result;                (* outcome of the device query *)
  cfg_fault : option save_fault      (* outcome of writing config.json *)
}.

Definition set_fs (v : gmap string kind) '(Build_World _ b c d e f g h i j k l m n o) :=
  Build_World v b c d e f g h i j k l m n o.
Definition set_now (v : Z) '(Build_World a _ c d e f g h i j k l m n o) :=
  Build_World a v c d e f g h i j k l m n o.
Definition set_trace (v : list event) '(Build_World a b _ d e f g h i j k l m n o) :=
  Build_World a b v d e f g h i j k l m n o.
Definition set_timers (v : gmap nat Z) '(Build_World a b c _ e f g h i j k l m n o) :=
  Build_World a b c v e f g h i j k l m n o.
Definition set_next_job (v : nat) '(Build_World a b c d _ f g h i j k l m n o) :=
  Build_World a b c d v f g h i j k l m n o.
Definition set_procs (v : list Proc) '(Build_World a b c d e _ g h i j k l m n o) :=
  Build_World a b c d e v g h i j k l m n o.
Definition set_config_file (v : stored)
    '(Build_World a b c d e f _ h i j k l m n o) :=
  Build_World a b c d e f v h i j k l m n o.
Definition set_mv_calls (v : nat) '(Build_World a b c d e f g _ i j k l m n o) :=
  Build_World a b c d e f g v i j k l m n o.
Definition set_popens (v : nat) '(Build_World a b c d e f g h _ j k l m n o) :=
  Build_World a b c d e f g h v j k l m n o.
Definition set_stop_at (v : option Z) '(Build_World a b c d e f g h i _ k l m n o) :=
  Build_World a b c d e f g h i v k l m n o.

Definition emit (e : event) (w : World) : World :=
  set_trace (trace w ++ [e]) w.

(** ** Configuration constants *)

(** [BASE_DIR] is the directory of the script; one absolute path stands
    for it. *)
Definition BASE_DIR : string := "/srv/recorder".

Definition sep : ascii := "/"%char.

(** [posixpath.join] on two arguments. *)
Definition ends_with_sep (p : string) : bool :=
  match String.rev p with
  | String c _ => Ascii.eqb c sep
  | EmptyString => false
  end.

Definition starts_with_sep (p : string) : bool :=
  match p with
  | String c _ => Ascii.eqb c sep
  | EmptyString => false
  end.

Definition path_join (a b : string) : string :=
  if starts_with_sep b then b
  else if (String.length a =? 0)%nat || ends_with_sep a then a ++ b
  else a ++ "/" ++ b.

Fixpoint has_sep (p : string) : bool :=
  match p with
  | EmptyString => false
  | String c r => Ascii.eqb c sep || has_sep r
  end.

(** [posixpath.basename]: what follows the last separator. *)
Fixpoint basename (p : string) : string :=
  match p with
  | EmptyString => EmptyString
  | String c r =>
      if has_sep r then basename r
      else if Ascii.eqb c sep then r else p
  end.

Definition STORAGE_DIR := path_join BASE_DIR "storage".
Definition INBOUND_DIR := path_join BASE_DIR "inbound".
Definition APPROVED_DIR := path_join BASE_DIR "approved".
Definition DELETE_DAILY_DIR := path_join BASE_DIR "delete_daily".
Definition LOGS_DIR := path_join BASE_DIR "logs".
Definition CONFIG_PATH := path_join BASE_DIR "config.json".
Definition LOG_FILE := path_join LOGS_DIR "actions.log".

Definition FFMPEG_CMD := "ffmpeg".
Definition FFPLAY_CMD := "ffplay".

Definition MAX_RECORD_SECONDS : Z := 60.
Definition POST_RECORD_TIMEOUT : Z := 30.

Definition FALLBACK_VIDEO_DEVICE := "USB Camera".
Definition FALLBACK_AUDIO_DEVICE := "Microphone (USB 2.0 Camera)".

(** ** Logging, sleeping, the file system *)

(** [log(msg)]: one line appended to the action log (the timestamp prefix
    is the clock of the world at that point and is not repeated in the
    line). *)
Definition log (msg : string) (w : World) : World := emit (ELog msg) w.

(** [time.sleep(ms)] *)
Definition sleep (ms : Z) (w : World) : World :=
  set_now (now w + ms) (emit (ESleep ms) w).

(** [os.path.exists], [os.path.isfile], [os.path.isdir] *)
Definition path_exists (p : string) (w : World) : bool :=
  bool_decide (is_Some (fs w !! p)).
Definition isfile (p : string) (w : World) : bool :=
  bool_decide (fs w !! p = Some KFile).
Definition isdir (p : string) (w : World) : bool :=
  bool_decide (fs w !! p = Some KDir).

(** [os.makedirs(d, exist_ok=True)]: the directory exists afterwards.  The
    directories of the layout are made when the module is loaded, so the
    call finds them there; its own failures (a file in the way, a refused
    permission) are not part of the model. *)
Definition makedirs (d : string) (w : World) : World :=
  match fs w !! d with
  | Some _ => w
  | None => set_fs (<[d := KDir]> (fs w)) w
  end.

(** [shutil.move(src, dst)], for the moves the program makes: of a
    recording, one entry of the file system, to a path that is not an
    existing directory.  It raises (here: returns the error text) when the
    source is missing or when the environment refuses this call; a refused
    call leaves the file system as it was.  On success the entry is
    renamed.  A move into a directory that exists at [dst], and a
    directory taking along what lies below it, are not part of the
    model. *)
Definition shutil_move (src dst : string) (w : World) : option string * World :=
  let w1 := set_mv_calls (S (mv_calls w)) w in
  match fs w !! src with
  | None =>
      let e := "No such file or directory: " ++ src in
      (Some e, emit (EMove src dst (Some e)) w1)
  | Some k =>
      match mv_fault w (mv_calls w) with
      | Some e => (Some e, emit (EMove src dst (Some e)) w1)
      | None =>
          (None, emit (EMove src dst None)
                   (set_fs (<[dst := k]> (delete src (fs w))) w1))
      end
  end.

(** Python truthiness of a value that is [None] or a string. *)
Definition truthy (s : option string) : bool :=
  match s with
  | Some (String _ _) => true
  | _ => false
  end.

Definition exists_opt (s : option string) (w : World) : bool :=
  match s with
  | Some p => path_exists p w
  | None => false
  end.

(** ** [safe_move] *)

(** The [for attempt in range(retries)] loop of [safe_move]: [n] iterations
    remain, [attempt] is the loop variable. *)
Fixpoint move_attempts (n attempt : nat) (delay : Z) (src dst : string)
    (w : World) : bool * World :=
  match n with
  | O => (false, w)
  | S n' =>
      match shutil_move src dst w with
      | (None, w1) => (true, log ("Moved " ++ src ++ " -> " ++ dst) w1)
      | (Some e, w1) =>
          let w2 := log ("Move attempt " ++ pretty (S attempt) ++ " failed: " ++ e) w1 in
          move_attempts n' (S attempt) delay src dst (sleep delay w2)
      end
  end.

Definition safe_move_with (retries : nat) (delay : Z)
    (src : option string) (dst_dir : string) (w : World) : bool * World :=
  match src with
  | Some p =>
      if negb (truthy src) || negb (path_exists p w) then (false, w)
      else
        let w := makedirs dst_dir w in
        let dst := path_join dst_dir (basename p) in
        match move_attempts retries 0 delay p dst w with
        | (true, w') => (true, w')
        | (false, w') => (false, log ("Failed to move " ++ p ++ " -> " ++ dst) w')
        end
  | None => (false, w)
  end.

(** [safe_move(src, dst_dir, retries=6, delay=0.4)] *)
Definition safe_move := safe_move_with 6 400.

(** ** [cleanup_delete_daily] *)

(** [os.listdir(d)]: the names [n] such that [d/n] is an entry. *)
Definition child_of (d p : string) : option string :=
  let n := basename p in
  if bool_decide (n ≠ "" ∧ path_join d n = p) then Some n else None.

Definition listdir (d : string) (w : World) : list string :=
  omap (child_of d) (map_to_list (fs w)).*1.

(** [q] is [p] or lies below it. *)
Definition under (p q : string) : bool :=
  String.eqb p q || String.prefix (p ++ "/") q.

(** [os.remove(path)] and [shutil.rmtree(path)]: either raises and changes
    nothing, as the environment decides. *)
Definition os_remove (path : string) (w : World) : option string * World :=
  match rm_fault w path with
  | Some e => (Some e, emit (ERemove path (Some e)) w)
  | None => (None, emit (ERemove path None) (set_fs (delete path (fs w)) w))
  end.

Definition shutil_rmtree (path : string) (w : World) : option string * World :=
  match rm_fault w path with
  | Some e => (Some e, emit (ERemove path (Some e)) w)
  | None =>
      (None, emit (ERemove path None)
               (set_fs (filter (λ kv, under path kv.1 = false) (fs w)) w))
  end.

(** The body of the [for name in os.listdir(DELETE_DAILY_DIR)] loop, over
    the names still to visit. *)
Fixpoint cleanup_loop (names : list string) (removed : nat) (w : World)
    : nat * World :=
  match names with
  | [] => (removed, w)
  | name :: rest =>
      let path := path_join DELETE_DAILY_DIR name in
      if isfile path w then
        match os_remove path w with
        | (None, w1) => cleanup_loop rest (S removed) w1
        | (Some e, w1) =>
            cleanup_loop rest removed
              (log ("Cleanup error for " ++ path ++ ": " ++ e) w1)
        end
      else if isdir path w then
        match shutil_rmtree path w with
        | (None, w1) => cleanup_loop rest (S removed) w1
        | (Some e, w1) =>
            cleanup_loop rest removed
              (log ("Cleanup error for " ++ path ++ ": " ++ e) w1)
        end
      else cleanup_loop rest removed w
  end.

Definition cleanup_delete_daily (w : World) : nat * World :=
  let '(removed, w1) := cleanup_loop (listdir DELETE_DAILY_DIR w) 0 w in
  (removed, log ("delete_daily cleanup removed " ++ pretty removed ++ " items") w1).

(** ** Device detection *)

(** [ffmpeg_list_devices()]; [None] when an exception escapes. *)
Definition ffmpeg_list_devices (w : World) : option string :=
  match dshow w with
  | Completed stderr => Some stderr
  | FileNotFound => Some ""
  | Raised _ => None
  end.

(** Line boundaries of [str.splitlines] and white space of [str.strip],
    for the ASCII range. *)
Definition is_linebreak (c : ascii) : bool :=
  let n := nat_of_ascii c in
  bool_decide (n ∈ [10; 11; 12; 13; 28; 29; 30]%nat).

Definition is_space (c : ascii) : bool :=
  let n := nat_of_ascii c in
  bool_decide (n ∈ [9; 10; 11; 12; 13; 28; 29; 30; 31; 32]%nat).

(** [s.splitlines()]: [after_cr] tells that the previous character was a
    carriage return, so that a line feed now belongs to the same boundary;
    [cur] is the line read so far. *)
Fixpoint splitlines_go (after_cr : bool) (cur s : string) : list string :=
  match s with
  | EmptyString => if bool_decide (cur = "") then [] else [cur]
  | String c r =>
      if after_cr && bool_decide (c = "010"%char) then splitlines_go false cur r
      else if is_linebreak c then
        cur :: splitlines_go (bool_decide (c = "013"%char)) "" r
      else splitlines_go false (cur ++ String c "") r
  end.

Definition splitlines (s : string) : list string := splitlines_go false "" s.

(** [s.lstrip(chars)], [s.rstrip(chars)], [s.strip(chars)] for a set of
    characters given as a predicate. *)
Fixpoint lstrip (f : ascii -> bool) (s : string) : string :=
  match s with
  | EmptyString => EmptyString
  | String c r => if f c then lstrip f r else s
  end.

Definition strip (f : ascii -> bool) (s : string) : string :=
  String.rev (lstrip f (String.rev (lstrip f s))).

(** The double quote, character 34. *)
Definition is_quote (c : ascii) : bool := bool_decide (nat_of_ascii c = 34%nat).

(** [needle in s] *)
Fixpoint contains (needle s : string) : bool :=
  String.prefix needle s ||
  match s with
  | EmptyString => false
  | String _ r => contains needle r
  end.

Definition startswith_quote (s : string) : bool :=
  match s with
  | String c _ => is_quote c
  | EmptyString => false
  end.

Definition endswith_quote (s : string) : bool := startswith_quote (String.rev s).

Inductive mode := ModeVideo | ModeAudio.

(** One iteration of the loop of [parse_dshow_devices]; the state is
    [(mode, video, audio)]. *)
Definition parse_line (acc : option mode * list string * list string)
    (line : string) : option mode * list string * list string :=
  let '(m, video, audio) := acc in
  let line := strip is_space line in
  if contains "DirectShow video devices" line then (Some ModeVideo, video, audio)
  else if contains "DirectShow audio devices" line then (Some ModeAudio, video, audio)
  else
    match m with
    | Some md =>
        if startswith_quote line && endswith_quote line then
          let name := strip is_quote line in
          match md with
          | ModeVideo => (m, (video ++ [name])%list, audio)
          | ModeAudio => (m, video, (audio ++ [name])%list)
          end
        else acc
    | None => acc
    end.

Definition parse_dshow_devices (stderr_text : string) : list string * list string :=
  let '(_, video, audio) :=
    foldl parse_line (None, [], []) (splitlines stderr_text) in
  (video, audio).

(** [detect_devices_once()]; [None] when the query raises. *)
Definition detect_devices_once (w : World) : option (list string * list string) :=
  out ← ffmpeg_list_devices w;
  let '(vids, auds) := parse_dshow_devices out in
  let vids := if bool_decide (vids = []) then [FALLBACK_VIDEO_DEVICE] else vids in
  let auds := if bool_decide (auds = []) then [FALLBACK_AUDIO_DEVICE] else auds in
  Some (vids, auds).

(** ** Config persistence *)

(** [load_config()]: the value [json.load] returns, whatever it is, or
    [{}] when the file is absent or [json.load] raises. *)
Definition load_config (w : World) : json_doc :=
  match config_file w with
  | Stored v => v
  | Absent | Garbled => JObject ∅
  end.

(** [save_config(cfg)]: the file is opened for writing, which empties it,
    before [json.dump] runs. *)
Definition save_config (cfg : gmap string string) (w : World) : bool * World :=
  match cfg_fault w with
  | Some (OpenFails e) => (false, log ("Failed to save config: " ++ e) w)
  | Some (WriteFails e) =>
      (false, log ("Failed to save config: " ++ e) (set_config_file Garbled w))
  | None => (true, set_config_file (Stored (JObject cfg)) w)
  end.

(** ** The application object *)

Inductive btn_state := normal | disabled.

(** The attributes of [VideoRecorderApp] that the recording and
    disposition logic reads or writes.  The 30 ms frame pump of the
    preview is left out: [cap] only tells whether the preview holds the
    camera. *)
Record App := {
  config : gmap string string;
  video_device : string;
  audio_device : string;
  start_btn : btn_state;
  stop_btn : btn_state;
  play_btn : btn_state;
  approve_btn : btn_state;
  reject_btn : btn_state;
  status_var : string;
  cap : bool;
  preview_running : bool;
  record_proc : option nat;
  recording : bool;
  record_start_time : option Z;
  current_file : option string;
  post_timeout_job : option nat;
  post_timeout_left : Z
}.

Definition set_config (v : gmap string string)
    '(Build_App _ b c d e f g h i j k l m n o p q) :=
  Build_App v b c d e f g h i j k l m n o p q.
Definition set_video_device (v : string)
    '(Build_App a _ c d e f g h i j k l m n o p q) :=
  Build_App a v c d e f g h i j k l m n o p q.
Definition set_audio_device (v : string)
    '(Build_App a b _ d e f g h i j k l m n o p q) :=
  Build_App a b v d e f g h i j k l m n o p q.
Definition set_start_btn (v : btn_state)
    '(Build_App a b c _ e f g h i j k l m n o p q) :=
  Build_App a b c v e f g h i j k l m n o p q.
Definition set_stop_btn (v : btn_state)
    '(Build_App a b c d _ f g h i j k l m n o p q) :=
  Build_App a b c d v f g h i j k l m n o p q.
Definition set_play_btn (v : btn_state)
    '(Build_App a b c d e _ g h i j k l m n o p q) :=
  Build_App a b c d e v g h i j k l m n o p q.
Definition set_approve_btn (v : btn_state)
    '(Build_App a b c d e f _ h i j k l m n o p q) :=
  Build_App a b c d e f v h i j k l m n o p q.
Definition set_reject_btn (v : btn_state)
    '(Build_App a b c d e f g _ i j k l m n o p q) :=
  Build_App a b c d e f g v i j k l m n o p q.
Definition set_status_var (v : string)
    '(Build_App a b c d e f g h _ j k l m n o p q) :=
  Build_App a b c d e f g h v j k l m n o p q.
Definition set_cap (v : bool)
    '(Build_App a b c d e f g h i _ k l m n o p q) :=
  Build_App a b c d e f g h i v k l m n o p q.
Definition set_preview_running (v : bool)
    '(Build_App a b c d e f g h i j _ l m n o p q) :=
  Build_App a b c d e f g h i j v l m n o p q.
Definition set_record_proc (v : option nat)
    '(Build_App a b c d e f g h i j k _ m n o p q) :=
  Build_App a b c d e f g h i j k v m n o p q.
Definition set_recording (v : bool)
    '(Build_App a b c d e f g h i j k l _ n o p q) :=
  Build_App a b c d e f g h i j k l v n o p q.
Definition set_record_start_time (v : option Z)
    '(Build_App a b c d e f g h i j k l m _ o p q) :=
  Build_App a b c d e f g h i j k l m v o p q.
Definition set_current_file (v : option string)
    '(Build_App a b c d e f g h i j k l m n _ p q) :=
  Build_App a b c d e f g h i j k l m n v p q.
Definition set_post_timeout_job (v : option nat)
    '(Build_App a b c d e f g h i j k l m n o _ q) :=
  Build_App a b c d e f g h i j k l m n o v q.
Definition set_post_timeout_left (v : Z)
    '(Build_App a b c d e f g h i j k l m n o p _) :=
  Build_App a b c d e f g h i j k l m n o p v.

(** ** Processes and timers of the environment *)

Definition min_opt (a b : option Z) : option Z :=
  match a, b with
  | Some x, Some y => Some (Z.min x y)
  | Some x, None => Some x
  | None, _ => b
  end.

(** When the process ends, if it does: by itself, or as an answer to
    [terminate()]. *)
Definition exit_time (p : Proc) : option Z :=
  min_opt
    (match exits_after (p_launch p) with
     | Some d => Some (p_started p + d)
     | None => None
     end)
    (match p_term_at p, term_latency (p_launch p) with
     | Some t, Some d => Some (t + d)
     | _, _ => None
     end).

Definition running_at (p : Proc) (t : Z) : bool :=
  match exit_time p with
  | Some e => t <? e
  | None => true
  end.

(** [proc and proc.poll() is None]: the process is still running. *)
Definition poll_is_None (h : option nat) (w : World) : bool :=
  match h with
  | Some i =>
      match procs w !! i with
      | Some p => running_at p (now w)
      | None => false
      end
  | None => false
  end.

(** [subprocess.Popen(cmd, ...)]: raises, or gives a handle.  The encoder
    writes to the last argument of its command line. *)
Definition Popen (cmd : list string) (w : World) : (string + nat) * World :=
  let l := ffmpeg w (popens w) in
  let w := set_popens (S (popens w)) w in
  match launch_error l with
  | Some e => (inl e, emit (EPopen cmd (Some e)) w)
  | None =>
      let h := length (procs w) in
      let w := set_procs (procs w ++ [Build_Proc (now w) l None]) w in
      let w :=
        match writes_output l, last cmd with
        | true, Some out => set_fs (<[out := KFile]> (fs w)) w
        | _, _ => w
        end in
      (inr h, emit (EPopen cmd None) w)
  end.

(** [proc.terminate()] *)
Definition terminate (h : nat) (w : World) : World :=
  let w := emit (ETerminate h) w in
  match procs w !! h with
  | Some p =>
      if running_at p (now w) && bool_decide (p_term_at p = None) then
        set_procs (<[h := Build_Proc (p_started p) (p_launch p) (Some (now w))]> (procs w)) w
      else w
  | None => w
  end.

(** [proc.wait(timeout=ms)] inside [try ... except Exception: pass]: returns
    when the process ends or when the timeout expires, whichever is first. *)
Definition wait (h : nat) (ms : Z) (w : World) : World :=
  let w := emit (EWait h ms) w in
  match procs w !! h with
  | Some p =>
      if running_at p (now w) then
        match exit_time p with
        | Some e => set_now (Z.min e (now w + ms)) w
        | None => set_now (now w + ms) w
        end
      else w
  | None => w
  end.

(** [root.after(ms, callback)] and [root.after_cancel(job)] *)
Definition after (ms : Z) (w : World) : nat * World :=
  let j := next_job w in
  (j, set_next_job (S j) (set_timers (<[j := now w + ms]> (timers w)) w)).

Definition after_cancel (j : nat) (w : World) : World :=
  set_timers (delete j (timers w)) w.

(** [messagebox.showinfo(title, msg)] *)
Definition showinfo (title msg : string) (w : World) : World :=
  emit (EDialog title msg) w.

(** ** Methods of [VideoRecorderApp] *)

(** [open_preview] and [close_preview].  [cap] tells that there is a capture
    object; it is taken to be opened, so that [self.cap and
    self.cap.isOpened()] is [cap].  The preview loop and its [after] job
    are not part of the model. *)
Definition open_preview (st : App) (w : World) : App * World :=
  if cap st then (st, w)
  else
    let st := set_cap true st in
    let w := sleep 120 w in
    (set_preview_running true st, w).

Definition close_preview (st : App) : App :=
  set_cap false (set_preview_running false st).

(** The three decision buttons are always switched together. *)
Definition set_decision_btns (b : btn_state) (st : App) : App :=
  set_play_btn b (set_reject_btn b (set_approve_btn b st)).

Definition awaiting_text (left : Z) : string :=
  "Awaiting approve/reject (" ++ pretty left ++ "s)".

Definition cancel_post_timeout (st : App) (w : World) : App * World :=
  let '(st, w) :=
    match post_timeout_job st with
    | Some j => (set_post_timeout_left 0 (set_post_timeout_job None st), after_cancel j w)
    | None => (st, w)
    end in
  (set_status_var "Ready" st, w).

Definition start_post_timeout (st : App) (w : World) : App * World :=
  let '(st, w) := cancel_post_timeout st w in
  let st := set_post_timeout_left POST_RECORD_TIMEOUT st in
  let '(j, w) := after 1000 w in
  let st := set_post_timeout_job (Some j) st in
  (set_status_var (awaiting_text (post_timeout_left st)) st, w).

(** [self.current_file and os.path.exists(self.current_file)] *)
Definition has_current_file (st : App) (w : World) : bool :=
  truthy (current_file st) && exists_opt (current_file st) w.

(** [f"{x}"] for a value that is [None] or a string *)
Definition str_opt (s : option string) : string := default "None" s.

Definition _post_timeout_tick (st : App) (w : World) : App * World :=
  let st := set_post_timeout_left (post_timeout_left st - 1) st in
  let st := set_status_var (awaiting_text (post_timeout_left st)) st in
  if post_timeout_left st <=? 0 then
    let '(st, w) :=
      if has_current_file st w then
        let '(_, w) := safe_move (current_file st) DELETE_DAILY_DIR w in
        let w := showinfo "Timed out" ("No action taken — moved to " ++ DELETE_DAILY_DIR) w in
        let w := log ("Auto-moved to delete_daily: " ++ str_opt (current_file st)) w in
        (set_decision_btns disabled (set_current_file None st), w)
      else (st, w) in
    cancel_post_timeout st w
  else
    let '(j, w) := after 1000 w in
    (set_post_timeout_job (Some j) st, w).

Definition reset_post_timeout (st : App) (w : World) : App * World :=
  if has_current_file st w then start_post_timeout st w else (st, w).

Definition approve_current (st : App) (w : World) : App * World :=
  if has_current_file st w then
    match safe_move (current_file st) APPROVED_DIR w with
    | (true, w) =>
        let w := showinfo "Approved" ("Moved to " ++ APPROVED_DIR) w in
        cancel_post_timeout (set_decision_btns disabled (set_current_file None st)) w
    | (false, w) => (st, w)
    end
  else (st, w).

Definition reject_current (st : App) (w : World) : App * World :=
  if has_current_file st w then
    match safe_move (current_file st) DELETE_DAILY_DIR w with
    | (true, w) =>
        let w := showinfo "Rejected" ("Moved to " ++ DELETE_DAILY_DIR) w in
        cancel_post_timeout (set_decision_btns disabled (set_current_file None st)) w
    | (false, w) => (st, w)
    end
  else (st, w).

(** *** Recording *)

Definition stop_recording (st : App) (w : World) : App * World :=
  if negb (recording st) then (st, w)
  else
    let w := log "User stopped recording" w in
    let st := set_recording false st in
    match record_proc st with
    | Some h => if poll_is_None (Some h) w then (st, terminate h w) else (st, w)
    | None => (st, w)
    end.

(** [start_recording_thread]: the guard, then a thread that will run
    [_record_worker]. *)
Definition start_recording_thread (st : App) (w : World) : App * World :=
  if recording st then (st, w) else (st, emit EThread w).

(** Lines 288 to 304 of [_record_worker]: up to the moment the encoder is
    running.  The boolean tells whether [Popen] succeeded. *)
Definition worker_launch (st : App) (w : World) : App * World * bool :=
  let st := close_preview st in
  let w := sleep 120 w in
  let ts := Z.quot (now w) 1000 in
  let filename := "recording_" ++ pretty ts ++ ".mp4" in
  let outpath := path_join INBOUND_DIR filename in
  let st := set_current_file (Some outpath) st in
  let dshow_spec := "video=" ++ video_device st ++ ":audio=" ++ audio_device st in
  let cmd :=
    [FFMPEG_CMD; "-y"; "-f"; "dshow"; "-video_size"; "1920x1080"; "-framerate"; "30";
     "-i"; dshow_spec; "-vcodec"; "libx264"; "-preset"; "ultrafast";
     "-pix_fmt"; "yuv420p"; outpath] in
  let w := log ("Starting ffmpeg: " ++ String.concat " " cmd) w in
  match Popen cmd w with
  | (inl e, w) =>
      let w := log ("Recording failed: " ++ e) w in
      let '(st, w) := open_preview st w in
      (st, w, false)
  | (inr h, w) =>
      let st := set_record_proc (Some h) st in
      let st := set_record_start_time (Some (now w)) (set_recording true st) in
      let st := set_stop_btn normal (set_start_btn disabled st) in
      (set_status_var "Recording..." st, w, true)
  end.

(** The UI thread runs while the worker sleeps: a click on Stop Recording
    that has become due is handled there. *)
Definition ui_pump (st : App) (w : World) : App * World :=
  match stop_at w with
  | Some t => if t <=? now w then stop_recording st (set_stop_at None w) else (st, w)
  | None => (st, w)
  end.

(** [time.time() - self.record_start_time], on the clock of the world;
    the start time is set before the loop is entered. *)
Definition elapsed (st : App) (w : World) : Z :=
  now w - default 0 (record_start_time st).

(** An integer as a binary64 number; the conversion is exact below [2^53]. *)
Fixpoint float_of_pos (p : positive) : PrimFloat.float :=
  match p with
  | xH => PrimFloat.one
  | xO q => PrimFloat.mul PrimFloat.two (float_of_pos q)
  | xI q => PrimFloat.add (PrimFloat.mul PrimFloat.two (float_of_pos q)) PrimFloat.one
  end.

Definition float_of_Z (z : Z) : PrimFloat.float :=
  match z with
  | Z0 => PrimFloat.zero
  | Zpos p => float_of_pos p
  | Zneg p => PrimFloat.opp (float_of_pos p)
  end.

(** A reading of [time.time()]: the binary64 number nearest to the clock
    in seconds. *)
Definition reading (ms : Z) : PrimFloat.float :=
  PrimFloat.div (float_of_Z ms) (float_of_Z 1000).

(** [time.time() - self.record_start_time >= MAX_RECORD_SECONDS], a
    comparison of binary64 numbers.  On the millisecond grid, for a clock
    below [2^52] ms, the two readings and their difference are each off by
    far less than half a millisecond, so the test says what the exact
    elapsed time says, except
    when that is exactly 60 s: there the rounding of the subtraction
    decides, and the binary64 operations are carried out
    ([65.24 - 5.24 < 60]). *)
Definition bound_reached (start now : Z) : bool :=
  if now - start =? MAX_RECORD_SECONDS * 1000 then
    PrimFloat.leb (float_of_Z MAX_RECORD_SECONDS)
      (PrimFloat.sub (reading now) (reading start))
  else MAX_RECORD_SECONDS * 1000 <? now - start.

(** The [while] loop of [_record_worker]; [None] when [fuel] iterations
    were not enough. *)
Fixpoint wait_loop (fuel : nat) (st : App) (w : World) : option (App * World) :=
  match fuel with
  | O => None
  | S k =>
      if recording st && poll_is_None (record_proc st) w then
        if bound_reached (default 0 (record_start_time st)) (now w) then Some (st, w)
        else
          let w := sleep 100 w in
          let '(st, w) := ui_pump st w in
          wait_loop k st w
      else Some (st, w)
  end.

(** Lines 308 to 312 of [_record_worker]: the encoder, if it still runs, is
    asked to terminate and waited for, for two seconds at most. *)
Definition reap (st : App) (w : World) : World :=
  match record_proc st with
  | Some h => if poll_is_None (Some h) w then wait h 2000 (terminate h w) else w
  | None => w
  end.

(** Lines 308 to 319 of [_record_worker]. *)
Definition worker_finish (st : App) (w : World) : App * World :=
  let w := reap st w in
  let st := set_recording false st in
  let st := set_stop_btn disabled (set_start_btn normal st) in
  let st := set_status_var "Recording finished" st in
  let w := log ("Recording finished: " ++ str_opt (current_file st)) w in
  let w := sleep 250 w in
  let '(st, w) := open_preview st w in
  if has_current_file st w then
    start_post_timeout (set_decision_btns normal st) w
  else (st, w).

(** Polls of 100 ms pass 60 s in 601 sleeps, so 602 tests of the loop
    condition. *)
Definition poll_budget : nat := 602.

Definition _record_worker (st : App) (w : World) : option (App * World) :=
  match worker_launch st w with
  | (st, w, false) => Some (st, w)
  | (st, w, true) =>
      match wait_loop poll_budget st w with
      | Some (st, w) => Some (worker_finish st w)
      | None => None
      end
  end.

(** *** Device selection and start-up *)

(** What the operator does in [DeviceSelectDialog]: each read-only combo box
    keeps the value it was opened with or takes an entry of its list.
    [None] stands for a cancelled dialog ([dlg.result] is [None]). *)
Inductive choice := Keep | Pick (i : nat).

Definition chosen (l : list string) (init : string) (c : choice) : string :=
  match c with
  | Keep => init
  | Pick i => default init (l !! i)
  end.

(** [repr] of a string, as [!r] formats it: between single quotes, or
    between double quotes when the string has a single quote and no double
    quote in it; the backslash and the enclosing quote are escaped, line
    feed, carriage return and tab are written [\n], [\r], [\t], and any
    other control character of the ASCII range as [\xhh].  Bytes above
    the ASCII range stand for printable characters and are kept. *)
Definition backslash : ascii := ascii_of_nat 92.
Definition single_quote : ascii := ascii_of_nat 39.
Definition double_quote : ascii := ascii_of_nat 34.

Fixpoint has_char (c : ascii) (s : string) : bool :=
  match s with
  | EmptyString => false
  | String d r => Ascii.eqb c d || has_char c r
  end.

Definition hex_digit (n : nat) : ascii :=
  ascii_of_nat (if (n <? 10)%nat then (48 + n)%nat else (87 + n)%nat).

Definition repr_char (q c : ascii) : string :=
  let n := nat_of_ascii c in
  if Ascii.eqb c backslash || Ascii.eqb c q then String backslash (String c "")
  else if (n =? 10)%nat then String backslash "n"
  else if (n =? 13)%nat then String backslash "r"
  else if (n =? 9)%nat then String backslash "t"
  else if (n <? 32)%nat || (n =? 127)%nat then
    String backslash
      (String "x"%char
         (String (hex_digit (n / 16)%nat) (String (hex_digit (n mod 16)%nat) "")))
  else String c "".

Fixpoint repr_body (q : ascii) (s : string) : string :=
  match s with
  | EmptyString => EmptyString
  | String c r => repr_char q c ++ repr_body q r
  end.

Definition repr (s : string) : string :=
  let q := if has_char single_quote s && negb (has_char double_quote s)
           then double_quote else single_quote in
  String q (repr_body q s ++ String q "").

Definition devices_text (st : App) : string :=
  "video: " ++ repr (video_device st) ++ ", audio: " ++ repr (audio_device st).

(** [x or l[0]]; [None] is the [IndexError] of [l[0]]. *)
Definition or_first (x : string) (l : list string) : option string :=
  if truthy (Some x) then Some x else l !! 0%nat.

Definition remember_devices (st : App) : App :=
  set_config (<["audio_device" := audio_device st]>
                (<["video_device" := video_device st]> (config st))) st.

(** [open_device_dialog]; the result is [None] when an exception escapes. *)
Definition open_device_dialog (answer : option (choice * choice))
    (first_run : bool) (video_list audio_list : option (list string))
    (st : App) (w : World) : option (App * World) :=
  '(vids, auds) ←
    match video_list, audio_list with
    | Some v, Some a => Some (v, a)
    | _, _ => detect_devices_once w
    end;
  match answer with
  | Some (cv, ca) =>
      let v := chosen vids (video_device st) cv in
      let a := chosen auds (audio_device st) ca in
      let st := set_audio_device a (set_video_device v st) in
      let st := remember_devices st in
      let '(_, w) := save_config (config st) w in
      let w := log ("User selected devices -> " ++ devices_text st) w in
      Some (open_preview (close_preview st) w)
  | None =>
      if first_run then
        v ← or_first (video_device st) vids;
        let st := set_video_device v st in
        a ← or_first (audio_device st) auds;
        let st := set_audio_device a st in
        let st := remember_devices st in
        let '(_, w) := save_config (config st) w in
        Some (st, log "First-run selection fallback used." w)
      else Some (st, w)
  end.

(** [self.config.get]: the method of a dictionary; any other value that
    [json.load] returns has none, and the lookup raises [AttributeError]. *)
Definition get_method (c : json_doc) : option (gmap string string) :=
  match c with
  | JObject d => Some d
  | JOther => None
  end.

(** [VideoRecorderApp.__init__]; [answer] is what the operator does if the
    first-run dialog opens; the result is [None] when an exception
    escapes. *)
Definition __init__ (answer : option (choice * choice)) (w : World)
    : option (App * World) :=
  let loaded := load_config w in
  '(vids, auds) ← detect_devices_once w;
  config ← get_method loaded;
  v0 ← vids !! 0%nat;
  let saved_video := default v0 (config !! "video_device") in
  a0 ← auds !! 0%nat;
  let saved_audio := default a0 (config !! "audio_device") in
  let st :=
    {| config := config; video_device := saved_video; audio_device := saved_audio;
       start_btn := normal; stop_btn := disabled; play_btn := disabled;
       approve_btn := disabled; reject_btn := disabled; status_var := "Ready";
       cap := false; preview_running := false;
       record_proc := None; recording := false; record_start_time := None;
       current_file := None; post_timeout_job := None; post_timeout_left := 0 |} in
  let '(_, w) := cleanup_delete_daily w in
  '(st, w) ←
    (if bool_decide (config !! "video_device" = None ∨ config !! "audio_device" = None)
     then open_device_dialog answer true (Some vids) (Some auds) st w
     else Some (st, w));
  let w := log ("Using devices -> " ++ devices_text st) w in
  Some (open_preview st w).

(** ** The phases of the session, read off the application object *)

Inductive phase := Idle | Recording | AwaitingDisposition.

(** [Recording] while the flag is set; [AwaitingDisposition] while a tick of
    the disposition countdown is pending. *)
Definition phase_of (st : App) : phase :=
  if recording st then Recording
  else if bool_decide (post_timeout_job st = None) then Idle
  else AwaitingDisposition.

(** The two decisions of the operator, and the method behind each. *)
Inductive decision := Approved | Rejected.

Definition resolve (d : decision) (st : App) (w : World) : App * World :=
  match d with
  | Approved => approve_current st w
  | Rejected => reject_current st w
  end.

(** Views of the trace. *)
Definition log_lines (t : list event) : list string :=
  omap (λ e, match e with ELog m => Some m | _ => None end) t.

Definition sleeps (t : list event) : list Z :=
  omap (λ e, match e with ESleep d => Some d | _ => None end) t.

Definition move_calls (t : list event) : list (string * string * option string) :=
  omap (λ e, match e with EMove s d r => Some (s, d, r) | _ => None end) t.

(** The number of [shutil.move] calls that relocated a file. *)
Definition is_relocation (e : event) : bool :=
  match e with
  | EMove _ _ None => true
  | _ => false
  end.

Definition moves_done (t : list event) : nat :=
  length (List.filter is_relocation t).

(** ** Vocabulary of the statements *)

(** The events of one failed attempt, and of a run of failed attempts
    starting at loop index [i]. *)
Definition failed_attempt (src dst : string) (i : nat) (e : string) : list event :=
  [EMove src dst (Some e);
   ELog ("Move attempt " ++ pretty (S i) ++ " failed: " ++ e);
   ESleep 400].

Fixpoint failed_attempts (src dst : string) (i : nat) (errs : list string)
    : list event :=
  match errs with
  | [] => []
  | e :: r => failed_attempt src dst i e ++ failed_attempts src dst (S i) r
  end.

(** The errors the environment raises on the next calls of [shutil.move],
    up to the first call it lets through and at most [n] of them. *)
Fixpoint leading_faults (f : nat → option string) (c n : nat) : list string :=
  match n with
  | O => []
  | S n' =>
      match f c with
      | Some e => e :: leading_faults f (S c) n'
      | None => []
      end
  end.

(** The world after the failed attempts [errs]. *)
Definition after_failures (src dst : string) (a : nat) (errs : list string)
    (w : World) : World :=
  set_mv_calls (mv_calls w + length errs)%nat
    (set_now (now w + 400 * Z.of_nat (length errs))
       (set_trace (trace w ++ failed_attempts src dst a errs) w)).

(** The world after the attempt that succeeds. *)
Definition after_success (src dst : string) (k : kind) (w : World) : World :=
  log ("Moved " ++ src ++ " -> " ++ dst)
    (emit (EMove src dst None)
       (set_fs (<[dst := k]> (delete src (fs w)))
          (set_mv_calls (S (mv_calls w)) w))).

(** Worlds for the examples: the four directories, one recording in the
    staging directory, nothing pending, an encoder that obeys [terminate()]
    after 300 ms. *)
Definition staged : string := path_join INBOUND_DIR "recording_7.mp4".

Definition demo_world (files : gmap string kind) (mvf : nat → option string)
    (rmf : string → option string) (enc : nat → Launch) : World :=
  {| fs := files; now := 5000; trace := []; timers := ∅; next_job := 1;
     procs := []; config_file := Absent; mv_calls := 0; popens := 0;
     stop_at := None; mv_fault := mvf; rm_fault := rmf; ffmpeg := enc;
     dshow := FileNotFound; cfg_fault := None |}.

Definition layout : gmap string kind :=
  {[ INBOUND_DIR := KDir; APPROVED_DIR := KDir; DELETE_DAILY_DIR := KDir;
     LOGS_DIR := KDir; STORAGE_DIR := KDir ]}.

Definition obedient : Launch :=
  {| launch_error := None; writes_output := true; exits_after := None;
     term_latency := Some 300 |}.

(** [shutil.move] fails on its first [n] calls, then works. *)
Definition locked_for (n : nat) (c : nat) : option string :=
  if (c <? n)%nat then Some "[WinError 32] file in use" else None.

Definition staged_world (n : nat) : World :=
  demo_world (<[staged := KFile]> layout) (locked_for n) (λ _, None) (λ _, obedient).

(** Where a decision sends the artifact, and the title of its notice. *)
Definition dest (d : decision) : string :=
  match d with
  | Approved => APPROVED_DIR
  | Rejected => DELETE_DAILY_DIR
  end.

Definition notice (d : decision) : string :=
  match d with
  | Approved => "Approved"
  | Rejected => "Rejected"
  end.

(** The disposition timer is armed: the job the application remembers is
    pending in the [after] queue. *)
Definition armed (st : App) (w : World) : Prop :=
  ∃ j, post_timeout_job st = Some j ∧ is_Some (timers w !! j).

(** A session in its disposition window: the recording [staged] is the
    current file, the decision buttons are enabled, tick 0 is pending and
    [left] seconds remain. *)
Definition awaiting_app (left : Z) : App :=
  {| config := ∅; video_device := FALLBACK_VIDEO_DEVICE;
     audio_device := FALLBACK_AUDIO_DEVICE;
     start_btn := normal; stop_btn := disabled; play_btn := normal;
     approve_btn := normal; reject_btn := normal;
     status_var := awaiting_text left; cap := true; preview_running := true;
     record_proc := Some 0%nat; recording := false; record_start_time := Some 0;
     current_file := Some staged; post_timeout_job := Some 0%nat;
     post_timeout_left := left |}.

Definition awaiting_world (n : nat) : World :=
  set_timers {[ 0%nat := 6000 ]} (staged_world n).

(** Runs from start-up.  [fresh_world enc] has the directory layout and no
    stored configuration; the operator cancels the first-run dialog, clicks
    Start Recording, and the worker thread runs to its end. *)
Definition fresh_world (enc : nat → Launch) : World :=
  demo_world layout (λ _, None) (λ _, None) enc.

Definition click_start_and_record (s : App * World) : option (App * World) :=
  let '(st, w) := start_recording_thread s.1 s.2 in
  _record_worker st w.

Definition first_recording (enc : nat → Launch) : option (App * World) :=
  __init__ None (fresh_world enc) ≫= click_start_and_record.

(** An encoder that cannot be launched, one that ignores [terminate()],
    one that gives up after 200 ms without writing its output. *)
Definition unlaunchable : Launch :=
  {| launch_error := Some "[WinError 2] ffmpeg not found"; writes_output := false;
     exits_after := None; term_latency := None |}.

Definition stubborn : Launch :=
  {| launch_error := None; writes_output := true; exits_after := None;
     term_latency := None |}.

Definition fruitless : Launch :=
  {| launch_error := None; writes_output := false; exits_after := Some 200;
     term_latency := Some 0 |}.

(** An encoder that writes its file and ends by itself after one second. *)
Definition brief : Launch :=
  {| launch_error := None; writes_output := true; exits_after := Some 1000;
     term_latency := Some 300 |}.

(** The first launch records for a second; the next ones end after 200 ms
    without an output file. *)
Definition brief_then_fruitless (n : nat) : Launch :=
  match n with
  | O => brief
  | S _ => fruitless
  end.

(** The first launch works, the next ones do not. *)
Definition only_first_launches (n : nat) : Launch :=
  match n with
  | O => brief
  | S _ => unlaunchable
  end.

(** A status or log text that tells of a failure. *)
Definition mentions_failure (s : string) : bool :=
  contains "fail" s || contains "Fail" s || contains "FAIL" s
  || contains "error" s || contains "Error" s.

(** [holds_after r P]: the run [r] ended without an exception, in a state
    of the application and of the world where [P] holds. *)
Definition holds_after (r : option (App * World)) (P : App → World → Prop) : Prop :=
  match r with
  | Some (st, w) => P st w
  | None => False
  end.

(** The Tk main loop runs the pending job [j]: it leaves the queue, the
    clock is at its due time or later, and the callback, a countdown tick,
    is called. *)
Definition fire (j : nat) (s : App * World) : App * World :=
  match timers s.2 !! j with
  | Some due =>
      _post_timeout_tick s.1
        (set_now (Z.max (now s.2) due) (set_timers (delete j (timers s.2)) s.2))
  | None => s
  end.

(** The calls made on a [Popen] object. *)
Definition is_proc_call (e : event) : bool :=
  match e with
  | ETerminate _ | EWait _ _ => true
  | _ => false
  end.

(** The path of the entry [name] of the expired directory. *)
Definition entry_path (name : string) : string := path_join DELETE_DAILY_DIR name.

(** The purge removes the entry [name] of the world [w]: it is a file or a
    directory, and the environment lets it go. *)
Definition removable (w : World) (name : string) : bool :=
  (isfile (entry_path name) w || isdir (entry_path name) w)
  && bool_decide (rm_fault w (entry_path name) = None).

(** What the purge does about the entry [name], as events. *)
Definition purge_events (w : World) (name : string) : list event :=
  let path := entry_path name in
  if isfile path w || isdir path w then
    match rm_fault w path with
    | None => [ERemove path None]
    | Some e =>
        [ERemove path (Some e); ELog ("Cleanup error for " ++ path ++ ": " ++ e)]
    end
  else [].

(** The path [q] disappears with the entry [name]: the file itself, or the
    directory and all that lies below it. *)
Definition gone_with (w : World) (name q : string) : bool :=
  removable w name &&
  (if isfile (entry_path name) w then String.eqb (entry_path name) q
   else under (entry_path name) q).

(** An expired directory with a file, a subtree, and an entry that is
    neither; the environment refuses to delete [locked.mp4]. *)
Definition expired_layout : gmap string kind :=
  <[ entry_path "old.mp4" := KFile ]>
  (<[ entry_path "locked.mp4" := KFile ]>
  (<[ entry_path "clips" := KDir ]>
  (<[ path_join (entry_path "clips") "a.mp4" := KFile ]>
  (<[ entry_path "dangling" := KOther ]> layout)))).

Definition refuse_locked (path : string) : option string :=
  if String.eqb path (entry_path "locked.mp4")
  then Some "[WinError 32] file in use" else None.

Definition expired_world : World :=
  demo_world expired_layout (λ _, None) refuse_locked (λ _, obedient).

(** The number of sleeps of a wait loop that nothing ends before the
    bound, when the recording started at [start]: 600, or 601 when the
    test of the bound fails 60 s after the start. *)
Definition full_course (start : Z) : nat :=
  if bound_reached start (start + MAX_RECORD_SECONDS * 1000) then 600 else 601.

(** The outcome of the device query is one the source handles. *)
Definition query_answers (w : World) : bool :=
  match dshow w with
  | Completed _ | FileNotFound => true
  | Raised _ => false
  end.

(** The world [w] with another outcome of the device query. *)
Definition with_query (r : run_result) (w : World) : World :=
  {| fs := fs w; now := now w; trace := trace w; timers := timers w;
     next_job := next_job w; procs := procs w; config_file := config_file w;
     mv_calls := mv_calls w; popens := popens w; stop_at := stop_at w;
     mv_fault := mv_fault w; rm_fault := rm_fault w; ffmpeg := ffmpeg w;
     dshow := r; cfg_fault := cfg_fault w |}.

(** [subprocess.run] cannot execute the encoder it found. *)
Definition access_denied : run_result :=
  Raised "[WinError 5] Access is denied".

(** The command line of the encoder, as [_record_worker] builds it. *)
Definition encoder_cmd (video audio outpath : string) : list string :=
  [FFMPEG_CMD; "-y"; "-f"; "dshow"; "-video_size"; "1920x1080"; "-framerate"; "30";
   "-i"; "video=" ++ video ++ ":audio=" ++ audio;
   "-vcodec"; "libx264"; "-preset"; "ultrafast"; "-pix_fmt"; "yuv420p"; outpath].

(** The main loop runs the countdown tick the application remembers, if it
    is pending. *)
Definition fire_pending (s : App * World) : App * World :=
  match post_timeout_job s.1 with
  | Some j => fire j s
  | None => s
  end.


(** What the operator and the Tk main loop make happen once the window is
    up: the buttons and keys bound in [__init__], and the main loop running
    the job [j] of the timer queue, if it is pending.  A click on Start
    Recording runs the worker to its end; a click on Stop Recording during
    a recording is the [stop_at] of the world. *)
Inductive ui_event :=
  | ClickStart | ClickStop | ClickApprove | ClickReject | KeyOrButton
  | TickDue (j : nat).

(** A click on Start Recording: the guard of [start_recording_thread], and
    behind it the worker thread, run to its end. *)
Definition click_start (s : App * World) : option (App * World) :=
  let '(st, w) := start_recording_thread s.1 s.2 in
  if recording s.1 then Some (st, w) else _record_worker st w.

Definition handle (e : ui_event) (s : App * World) : option (App * World) :=
  match e with
  | ClickStart => click_start s
  | ClickStop => Some (stop_recording s.1 s.2)
  | ClickApprove => Some (approve_current s.1 s.2)
  | ClickReject => Some (reject_current s.1 s.2)
  | KeyOrButton => Some (reset_post_timeout s.1 s.2)
  | TickDue j => Some (fire j s)
  end.

Fixpoint handle_all (evs : list ui_event) (s : App * World) : option (App * World) :=
  match evs with
  | [] => Some s
  | e :: rest => handle e s ≫= handle_all rest
  end.

(** The timer queue is tidy: the pending jobs are exactly the one job the
    application remembers, if it remembers one. *)
Definition tidy (st : App) (w : World) : Prop :=
  ∀ j, is_Some (timers w !! j) ↔ post_timeout_job st = Some j.

(** The double quote and the line feed as strings, and a device listing
    as ffmpeg prints it: every line starts with the tag of the component
    that logs it. *)
Definition dq : string := String (ascii_of_nat 34) "".
Definition nl : string := String (ascii_of_nat 10) "".

Definition tagged_listing : string :=
  "[dshow @ 000001d5] DirectShow video devices (some may be both video and audio devices)" ++ nl ++
  "[dshow @ 000001d5]  " ++ dq ++ "Integrated Camera" ++ dq ++ nl ++
  "[dshow @ 000001d5] DirectShow audio devices" ++ nl ++
  "[dshow @ 000001d5]  " ++ dq ++ "Microphone (Realtek Audio)" ++ dq ++ nl ++
  "dummy: Immediate exit requested" ++ nl.

(** A listing in the form the parser reads: a header line for each kind
    of device, each followed by the names of that kind, one to a line,
    between double quotes. *)
Definition quoted (n : string) : string := dq ++ n ++ dq.

Definition unlines (ls : list string) : string :=
  foldr (λ l acc, l ++ nl ++ acc) "" ls.

Definition listing (vs as_ : list string) : string :=
  unlines ("DirectShow video devices" :: map quoted vs
             ++ "DirectShow audio devices" :: map quoted as_)%list.

(** No character of [s] satisfies [f]. *)
Fixpoint free_of (f : ascii → bool) (s : string) : bool :=
  match s with
  | EmptyString => true
  | String c r => negb (f c) && free_of f r
  end.

(** Text in the ASCII range, where bytes and characters are the same and
    [is_linebreak] and [is_space] are all the line boundaries and white
    space there is. *)
Definition ascii_only (s : string) : bool :=
  free_of (λ c, (127 <? nat_of_ascii c)%nat) s.

(** A device name that such a listing can carry: ASCII, one line, no double
    quote at either end, and no header text in it. *)
Definition plain_name (n : string) : bool :=
  ascii_only n && free_of is_linebreak n
  && negb (startswith_quote n) && negb (endswith_quote n)
  && negb (contains "DirectShow video devices" n)
  && negb (contains "DirectShow audio devices" n).

(** What [config.json] holds after [save_config(cfg)] in the world [w]. *)
Definition saved (cfg : gmap string string) (w : World) : stored :=
  match cfg_fault w with
  | None => Stored (JObject cfg)
  | Some (OpenFails _) => config_file w
  | Some (WriteFails _) => Garbled
  end.

Definition fault_text (f : save_fault) : string :=
  match f with
  | OpenFails e | WriteFails e => e
  end.

(** Start-up gets as far as the window: the device query is one the source
    handles, and the stored configuration, if there is one that can be
    read, is an object. *)
Definition starts_up (w : World) : bool :=
  query_answers w &&
  match load_config w with
  | JObject _ => true
  | JOther => false
  end.

(** ** The worker beside the main loop

    [_record_worker] runs on a thread of its own while the Tk main loop
    goes on handling clicks, keys and timer jobs.  A [move] is one of the
    pieces the two are cut into: the worker up to the moment its encoder
    runs (lines 288 to 304), one [time.sleep(0.1)] of its loop, the worker
    from the end of its loop on (lines 308 to 319); the main loop handling
    one event, where a click on Start Recording is
    [start_recording_thread] alone, the thread it starts being the worker
    moves; and time passing.  No order is imposed on the moves. *)
Inductive move :=
  | WorkerLaunch | WorkerSleep | WorkerFinish
  | MainLoop (e : ui_event)
  | Elapse (ms : nat).

Definition main_loop (e : ui_event) (s : App * World) : App * World :=
  match e with
  | ClickStart => start_recording_thread s.1 s.2
  | ClickStop => stop_recording s.1 s.2
  | ClickApprove => approve_current s.1 s.2
  | ClickReject => reject_current s.1 s.2
  | KeyOrButton => reset_post_timeout s.1 s.2
  | TickDue j => fire j s
  end.

Definition run_move (m : move) (s : App * World) : App * World :=
  match m with
  | WorkerLaunch => (worker_launch s.1 s.2).1
  | WorkerSleep => (s.1, sleep 100 s.2)
  | WorkerFinish => worker_finish s.1 s.2
  | MainLoop e => main_loop e s
  | Elapse ms => (s.1, set_now (now s.2 + Z.of_nat ms) s.2)
  end.

Definition run_moves (ms : list move) (s : App * World) : App * World :=
  foldl (λ s m, run_move m s) s ms.

(** The path of the recording that a worker starts in the second [t]. *)
Definition recording_path (t : Z) : string :=
  path_join INBOUND_DIR ("recording_" ++ pretty t ++ ".mp4").

(** The recording of the second [t0] is out of reach in the state [s]: it
    is in the file system, the session does not point at it, and a worker
    that starts now or later writes a recording of a later second. *)
Definition out_of_reach (t0 : Z) (k : kind) (s : App * World) : Prop :=
  fs s.2 !! recording_path t0 = Some k ∧
  current_file s.1 ≠ Some (recording_path t0) ∧
  t0 < Z.quot (now s.2 + 120) 1000.

(** From the world [w] to the state [r], the file [p] is where it was, the
    session does not point at it, and the clock has not gone back. *)
Definition kept (p : string) (w : World) (r : App * World) : Prop :=
  fs r.2 !! p = fs w !! p ∧ current_file r.1 ≠ Some p ∧ now w ≤ now r.2.
(** * Properties *)

(** ** [safe_move] *)

Ltac unfold_world :=
  unfold log, sleep, showinfo, after_cancel, emit, set_fs, set_now, set_trace,
    set_timers, set_next_job, set_procs, set_config_file, set_mv_calls,
    set_popens, set_stop_at in *.

Lemma truthy_Some (p : string) : p ≠ "" → truthy (Some p) = true.
Proof. destruct p; [congruence | reflexivity]. Qed.

Lemma path_exists_true (p : string) (w : World) :
  path_exists p w = true ↔ is_Some (fs w !! p).
Proof. unfold path_exists. apply bool_decide_eq_true. Qed.

Lemma makedirs_lookup (d p : string) (w : World) (k : kind) :
  fs w !! p = Some k → fs (makedirs d w) !! p = Some k.
Proof.
  intros H. unfold makedirs. destruct (fs w !! d) eqn:E; [done |].
  destruct w. cbn in *. rewrite lookup_insert_ne; [done | congruence].
Qed.

(** [makedirs] touches the file system only. *)
Lemma makedirs_frame (d : string) (w : World) :
  now (makedirs d w) = now w ∧ trace (makedirs d w) = trace w ∧
  timers (makedirs d w) = timers w ∧ mv_calls (makedirs d w) = mv_calls w ∧
  mv_fault (makedirs d w) = mv_fault w.
Proof. unfold makedirs. destruct (fs w !! d); destruct w; done. Qed.

Lemma leading_faults_length (f : nat → option string) (c n : nat) :
  (length (leading_faults f c n) ≤ n)%nat.
Proof.
  revert c. induction n as [|n IH]; intros c; cbn; [lia |].
  destruct (f c); cbn; [specialize (IH (S c)) |]; lia.
Qed.

Lemma move_attempts_spec (src dst : string) (k : kind) (n : nat) :
  ∀ (a : nat) (w : World),
    fs w !! src = Some k →
    let errs := leading_faults (mv_fault w) (mv_calls w) n in
    move_attempts n a 400 src dst w =
      if (length errs <? n)%nat
      then (true, after_success src dst k (after_failures src dst a errs w))
      else (false, after_failures src dst a errs w).
Proof.
  induction n as [|n IH]; intros a w Hsrc; cbn [move_attempts leading_faults].
  - destruct w. cbn. f_equal. unfold after_failures; unfold_world; cbn.
    rewrite app_nil_r, Nat.add_0_r, Z.add_0_r. reflexivity.
  - unfold shutil_move. rewrite Hsrc.
    destruct w as [fs0 now0 tr0 tm0 nj0 pr0 cf0 mc0 po0 sa0 mvf rmf ff ds cg].
    cbn in Hsrc |- *.
    destruct (mvf mc0) as [e|] eqn:Hf.
    + rewrite IH by exact Hsrc. clear IH. cbn.
      set (errs := leading_faults mvf (S mc0) n). clearbody errs.
      unfold after_success, after_failures; unfold_world; cbn.
      rewrite <- !app_assoc. cbn.
      replace (now0 + 400 + 400 * Z.of_nat (length errs))
        with (now0 + 400 * Z.of_nat (S (length errs))) by lia.
      rewrite Nat.add_succ_r. reflexivity.
    + unfold after_success, after_failures; unfold_world; cbn.
      rewrite app_nil_r, Nat.add_0_r, Z.add_0_r. reflexivity.
Qed.

Lemma leading_faults_agree (f : nat → option string) (n : nat) :
  ∀ (c i : nat) (e : string),
    leading_faults f c n !! i = Some e → f (c + i)%nat = Some e.
Proof.
  induction n as [|n IH]; intros c i e; cbn; [done |].
  destruct (f c) as [e0|] eqn:Hc; [| done].
  destruct i as [|i]; cbn.
  - intros [= <-]. by rewrite Nat.add_0_r.
  - intros H. apply IH in H. by rewrite Nat.add_succ_r.
Qed.

Lemma leading_faults_stop (f : nat → option string) (n : nat) :
  ∀ c : nat,
    (length (leading_faults f c n) < n)%nat →
    f (c + length (leading_faults f c n))%nat = None.
Proof.
  induction n as [|n IH]; intros c; cbn; [lia |].
  destruct (f c) as [e0|] eqn:Hc; cbn.
  - intros H. rewrite Nat.add_succ_r. apply (IH (S c)). lia.
  - intros _. by rewrite Nat.add_0_r.
Qed.

Lemma leading_faults_all (f : nat → option string) (n : nat) :
  ∀ c : nat,
    (∀ i, (i < n)%nat → f (c + i)%nat ≠ None) →
    length (leading_faults f c n) = n.
Proof.
  induction n as [|n IH]; intros c H; cbn; [done |].
  destruct (f c) as [e0|] eqn:Hc; cbn.
  - f_equal. apply IH. intros i Hi.
    replace (S c + i)%nat with (c + S i)%nat by lia. apply H. lia.
  - exfalso. apply (H 0%nat); [lia |]. by rewrite Nat.add_0_r.
Qed.

Lemma safe_move_spec (p dst_dir : string) (k : kind) (w : World) :
  p ≠ "" → fs w !! p = Some k →
  let dst := path_join dst_dir (basename p) in
  let errs := leading_faults (mv_fault w) (mv_calls w) 6 in
  let w1 := after_failures p dst 0 errs (makedirs dst_dir w) in
  safe_move (Some p) dst_dir w =
    if (length errs <? 6)%nat
    then (true, after_success p dst k w1)
    else (false, log ("Failed to move " ++ p ++ " -> " ++ dst) w1).
Proof.
  intros Hp Hk dst errs w1. unfold safe_move, safe_move_with.
  rewrite (truthy_Some p Hp).
  assert (path_exists p w = true) as -> by (apply path_exists_true; eauto).
  cbn [negb orb].
  rewrite (move_attempts_spec p _ k 6 0 (makedirs dst_dir w)
             (makedirs_lookup _ _ _ _ Hk)).
  destruct (makedirs_frame dst_dir w) as (_ & _ & _ & -> & ->).
  fold dst errs w1. destruct (length errs <? 6)%nat; reflexivity.
Qed.

(** C10. A source that is [None], empty, or names no existing file makes
    [safe_move] return [False] at once: the world is returned as it was
    received, so there was no attempt, no sleep and no log line. *)
Theorem safe_move_rejects_missing_source
    (src : option string) (dst_dir : string) (w : World) :
  src = None ∨ src = Some "" ∨ (∃ p, src = Some p ∧ fs w !! p = None) →
  safe_move src dst_dir w = (false, w).
Proof.
  intros [-> | [-> | (p & -> & Hp)]]; try reflexivity.
  unfold safe_move, safe_move_with.
  assert (path_exists p w = false) as ->.
  { unfold path_exists. apply bool_decide_eq_false. rewrite Hp.
    intros [? ?]; discriminate. }
  by rewrite orb_true_r.
Qed.

Lemma safe_move_rejects_missing_source_witness :
  (∃ p, Some "/tmp/gone.mp4" = Some p ∧ fs (staged_world 0) !! p = None) ∧
  safe_move (Some "/tmp/gone.mp4") APPROVED_DIR (staged_world 0)
    = (false, staged_world 0).
Proof.
  assert (∃ p, Some "/tmp/gone.mp4" = Some p ∧ fs (staged_world 0) !! p = None) as H
    by (eexists; split; [reflexivity | vm_compute; reflexivity]).
  split; [exact H |].
  apply (safe_move_rejects_missing_source (Some "/tmp/gone.mp4") APPROVED_DIR
           (staged_world 0)).
  right; right; exact H.
Defined.

Lemma after_success_trace (src dst : string) (k : kind) (w : World) :
  trace (after_success src dst k w)
  = (trace w ++ [EMove src dst None; ELog ("Moved " ++ src ++ " -> " ++ dst)])%list.
Proof. destruct w. cbn. by rewrite <- app_assoc. Qed.

Lemma after_failures_makedirs_trace (src dst d : string) (errs : list string) (w : World) :
  trace (after_failures src dst 0 errs (makedirs d w))
  = (trace w ++ failed_attempts src dst 0 errs)%list.
Proof.
  destruct (makedirs_frame d w) as (_ & <- & _).
  by destruct (makedirs d w).
Qed.

Lemma after_failures_makedirs_now (src dst d : string) (errs : list string) (w : World) :
  now (after_failures src dst 0 errs (makedirs d w))
  = now w + 400 * Z.of_nat (length errs).
Proof.
  destruct (makedirs_frame d w) as (<- & _).
  by destruct (makedirs d w).
Qed.

Lemma after_failures_fs (src dst : string) (errs : list string) (w : World) :
  fs (after_failures src dst 0 errs w) = fs w.
Proof. by destruct w. Qed.

Lemma after_failures_timers (src dst : string) (errs : list string) (w : World) :
  timers (after_failures src dst 0 errs w) = timers w.
Proof. by destruct w. Qed.

Lemma after_success_fs (src dst : string) (k : kind) (w : World) :
  fs (after_success src dst k w) = <[dst := k]> (delete src (fs w)).
Proof. by destruct w. Qed.

Lemma after_success_frame (src dst : string) (k : kind) (w : World) :
  now (after_success src dst k w) = now w ∧
  timers (after_success src dst k w) = timers w.
Proof. by destruct w. Qed.

Lemma log_frame (m : string) (w : World) :
  fs (log m w) = fs w ∧ timers (log m w) = timers w ∧ now (log m w) = now w.
Proof. by destruct w. Qed.

Lemma log_trace (m : string) (w : World) : trace (log m w) = (trace w ++ [ELog m])%list.
Proof. by destruct w. Qed.


(** C4. For a source that exists, [safe_move] calls [shutil.move] at most
    6 times; each failed call is logged with its error and followed by a
    sleep of 400 ms; [False] is returned only when all 6 calls failed.  If
    the first two calls fail and the third works, the result is [True] after
    exactly three logged attempts; if all six fail, the result is [False] and
    the source is where it was. *)
Theorem safe_move_bounded_retry
    (p dst_dir : string) (k : kind) (w : World) :
  p ≠ "" → fs w !! p = Some k →
  let dst := path_join dst_dir (basename p) in
  let c := mv_calls w in
  ∃ (ok : bool) (w' : World) (errs : list string),
    safe_move (Some p) dst_dir w = (ok, w') ∧
    (* the attempts: the failed ones, then the one that works, if any *)
    (length errs ≤ 6)%nat ∧
    (∀ i e, errs !! i = Some e → mv_fault w (c + i)%nat = Some e) ∧
    trace w' =
      (trace w ++ failed_attempts p dst 0 errs ++
         (if ok then [EMove p dst None; ELog ("Moved " ++ p ++ " -> " ++ dst)]
          else [ELog ("Failed to move " ++ p ++ " -> " ++ dst)]))%list ∧
    now w' = now w + 400 * Z.of_nat (length errs) ∧
    (* failure only after six failed attempts *)
    (ok = false ↔ length errs = 6%nat) ∧
    (ok = true →
       mv_fault w (c + length errs)%nat = None ∧ fs w' !! dst = Some k) ∧
    (* transient lock: two failures, then success *)
    (∀ e1 e2,
       mv_fault w c = Some e1 → mv_fault w (c + 1)%nat = Some e2 →
       mv_fault w (c + 2)%nat = None →
       ok = true ∧
       trace w' =
         (trace w ++
            [EMove p dst (Some e1); ELog ("Move attempt 1 failed: " ++ e1); ESleep 400;
             EMove p dst (Some e2); ELog ("Move attempt 2 failed: " ++ e2); ESleep 400;
             EMove p dst None; ELog ("Moved " ++ p ++ " -> " ++ dst)])%list) ∧
    (* permanent failure: the source stays where it was *)
    ((∀ i, (i < 6)%nat → mv_fault w (c + i)%nat ≠ None) →
       ok = false ∧ fs w' !! p = Some k ∧ fs w' = fs (makedirs dst_dir w)).
Proof.
  intros Hp Hk dst c.
  pose proof (safe_move_spec p dst_dir k w Hp Hk) as Hs. cbn zeta in Hs.
  fold dst c in Hs.
  set (errs := leading_faults (mv_fault w) c 6) in *.
  pose proof (leading_faults_length (mv_fault w) c 6) as Hlen. fold errs in Hlen.
  pose proof (leading_faults_agree (mv_fault w) 6 c) as Hagree. fold errs in Hagree.
  pose proof (leading_faults_stop (mv_fault w) 6 c) as Hstop. fold errs in Hstop.
  pose proof (leading_faults_all (mv_fault w) 6 c) as Hall. fold errs in Hall.
  pose proof (after_failures_makedirs_trace p dst dst_dir errs w) as Htr.
  pose proof (after_failures_makedirs_now p dst dst_dir errs w) as Hnow.
  destruct (length errs <? 6)%nat eqn:Hlt.
  - apply Nat.ltb_lt in Hlt.
    eexists true, _, errs. split; [exact Hs |].
    split; [lia |]. split; [exact Hagree |].
    split. { rewrite after_success_trace, Htr, <- !app_assoc. reflexivity. }
    split. { by rewrite (proj1 (after_success_frame _ _ _ _)). }
    split. { split; [discriminate | lia]. }
    split.
    { intros _. split; [by apply Hstop |].
      by rewrite after_success_fs, lookup_insert_eq. }
    split.
    + intros e1 e2 H1 H2 H3. split; [reflexivity |].
      rewrite after_success_trace, Htr, <- !app_assoc. f_equal.
      assert (errs = [e1; e2]) as ->; [| reflexivity].
      unfold errs. cbn. rewrite H1.
      replace (S c) with (c + 1)%nat by lia. rewrite H2.
      replace (S (c + 1)) with (c + 2)%nat by lia. by rewrite H3.
    + intros Hperm. apply Hall in Hperm. lia.
  - apply Nat.ltb_ge in Hlt.
    eexists false, _, errs. split; [exact Hs |].
    split; [lia |]. split; [exact Hagree |].
    split. { rewrite log_trace, Htr, <- !app_assoc. reflexivity. }
    split. { by rewrite (proj2 (proj2 (log_frame _ _))). }
    split. { split; [lia | reflexivity]. }
    split; [discriminate |].
    split.
    + intros e1 e2 H1 H2 H3. exfalso.
      assert (errs = [e1; e2]) as Herrs.
      { unfold errs. cbn. rewrite H1.
        replace (S c) with (c + 1)%nat by lia. rewrite H2.
        replace (S (c + 1)) with (c + 2)%nat by lia. by rewrite H3. }
      rewrite Herrs in Hlt. cbn in Hlt. lia.
    + intros _. split; [reflexivity |].
      rewrite (proj1 (log_frame _ _)), after_failures_fs.
      split; [by apply makedirs_lookup | reflexivity].
Qed.

Lemma safe_move_bounded_retry_witness :
  staged ≠ "" ∧ fs (staged_world 2) !! staged = Some KFile ∧
  ∃ w', safe_move (Some staged) APPROVED_DIR (staged_world 2) = (true, w') ∧
        length (move_calls (trace w')) = 3%nat ∧
        length (log_lines (trace w')) = 3%nat ∧
        sleeps (trace w') = [400; 400].
Proof.
  assert (staged ≠ "") as H1 by (vm_compute; discriminate).
  assert (fs (staged_world 2) !! staged = Some KFile) as H2 by (vm_compute; reflexivity).
  split; [exact H1 |]. split; [exact H2 |].
  destruct (safe_move_bounded_retry staged APPROVED_DIR KFile (staged_world 2) H1 H2)
    as (ok & w' & errs & Hs & _ & _ & _ & _ & _ & _ & Htransient & _).
  destruct (Htransient "[WinError 32] file in use" "[WinError 32] file in use")
    as [-> Htr]; try reflexivity.
  exists w'. split; [exact Hs |]. rewrite Htr. repeat split; reflexivity.
Defined.

(** ** Approve, reject and the disposition countdown *)

Lemma resolve_unfold (d : decision) (st : App) (w : World) :
  resolve d st w =
    if has_current_file st w then
      match safe_move (current_file st) (dest d) w with
      | (true, w1) =>
          cancel_post_timeout (set_decision_btns disabled (set_current_file None st))
            (showinfo (notice d) ("Moved to " ++ dest d) w1)
      | (false, w1) => (st, w1)
      end
    else (st, w).
Proof. destruct d; reflexivity. Qed.

Lemma has_current_file_inv (st : App) (w : World) :
  has_current_file st w = true →
  ∃ p k, current_file st = Some p ∧ p ≠ "" ∧ fs w !! p = Some k.
Proof.
  unfold has_current_file. intros [Ht He]%andb_true_iff.
  destruct (current_file st) as [p|]; [| discriminate].
  cbn in He. apply path_exists_true in He as [k Hk].
  exists p, k. split; [reflexivity |]. split; [| exact Hk].
  intros ->. discriminate.
Qed.

Lemma has_current_file_None (st : App) (w : World) :
  current_file st = None → has_current_file st w = false.
Proof. unfold has_current_file. by intros ->. Qed.

Lemma has_current_file_ext (st st' : App) (w w' : World) :
  current_file st' = current_file st → fs w' = fs w →
  has_current_file st' w' = has_current_file st w.
Proof.
  unfold has_current_file, exists_opt, path_exists. by intros -> ->.
Qed.

Lemma cancel_post_timeout_frame (st : App) (w : World) :
  current_file (cancel_post_timeout st w).1 = current_file st ∧
  fs (cancel_post_timeout st w).2 = fs w ∧
  trace (cancel_post_timeout st w).2 = trace w.
Proof.
  unfold cancel_post_timeout. destruct (post_timeout_job st); destruct st, w; done.
Qed.

Lemma showinfo_frame (a b : string) (w : World) :
  trace (showinfo a b w) = (trace w ++ [EDialog a b])%list ∧
  fs (showinfo a b w) = fs w ∧ timers (showinfo a b w) = timers w.
Proof. by destruct w. Qed.

Lemma moves_done_app (t1 t2 : list event) :
  moves_done (t1 ++ t2) = (moves_done t1 + moves_done t2)%nat.
Proof.
  unfold moves_done. by rewrite List.filter_app, length_app.
Qed.

Lemma moves_done_failed_attempts (src dst : string) (errs : list string) :
  ∀ i, moves_done (failed_attempts src dst i errs) = 0%nat.
Proof.
  induction errs as [|e r IH]; intros i; [reflexivity |].
  cbn [failed_attempts]. rewrite moves_done_app, IH. reflexivity.
Qed.

(** What one call of approve or reject does to the count of relocations:
    nothing, with the session untouched; or one relocation, after which no
    current file is left. *)
Lemma resolve_moves (d : decision) (st : App) (w : World) :
  (moves_done (trace (resolve d st w).2) = moves_done (trace w) ∧
   (resolve d st w).1 = st ∧ fs (resolve d st w).2 !! default "" (current_file st) = fs w !! default "" (current_file st))
  ∨
  (moves_done (trace (resolve d st w).2) = S (moves_done (trace w)) ∧
   current_file (resolve d st w).1 = None).
Proof.
  rewrite resolve_unfold.
  destruct (has_current_file st w) eqn:Hh; [| by left].
  destruct (has_current_file_inv _ _ Hh) as (p & k & Hcf & Hp & Hk).
  rewrite Hcf, (safe_move_spec p (dest d) k w Hp Hk). cbn zeta.
  set (dst := path_join (dest d) (basename p)).
  set (errs := leading_faults _ _ _).
  destruct (length errs <? 6)%nat.
  - right. destruct (cancel_post_timeout_frame
      (set_decision_btns disabled (set_current_file None st))
      (showinfo (notice d) ("Moved to " ++ dest d)
         (after_success p dst k (after_failures p dst 0 errs (makedirs (dest d) w)))))
      as (Hc & _ & Ht).
    rewrite Hc, Ht. split; [| by destruct st].
    rewrite (proj1 (showinfo_frame _ _ _)).
    rewrite after_success_trace, after_failures_makedirs_trace.
    rewrite !moves_done_app, moves_done_failed_attempts. cbn. lia.
  - left. cbn [fst snd]. split; [| split; [reflexivity |]].
    + rewrite log_trace, after_failures_makedirs_trace.
      rewrite !moves_done_app, moves_done_failed_attempts. cbn. lia.
    + cbn. rewrite (proj1 (log_frame _ _)), after_failures_fs.
      rewrite Hk. by apply makedirs_lookup.
Qed.

Lemma tick_expiry_no_current_file (st : App) (w : World) :
  post_timeout_left st ≤ 1 →
  has_current_file (_post_timeout_tick st w).1 (_post_timeout_tick st w).2 = false.
Proof.
  intros Hleft. unfold _post_timeout_tick.
  set (st1 := set_status_var _ _).
  assert ((post_timeout_left st1 <=? 0) = true) as ->.
  { apply Z.leb_le. subst st1. destruct st. cbn in *. lia. }
  destruct (has_current_file st1 w) eqn:Hh.
  - destruct (safe_move (current_file st1) DELETE_DAILY_DIR w) as [ok w1].
    apply has_current_file_None.
    rewrite (proj1 (cancel_post_timeout_frame _ _)). by destruct st1.
  - destruct (cancel_post_timeout_frame st1 w) as (Hc & Hf & _).
    by rewrite (has_current_file_ext st1 _ w _ Hc Hf).
Qed.

(** C9. When all six attempts of the move behind approve or reject fail,
    the call gives back the application object as it was (current file,
    buttons, countdown job and seconds left), the artifact is still where it
    was, and the pending countdown tick is still in the queue. *)
Theorem resolve_failed_move_keeps_session
    (d : decision) (st : App) (w : World) (p : string) :
  current_file st = Some p →
  has_current_file st w = true →
  (∀ i, (i < 6)%nat → mv_fault w (mv_calls w + i)%nat ≠ None) →
  ∃ w', resolve d st w = (st, w') ∧
        fs w' !! p = fs w !! p ∧
        has_current_file st w' = true ∧
        timers w' = timers w ∧
        moves_done (trace w') = moves_done (trace w).
Proof.
  intros Hcf Hh Hperm.
  destruct (has_current_file_inv _ _ Hh) as (p' & k & Hcf' & Hp & Hk).
  assert (p' = p) as -> by congruence.
  pose proof (leading_faults_all (mv_fault w) 6 (mv_calls w) Hperm) as Hlen.
  rewrite resolve_unfold, Hh, Hcf, (safe_move_spec p (dest d) k w Hp Hk).
  cbn zeta. rewrite Hlen. cbn [Nat.ltb Nat.leb].
  set (dst := path_join (dest d) (basename p)).
  set (errs := leading_faults _ _ _).
  eexists. split; [reflexivity |].
  assert (Hfs : fs (log ("Failed to move " ++ p ++ " -> " ++ dst)
                      (after_failures p dst 0 errs (makedirs (dest d) w))) !! p
                = Some k).
  { rewrite (proj1 (log_frame _ _)), after_failures_fs. by apply makedirs_lookup. }
  split; [by rewrite Hfs, Hk |].
  split.
  { unfold has_current_file in *. rewrite Hcf in *.
    apply andb_true_iff in Hh as [Ht _]. apply andb_true_iff.
    split; [exact Ht |]. apply path_exists_true. rewrite Hfs. eauto. }
  split.
  { rewrite (proj1 (proj2 (log_frame _ _))), after_failures_timers.
    apply makedirs_frame. }
  rewrite log_trace, after_failures_makedirs_trace.
  rewrite !moves_done_app, moves_done_failed_attempts. cbn. lia.
Qed.

Lemma resolve_failed_move_keeps_session_witness :
  let st := awaiting_app 12 in
  let w := awaiting_world 6 in
  current_file st = Some staged ∧ has_current_file st w = true ∧
  (∀ i, (i < 6)%nat → mv_fault w (mv_calls w + i)%nat ≠ None) ∧
  ∃ w', approve_current st w = (st, w') ∧ timers w' = {[ 0%nat := 6000 ]} ∧
        fs w' !! staged = Some KFile.
Proof.
  intros st w.
  assert (has_current_file st w = true) as Hh by (vm_compute; reflexivity).
  assert (∀ i, (i < 6)%nat → mv_fault w (mv_calls w + i)%nat ≠ None) as Hperm.
  { intros i Hi. cbn. unfold locked_for.
    destruct (Nat.ltb_spec i 6); [discriminate | lia]. }
  split; [reflexivity |]. split; [exact Hh |]. split; [exact Hperm |].
  destruct (resolve_failed_move_keeps_session Approved st w staged eq_refl Hh Hperm)
    as (w' & Hr & Hfs & _ & Ht & _).
  exists w'. split; [exact Hr |]. split; [exact Ht |].
  rewrite Hfs. vm_compute. reflexivity.
Defined.

(** C5. Approve and reject are idempotent.  Once a call has relocated the
    artifact, a further call of either gives back the application and the
    world unchanged; the same holds right after the countdown has expired;
    and two calls in a row relocate at most once. *)
Theorem resolve_idempotent (d1 d2 : decision) (st : App) (w : World) :
  let r1 := resolve d1 st w in
  let r2 := resolve d2 r1.1 r1.2 in
  (moves_done (trace r1.2) ≠ moves_done (trace w) → r2 = r1) ∧
  (post_timeout_left st ≤ 1 →
     let e := _post_timeout_tick st w in resolve d1 e.1 e.2 = e) ∧
  (moves_done (trace r2.2) ≤ S (moves_done (trace w)))%nat.
Proof.
  cbn zeta.
  assert (Hnoop : ∀ d (a : App) (v : World),
             has_current_file a v = false → resolve d a v = (a, v)).
  { intros d a v H. by rewrite resolve_unfold, H. }
  pose proof (resolve_moves d1 st w) as M1.
  destruct (resolve d1 st w) as [st1 w1] eqn:E1. cbn [fst snd] in *.
  split; [| split].
  - intros Hmoved.
    destruct M1 as [(Hsame & _) | (_ & Hnone)]; [done |].
    by rewrite (Hnoop d2 _ _ (has_current_file_None _ w1 Hnone)).
  - intros Hleft.
    pose proof (Hnoop d1 _ _ (tick_expiry_no_current_file st w Hleft)) as H.
    rewrite H. by destruct (_post_timeout_tick st w).
  - destruct M1 as [(Hsame & _) | (Hone & Hnone)].
    + pose proof (resolve_moves d2 st1 w1) as M2.
      destruct (resolve d2 st1 w1) as [st2 w2]. cbn [fst snd] in *.
      destruct M2 as [(H2 & _) | (H2 & _)]; lia.
    + rewrite (Hnoop d2 _ _ (has_current_file_None _ w1 Hnone)). cbn. lia.
Qed.

Lemma resolve_idempotent_witness :
  let st := awaiting_app 12 in
  let w := awaiting_world 0 in
  let r1 := resolve Approved st w in
  moves_done (trace r1.2) ≠ moves_done (trace w) ∧
  resolve Rejected r1.1 r1.2 = r1 ∧
  fs r1.2 !! path_join APPROVED_DIR "recording_7.mp4" = Some KFile.
Proof.
  intros st w r1.
  assert (moves_done (trace r1.2) ≠ moves_done (trace w)) as H
    by (vm_compute; discriminate).
  split; [exact H |]. split; [| vm_compute; reflexivity].
  exact (proj1 (resolve_idempotent Approved Rejected st w) H).
Defined.

(** ** The start guard *)

(** C2, as the code has it.  Start is a no-op exactly while the recording
    flag is set; in the other two phases, the disposition window included,
    it is accepted and starts a worker thread. *)
Theorem start_guard (st : App) (w : World) :
  (phase_of st = Recording → start_recording_thread st w = (st, w)) ∧
  (phase_of st = Idle ∨ phase_of st = AwaitingDisposition →
     start_recording_thread st w = (st, emit EThread w)).
Proof.
  unfold phase_of, start_recording_thread.
  destruct (recording st).
  - split; [reflexivity |]. intros [H | H]; discriminate.
  - split; [| reflexivity]. case_bool_decide; discriminate.
Qed.

Lemma start_guard_witness :
  let st := set_recording true (awaiting_app 30) in
  phase_of st = Recording ∧
  start_recording_thread st (awaiting_world 0) = (st, awaiting_world 0).
Proof.
  intros st. split; [reflexivity |].
  exact (proj1 (start_guard st (awaiting_world 0)) eq_refl).
Defined.

(** C2 as stated fails: after a first recording the session awaits the
    disposition of its file, a click on Start Recording is accepted there,
    and the worker it starts launches the encoder a second time on a new
    current file. *)
Lemma start_accepted_while_awaiting :
  holds_after (first_recording (λ _, brief)) (λ st w,
    phase_of st = AwaitingDisposition ∧
    armed st w ∧
    start_recording_thread st w = (st, emit EThread w) ∧
    holds_after (click_start_and_record (st, w)) (λ st2 w2,
      popens w = 1%nat ∧ popens w2 = 2%nat ∧
      current_file st = Some (path_join INBOUND_DIR "recording_5.mp4") ∧
      current_file st2 = Some (path_join INBOUND_DIR "recording_6.mp4"))).
Proof.
  vm_compute. split; [reflexivity |].
  split; [eexists; split; [reflexivity | eexists; reflexivity] |].
  repeat split.
Qed.

(** ** The disposition countdown and user input *)

Lemma cancel_post_timeout_spec (st : App) (w : World) :
  let r := cancel_post_timeout st w in
  post_timeout_job r.1 = None ∧
  timers r.2 = from_option (λ j, delete j (timers w)) (timers w) (post_timeout_job st) ∧
  next_job r.2 = next_job w ∧ now r.2 = now w ∧ fs r.2 = fs w ∧
  trace r.2 = trace w ∧ current_file r.1 = current_file st.
Proof.
  unfold cancel_post_timeout.
  destruct st, w; cbn. destruct post_timeout_job0; cbn; done.
Qed.

Lemma start_post_timeout_spec (st : App) (w : World) :
  let r := start_post_timeout st w in
  post_timeout_left r.1 = POST_RECORD_TIMEOUT ∧
  post_timeout_job r.1 = Some (next_job w) ∧
  timers r.2 =
    <[next_job w := now w + 1000]>
      (from_option (λ j, delete j (timers w)) (timers w) (post_timeout_job st)) ∧
  status_var r.1 = awaiting_text POST_RECORD_TIMEOUT ∧
  fs r.2 = fs w ∧ trace r.2 = trace w ∧ current_file r.1 = current_file st ∧
  recording r.1 = recording st ∧
  approve_btn r.1 = approve_btn st ∧ reject_btn r.1 = reject_btn st ∧
  play_btn r.1 = play_btn st ∧ start_btn r.1 = start_btn st ∧
  stop_btn r.1 = stop_btn st.
Proof.
  unfold start_post_timeout, cancel_post_timeout, after.
  destruct st, w; cbn. destruct post_timeout_job0; cbn; done.
Qed.

(** C6, as the code has it.  While the current file exists on disk, a key
    press or a click starts the countdown afresh: 30 seconds left, the old
    tick cancelled, a new tick due one second from now.  Right after the
    countdown has expired, the same input changes nothing. *)
Theorem reset_restarts_countdown (st : App) (w : World) :
  (has_current_file st w = true →
     let r := reset_post_timeout st w in
     post_timeout_left r.1 = POST_RECORD_TIMEOUT ∧
     post_timeout_job r.1 = Some (next_job w) ∧
     timers r.2 =
       <[next_job w := now w + 1000]>
         (from_option (λ j, delete j (timers w)) (timers w) (post_timeout_job st)) ∧
     armed r.1 r.2 ∧
     status_var r.1 = awaiting_text POST_RECORD_TIMEOUT ∧
     current_file r.1 = current_file st ∧ fs r.2 = fs w ∧ trace r.2 = trace w) ∧
  (post_timeout_left st ≤ 1 →
     let e := _post_timeout_tick st w in
     reset_post_timeout e.1 e.2 = e).
Proof.
  split.
  - intros Hh. unfold reset_post_timeout. rewrite Hh.
    destruct (start_post_timeout_spec st w)
      as (Hl & Hj & Ht & Hs & Hf & Htr & Hc & _).
    cbn zeta. repeat split; try assumption.
    exists (next_job w). split; [exact Hj |].
    rewrite Ht, lookup_insert_eq. eauto.
  - intros Hleft. cbn zeta. unfold reset_post_timeout.
    rewrite (tick_expiry_no_current_file st w Hleft).
    by destruct (_post_timeout_tick st w).
Qed.

Lemma reset_restarts_countdown_witness :
  has_current_file (awaiting_app 12) (awaiting_world 0) = true ∧
  post_timeout_left (reset_post_timeout (awaiting_app 12) (awaiting_world 0)).1 = 30 ∧
  timers (reset_post_timeout (awaiting_app 12) (awaiting_world 0)).2
    = {[ 1%nat := 6000 ]}.
Proof.
  assert (has_current_file (awaiting_app 12) (awaiting_world 0) = true) as H
    by (vm_compute; reflexivity).
  split; [exact H |].
  destruct (proj1 (reset_restarts_countdown (awaiting_app 12) (awaiting_world 0)) H)
    as (Hl & _ & Ht & _).
  split; [exact Hl |]. rewrite Ht. vm_compute. reflexivity.
Defined.

(** C6 as stated fails: the countdown of the first recording is running
    (one tick has passed, 29 seconds are left, the next tick is pending)
    when a second recording is started and its launch fails; the current
    file is now a path that does not exist, and user input leaves the
    countdown where it was. *)
Lemma reset_ignored_while_armed :
  holds_after
    ((fire 1 <$> first_recording only_first_launches) ≫= click_start_and_record)
    (λ st w,
       armed st w ∧
       post_timeout_left st = 29 ∧
       reset_post_timeout st w = (st, w) ∧
       post_timeout_left (reset_post_timeout st w).1 ≠ POST_RECORD_TIMEOUT).
Proof.
  vm_compute. split; [eexists; split; [reflexivity | eexists; reflexivity] |].
  split; [reflexivity |]. split; [reflexivity |]. discriminate.
Qed.

(** ** The end of a recording *)

Lemma terminate_frame (h : nat) (w : World) :
  fs (terminate h w) = fs w ∧ timers (terminate h w) = timers w ∧
  next_job (terminate h w) = next_job w ∧ now (terminate h w) = now w.
Proof.
  unfold terminate. destruct w; cbn. repeat case_match; done.
Qed.

Lemma wait_frame (h : nat) (ms : Z) (w : World) :
  fs (wait h ms w) = fs w ∧ timers (wait h ms w) = timers w ∧
  next_job (wait h ms w) = next_job w ∧ procs (wait h ms w) = procs w.
Proof.
  unfold wait. destruct w; cbn. repeat case_match; done.
Qed.

Lemma reap_frame (st : App) (w : World) :
  fs (reap st w) = fs w ∧ timers (reap st w) = timers w ∧
  next_job (reap st w) = next_job w.
Proof.
  unfold reap. destruct (record_proc st) as [h|]; [| done].
  destruct (poll_is_None (Some h) w); [| done].
  destruct (wait_frame h 2000 (terminate h w)) as (-> & -> & -> & _).
  destruct (terminate_frame h w) as (-> & -> & -> & _). done.
Qed.




(** C3 as stated fails on the return to [Idle] as well: a recording
    started inside the disposition window of an earlier one, whose encoder
    ends without writing its output, leaves the session in that window,
    with the decision buttons enabled and the countdown of the earlier
    recording pending, while the current file does not exist. *)
Lemma window_left_open_without_file :
  holds_after (first_recording brief_then_fruitless ≫= click_start_and_record)
    (λ st w,
      has_current_file st w = false ∧
      current_file st = Some (path_join INBOUND_DIR "recording_6.mp4") ∧
      phase_of st = AwaitingDisposition ∧
      approve_btn st = normal ∧ reject_btn st = normal ∧ play_btn st = normal ∧
      post_timeout_job st = Some 1%nat ∧ is_Some (timers w !! 1%nat) ∧
      status_var st = "Recording finished").
Proof. vm_compute. repeat split. eauto. Qed.

(** ** The duration bound *)

Lemma sleep_spec (ms : Z) (w : World) :
  now (sleep ms w) = now w + ms ∧
  trace (sleep ms w) = (trace w ++ [ESleep ms])%list ∧
  procs (sleep ms w) = procs w ∧ stop_at (sleep ms w) = stop_at w ∧
  fs (sleep ms w) = fs w ∧ timers (sleep ms w) = timers w.
Proof. by destruct w. Qed.

(** Off the tie, the test of the bound is the exact comparison. *)
Lemma bound_reached_before (start t : Z) :
  t - start < MAX_RECORD_SECONDS * 1000 → bound_reached start t = false.
Proof.
  intros H. unfold bound_reached.
  destruct (Z.eqb_spec (t - start) (MAX_RECORD_SECONDS * 1000)); [lia |].
  apply Z.ltb_ge. lia.
Qed.

Lemma bound_reached_after (start t : Z) :
  MAX_RECORD_SECONDS * 1000 < t - start → bound_reached start t = true.
Proof.
  intros H. unfold bound_reached.
  destruct (Z.eqb_spec (t - start) (MAX_RECORD_SECONDS * 1000)); [lia |].
  by apply Z.ltb_lt.
Qed.

Section FullCourse.

(** A recording in progress: the flag is set and the handle is known. *)
Variables (h : nat) (p : Proc) (st : App) (start : Z).
Hypothesis Hrec : recording st = true.
Hypothesis Hproc : record_proc st = Some h.
Hypothesis Hstart : record_start_time st = Some start.

(** What the loop does from the poll at which 60 s have passed. *)
Lemma wait_loop_at_bound :
  ∀ (fuel : nat) (w : World),
    (1 < fuel)%nat →
    procs w !! h = Some p →
    (∀ t, t ≤ now w + 100 → running_at p t = true) →
    now w = start + MAX_RECORD_SECONDS * 1000 →
    (∀ t, stop_at w = Some t → now w + 100 < t) →
    let n := if bound_reached start (start + MAX_RECORD_SECONDS * 1000)
             then 0%nat else 1%nat in
    ∃ w1,
      wait_loop fuel st w = Some (st, w1) ∧
      now w1 = now w + 100 * Z.of_nat n ∧
      trace w1 = (trace w ++ replicate n (ESleep 100))%list ∧
      procs w1 = procs w ∧ fs w1 = fs w ∧ timers w1 = timers w.
Proof.
  intros fuel w Hfuel Hp Hrun Hnow Hstop.
  destruct fuel as [|fuel]; [lia |]. cbn zeta.
  cbn [wait_loop]. rewrite Hrec, Hproc, Hstart. cbn [default from_option id].
  unfold poll_is_None. rewrite Hp, (Hrun (now w)) by lia. cbn [andb].
  rewrite Hnow.
  destruct (bound_reached start (start + MAX_RECORD_SECONDS * 1000)).
  - exists w. rewrite app_nil_r. repeat split; lia.
  - destruct (sleep_spec 100 w) as (Hn & Ht & Hpr & Hsa & Hf & Htm).
    assert (ui_pump st (sleep 100 w) = (st, sleep 100 w)) as ->.
    { unfold ui_pump. rewrite Hsa. destruct (stop_at w) as [t|] eqn:Hs; [| done].
      specialize (Hstop t eq_refl).
      destruct (Z.leb_spec t (now (sleep 100 w))); [lia | done]. }
    destruct fuel as [|fuel]; [lia |].
    cbn [wait_loop]. rewrite Hrec, Hproc, Hstart. cbn [default from_option id].
    unfold poll_is_None. rewrite Hpr, Hp, (Hrun (now (sleep 100 w))) by lia.
    cbn [andb]. rewrite bound_reached_after by lia.
    exists (sleep 100 w). split; [reflexivity |].
    split; [lia |]. split; [exact Ht |]. done.
Qed.

(** The loop runs its full course: [k] polls of 100 ms remain before 60 s
    have passed, nothing stops the recording before the bound is seen. *)
Lemma wait_loop_runs :
  ∀ (k fuel : nat) (w : World),
    (S k < fuel)%nat →
    procs w !! h = Some p →
    (∀ t, t ≤ now w + 100 * Z.of_nat (S k) → running_at p t = true) →
    now w = start + MAX_RECORD_SECONDS * 1000 - 100 * Z.of_nat k →
    (∀ t, stop_at w = Some t → now w + 100 * Z.of_nat (S k) < t) →
    let n := if bound_reached start (start + MAX_RECORD_SECONDS * 1000)
             then k else S k in
    ∃ w1,
      wait_loop fuel st w = Some (st, w1) ∧
      now w1 = now w + 100 * Z.of_nat n ∧
      trace w1 = (trace w ++ replicate n (ESleep 100))%list ∧
      procs w1 = procs w ∧ fs w1 = fs w ∧ timers w1 = timers w.
Proof.
  induction k as [|k IH]; intros fuel w Hfuel Hp Hrun Hnow Hstop.
  - apply wait_loop_at_bound; try done; lia.
  - destruct fuel as [|fuel]; [lia |]. cbn zeta. cbn [wait_loop].
    rewrite Hrec, Hproc, Hstart. cbn [default from_option id].
    unfold poll_is_None. rewrite Hp, (Hrun (now w)) by lia. cbn [andb].
    rewrite bound_reached_before by lia.
    destruct (sleep_spec 100 w) as (Hn & Ht & Hpr & Hsa & Hf & Htm).
    assert (ui_pump st (sleep 100 w) = (st, sleep 100 w)) as ->.
    { unfold ui_pump. rewrite Hsa. destruct (stop_at w) as [t|] eqn:Hs; [| done].
      specialize (Hstop t eq_refl).
      destruct (Z.leb_spec t (now (sleep 100 w))); [lia | done]. }
    destruct (IH fuel (sleep 100 w)) as (w1 & Hw & Hn1 & Ht1 & Hp1 & Hf1 & Htm1).
    + lia.
    + by rewrite Hpr.
    + intros t Ht'. apply Hrun. lia.
    + lia.
    + intros t Hs. rewrite Hsa in Hs. specialize (Hstop t Hs). lia.
    + cbn zeta in Hn1, Ht1.
      exists w1. split; [exact Hw |].
      destruct (bound_reached start (start + MAX_RECORD_SECONDS * 1000)).
      * split; [lia |].
        split; [rewrite Ht1, Ht, <- app_assoc; reflexivity |].
        split; [congruence |]. split; congruence.
      * split; [lia |].
        split; [rewrite Ht1, Ht, <- app_assoc; reflexivity |].
        split; [congruence |]. split; congruence.
Qed.

End FullCourse.

Lemma exit_time_untouched (p : Proc) :
  p_term_at p = None →
  exit_time p = (λ d, p_started p + d) <$> exits_after (p_launch p).
Proof.
  unfold exit_time. intros ->. destruct (exits_after (p_launch p)); reflexivity.
Qed.

(** What [reap] does to an encoder that is running and was not yet asked
    to terminate. *)
Lemma reap_running (st : App) (w : World) (h : nat) (p : Proc) :
  record_proc st = Some h → procs w !! h = Some p →
  running_at p (now w) = true → p_term_at p = None →
  let p' := {| p_started := p_started p; p_launch := p_launch p;
               p_term_at := Some (now w) |} in
  procs (reap st w) = <[h := p']> (procs w) ∧
  trace (reap st w) = (trace w ++ [ETerminate h; EWait h 2000])%list ∧
  now (reap st w) =
    if running_at p' (now w)
    then match exit_time p' with
         | Some e => Z.min e (now w + 2000)
         | None => now w + 2000
         end
    else now w.
Proof.
  intros Hproc Hp Hrun Hterm p'. unfold reap, poll_is_None.
  rewrite Hproc, Hp, Hrun. unfold terminate, wait.
  destruct w as [fs0 now0 tr0 tm0 nj0 pr0 cf0 mc0 po0 sa0 mvf rmf ff ds cg].
  cbn in *. rewrite Hp, Hrun, Hterm. cbn.
  rewrite list_lookup_insert_eq by (by eapply lookup_lt_Some).
  fold p'. rewrite <- app_assoc.
  destruct (running_at p' now0); [destruct (exit_time p') |]; done.
Qed.

Lemma worker_finish_after_reap (st : App) (w : World) :
  procs (worker_finish st w).2 = procs (reap st w) ∧
  (∃ rest, trace (worker_finish st w).2 = (trace (reap st w) ++ rest)%list) ∧
  now (reap st w) + 250 ≤ now (worker_finish st w).2.
Proof.
  unfold worker_finish. destruct (reap st w) as
    [fs0 now0 tr0 tm0 nj0 pr0 cf0 mc0 po0 sa0 mvf rmf ff ds cg].
  unfold open_preview, start_post_timeout, cancel_post_timeout, after.
  destruct st; cbn.
  destruct cap0; cbn;
    match goal with |- context [has_current_file ?a ?b] =>
      destruct (has_current_file a b) end;
    cbn; try destruct post_timeout_job0; cbn;
    (split; [reflexivity |]);
    (split; [rewrite <- ?app_assoc; eexists; reflexivity | lia]).
Qed.

(** What a successful launch leaves behind: the flag is set, the start
    time is the present, and the new process is the last of the table. *)
Lemma worker_launch_spec (st : App) (w : World) (st1 : App) (w1 : World) :
  worker_launch st w = (st1, w1, true) →
  recording st1 = true ∧ record_proc st1 = Some (length (procs w)) ∧
  record_start_time st1 = Some (now w1) ∧
  procs w1 !! length (procs w)
    = Some {| p_started := now w1; p_launch := ffmpeg w (popens w);
              p_term_at := None |} ∧
  stop_at w1 = stop_at w ∧ now w1 = now w + 120.
Proof.
  unfold worker_launch, Popen.
  destruct w as [fs0 now0 tr0 tm0 nj0 pr0 cf0 mc0 po0 sa0 mvf rmf ff ds cg].
  cbn. destruct (launch_error (ff po0)) as [e|].
  - match goal with |- context [open_preview ?a ?b] =>
      destruct (open_preview a b) end. intros [=].
  - destruct (writes_output (ff po0)); cbn; intros [= <- <-]; destruct st; cbn;
      rewrite lookup_app_r, Nat.sub_diag by lia; done.
Qed.




(** ** The start-up purge *)

Lemma append_assoc (a b c : string) : (a ++ b) ++ c = a ++ (b ++ c).
Proof.
  induction a as [|x a IH]; [reflexivity |].
  change (String x ((a ++ b) ++ c) = String x (a ++ (b ++ c))). by f_equal.
Qed.

Lemma prefix_cons (c d : ascii) (s t : string) :
  String.prefix (String c s) (String d t)
  = if ascii_dec c d then String.prefix s t else false.
Proof. reflexivity. Qed.

Lemma prefix_append_cancel (x s t : string) :
  String.prefix (x ++ s) (x ++ t) = String.prefix s t.
Proof.
  induction x as [|c x IH]; [reflexivity |].
  change (String.prefix (String c (x ++ s)) (String c (x ++ t)) = String.prefix s t).
  rewrite prefix_cons. destruct (ascii_dec c c); [exact IH | congruence].
Qed.

Lemma prefix_sep_has_sep (a b : string) :
  String.prefix (a ++ "/") b = true → has_sep b = true.
Proof.
  revert b. induction a as [|c a IH]; intros [|d b].
  - discriminate.
  - change (String.prefix (String sep "") (String d b) = true
            → has_sep (String d b) = true).
    rewrite prefix_cons.
    destruct (ascii_dec sep d) as [<- |]; [intros _; reflexivity | discriminate].
  - discriminate.
  - change (String.prefix (String c (a ++ "/")) (String d b) = true
            → Ascii.eqb d sep || has_sep b = true).
    rewrite prefix_cons. destruct (ascii_dec c d); [| discriminate].
    intros H. rewrite (IH b H). apply orb_true_r.
Qed.

Lemma basename_no_sep (p : string) : has_sep (basename p) = false.
Proof.
  induction p as [|c r IH]; [reflexivity |]. cbn.
  destruct (has_sep r) eqn:Hr; [exact IH |].
  destruct (Ascii.eqb c sep) eqn:Hc; [exact Hr |].
  cbn. by rewrite Hc, Hr.
Qed.

Lemma no_sep_starts (n : string) : has_sep n = false → starts_with_sep n = false.
Proof. destruct n; cbn; [done |]. by intros [? ?]%orb_false_iff. Qed.

(** Below [DELETE_DAILY_DIR], joining a plain name appends it after a
    separator. *)
Lemma join_delete_daily (n : string) :
  has_sep n = false →
  path_join DELETE_DAILY_DIR n = DELETE_DAILY_DIR ++ "/" ++ n.
Proof.
  intros H. unfold path_join. by rewrite (no_sep_starts n H).
Qed.

Lemma join_delete_daily_inj (a b : string) :
  has_sep a = false → has_sep b = false →
  path_join DELETE_DAILY_DIR a = path_join DELETE_DAILY_DIR b → a = b.
Proof.
  intros Ha Hb. rewrite !join_delete_daily by done.
  intros H. by do 2 apply (inj (String.append _)) in H.
Qed.

(** Two distinct entries of the directory do not lie below each other. *)
Lemma siblings_apart (a b : string) :
  has_sep a = false → has_sep b = false → a ≠ b →
  under (path_join DELETE_DAILY_DIR a) (path_join DELETE_DAILY_DIR b) = false.
Proof.
  intros Ha Hb Hab. unfold under. apply orb_false_iff. split.
  - apply String.eqb_neq. intros H. by apply Hab, join_delete_daily_inj.
  - rewrite !join_delete_daily by done.
    rewrite !append_assoc, prefix_append_cancel.
    change ("/" ++ a ++ "/") with ("/" ++ (a ++ "/")).
    rewrite prefix_append_cancel.
    destruct (String.prefix (a ++ "/") b) eqn:Hp; [| reflexivity].
    apply prefix_sep_has_sep in Hp. congruence.
Qed.

Lemma child_of_Some (d p n : string) :
  child_of d p = Some n → n = basename p ∧ n ≠ "" ∧ path_join d n = p.
Proof.
  unfold child_of. case_bool_decide as H; [| discriminate].
  intros [= <-]. by destruct H.
Qed.

Lemma elem_of_listdir (d n : string) (w : World) :
  n ∈ listdir d w ↔ ∃ p k, fs w !! p = Some k ∧ child_of d p = Some n.
Proof.
  unfold listdir. rewrite list_elem_of_omap. split.
  - intros (p & Hp & Hc). apply list_elem_of_fmap in Hp as ([p' k] & -> & Hin).
    apply elem_of_map_to_list in Hin. eauto.
  - intros (p & k & Hk & Hc). exists p. split; [| exact Hc].
    apply list_elem_of_fmap. exists (p, k). split; [reflexivity |].
    by apply elem_of_map_to_list.
Qed.

Lemma listdir_no_sep (d n : string) (w : World) :
  n ∈ listdir d w → has_sep n = false.
Proof.
  intros (p & k & _ & Hc)%elem_of_listdir.
  apply child_of_Some in Hc as (-> & _). apply basename_no_sep.
Qed.

Lemma has_sep_append_sep (x n : string) : has_sep (x ++ "/" ++ n) = true.
Proof.
  induction x as [|c x IH]; [reflexivity |].
  change (Ascii.eqb c sep || has_sep (x ++ "/" ++ n) = true).
  rewrite IH. apply orb_true_r.
Qed.

Lemma basename_append (x n : string) :
  has_sep n = false → basename (x ++ "/" ++ n) = n.
Proof.
  intros Hn. induction x as [|c x IH].
  - change (basename (String sep n) = n). cbn [basename]. by rewrite Hn.
  - change (basename (String c (x ++ "/" ++ n)) = n). cbn [basename].
    by rewrite has_sep_append_sep.
Qed.

(** The listing is the set of the plain names that are entries of the
    directory. *)
Lemma listdir_delete_daily (n : string) (w : World) :
  n ∈ listdir DELETE_DAILY_DIR w ↔
  n ≠ "" ∧ has_sep n = false ∧ is_Some (fs w !! entry_path n).
Proof.
  rewrite elem_of_listdir. split.
  - intros (p & k & Hk & Hc). apply child_of_Some in Hc as (Hb & Hne & Hj).
    split; [exact Hne |]. split; [rewrite Hb; apply basename_no_sep |].
    unfold entry_path. rewrite Hj. eauto.
  - intros (Hne & Hsep & [k Hk]). exists (entry_path n), k. split; [exact Hk |].
    unfold child_of, entry_path. rewrite (join_delete_daily n Hsep).
    rewrite (basename_append DELETE_DAILY_DIR n Hsep).
    rewrite bool_decide_eq_true_2; [reflexivity |].
    split; [exact Hne |]. apply (join_delete_daily n Hsep).
Qed.

Lemma NoDup_omap_inj {A B : Type} (f : A → option B) (l : list A) :
  (∀ x y z, f x = Some z → f y = Some z → x = y) →
  NoDup l → NoDup (omap f l).
Proof.
  intros Hinj. induction 1 as [|x l Hx Hl IH]; cbn; [constructor |].
  destruct (f x) as [z|] eqn:Hz; [| exact IH].
  constructor; [| exact IH].
  intros (y & Hy & Hfy)%list_elem_of_omap.
  by rewrite (Hinj x y z Hz Hfy) in Hx.
Qed.

Lemma NoDup_listdir (d : string) (w : World) : NoDup (listdir d w).
Proof.
  unfold listdir. apply NoDup_omap_inj; [| apply NoDup_fst_map_to_list].
  intros x y z (_ & _ & <-)%child_of_Some (_ & _ & <-)%child_of_Some.
  reflexivity.
Qed.

Lemma rmtree_lookup (path q : string) (m : gmap string kind) :
  filter (λ kv, under path kv.1 = false) m !! q
  = if under path q then None else m !! q.
Proof.
  rewrite map_lookup_filter. destruct (m !! q) as [k|]; cbn.
  - destruct (under path q); [by rewrite option_guard_False | by rewrite option_guard_True].
  - by destruct (under path q).
Qed.

(** One iteration of the loop, told in terms of the world [w0] the purge
    started in, for an entry that was not touched yet. *)
Lemma cleanup_step (w0 : World) (n : string) (rest : list string) (c : nat)
    (wc : World) :
  rm_fault wc = rm_fault w0 →
  fs wc !! entry_path n = fs w0 !! entry_path n →
  ∃ w1,
    cleanup_loop (n :: rest) c wc
      = cleanup_loop rest (c + (if removable w0 n then 1 else 0))%nat w1 ∧
    trace w1 = (trace wc ++ purge_events w0 n)%list ∧
    rm_fault w1 = rm_fault w0 ∧
    ∀ q, fs w1 !! q = if gone_with w0 n q then None else fs wc !! q.
Proof.
  intros Hrm Hn. cbn [cleanup_loop]. fold (entry_path n).
  unfold gone_with, removable, purge_events, os_remove, shutil_rmtree.
  assert (isfile (entry_path n) wc = isfile (entry_path n) w0) as ->
    by (unfold isfile; by rewrite Hn).
  assert (isdir (entry_path n) wc = isdir (entry_path n) w0) as ->
    by (unfold isdir; by rewrite Hn).
  rewrite Hrm.
  destruct wc as [fs0 now0 tr0 tm0 nj0 pr0 cf0 mc0 po0 sa0 mvf rmf ff ds cg].
  cbn in Hrm, Hn |- *.
  destruct (isfile (entry_path n) w0) eqn:Hf; cbn [orb andb].
  - destruct (rm_fault w0 (entry_path n)) as [e|] eqn:He; cbn.
    + eexists. split; [by rewrite Nat.add_0_r |]. cbn.
      split; [by rewrite <- app_assoc |]. split; [done | done].
    + eexists. split; [by rewrite Nat.add_1_r |]. cbn.
      split; [done |]. split; [done |]. intros q.
      destruct (String.eqb_spec (entry_path n) q) as [<- | Hne].
      * by rewrite lookup_delete_eq.
      * by rewrite lookup_delete_ne.
  - destruct (isdir (entry_path n) w0) eqn:Hd; cbn [orb andb].
    + destruct (rm_fault w0 (entry_path n)) as [e|] eqn:He; cbn.
      * eexists. split; [by rewrite Nat.add_0_r |]. cbn.
        split; [by rewrite <- app_assoc |]. split; [done | done].
      * eexists. split; [by rewrite Nat.add_1_r |]. cbn.
        split; [done |]. split; [done |]. intros q. apply rmtree_lookup.
    + eexists. split; [by rewrite Nat.add_0_r |]. cbn.
      split; [by rewrite app_nil_r |]. done.
Qed.

(** The distinct entries of the directory do not disappear with each
    other. *)
Lemma gone_with_sibling (w0 : World) (a b : string) :
  has_sep a = false → has_sep b = false → a ≠ b →
  gone_with w0 a (entry_path b) = false.
Proof.
  intros Ha Hb Hab. unfold gone_with.
  pose proof (siblings_apart a b Ha Hb Hab) as Hu. fold (entry_path a) (entry_path b) in Hu.
  unfold under in Hu. apply orb_false_iff in Hu as [He Hp].
  destruct (removable w0 a); [| reflexivity]. cbn.
  destruct (isfile (entry_path a) w0); [exact He |].
  unfold under. by rewrite He, Hp.
Qed.

Lemma cleanup_loop_spec (w0 : World) :
  ∀ (names : list string) (c : nat) (wc : World),
    NoDup names → (∀ n, n ∈ names → has_sep n = false) →
    rm_fault wc = rm_fault w0 →
    (∀ n, n ∈ names → fs wc !! entry_path n = fs w0 !! entry_path n) →
    (cleanup_loop names c wc).1
      = (c + length (List.filter (removable w0) names))%nat ∧
    trace (cleanup_loop names c wc).2
      = (trace wc ++ flat_map (purge_events w0) names)%list ∧
    ∀ q, fs (cleanup_loop names c wc).2 !! q
         = if existsb (λ n, gone_with w0 n q) names then None else fs wc !! q.
Proof.
  induction names as [|n rest IH]; intros c wc Hnd Hsep Hrm Hfs.
  - cbn. by rewrite Nat.add_0_r, app_nil_r.
  - apply NoDup_cons in Hnd as [Hn Hnd].
    destruct (cleanup_step w0 n rest c wc Hrm) as (w1 & -> & Ht1 & Hrm1 & Hfs1).
    { apply Hfs. left. }
    destruct (IH (c + (if removable w0 n then 1 else 0))%nat w1 Hnd)
      as (Hc & Ht & Hq).
    { intros n' Hn'. apply Hsep. by right. }
    { exact Hrm1. }
    { intros n' Hn'. rewrite Hfs1.
      rewrite gone_with_sibling.
      - apply Hfs. by right.
      - apply Hsep. left.
      - apply Hsep. by right.
      - intros ->. contradiction. }
    split; [| split].
    + rewrite Hc. cbn [List.filter]. destruct (removable w0 n); cbn; lia.
    + rewrite Ht, Ht1. cbn [flat_map]. by rewrite app_assoc.
    + intros q. rewrite Hq, Hfs1. cbn [existsb].
      destruct (gone_with w0 n q); cbn; [| reflexivity].
      by destruct (existsb _ rest).
Qed.

(** C7. The start-up purge visits every entry of the expired directory:
    every plain name that the directory holds.  An entry that is a file or
    a directory and whose deletion is not refused is gone afterwards, a
    directory with all below it.  A refused
    deletion is logged with its error, the entry stays, and the loop goes
    on with the next entry.  The result counts the deletions that worked,
    and the last log line tells that count. *)
Theorem cleanup_delete_daily_purges (w : World) :
  let names := listdir DELETE_DAILY_DIR w in
  let r := cleanup_delete_daily w in
  (∀ n, n ∈ names ↔ n ≠ "" ∧ has_sep n = false ∧ is_Some (fs w !! entry_path n)) ∧
  r.1 = length (List.filter (removable w) names) ∧
  trace r.2 =
    (trace w ++ flat_map (purge_events w) names ++
       [ELog ("delete_daily cleanup removed " ++ pretty r.1 ++ " items")])%list ∧
  ∀ n, n ∈ names →
    (removable w n = true →
       fs r.2 !! entry_path n = None ∧
       (isdir (entry_path n) w = true →
          ∀ q, under (entry_path n) q = true → fs r.2 !! q = None)) ∧
    (∀ e, isfile (entry_path n) w || isdir (entry_path n) w = true →
          rm_fault w (entry_path n) = Some e →
          ELog ("Cleanup error for " ++ entry_path n ++ ": " ++ e) ∈ trace r.2 ∧
          fs r.2 !! entry_path n = fs w !! entry_path n).
Proof.
  cbn zeta. unfold cleanup_delete_daily.
  destruct (cleanup_loop_spec w (listdir DELETE_DAILY_DIR w) 0 w
              (NoDup_listdir _ _) (λ n, listdir_no_sep _ n w) eq_refl
              (λ _ _, eq_refl)) as (Hc & Ht & Hq).
  destruct (cleanup_loop (listdir DELETE_DAILY_DIR w) 0 w) as [removed w1].
  cbn [fst snd] in *.
  split. { intros n. apply listdir_delete_daily. }
  split; [exact Hc |].
  split. { rewrite log_trace, Ht, <- app_assoc. reflexivity. }
  intros n Hn.
  assert (Hsib : ∀ n', n' ∈ listdir DELETE_DAILY_DIR w → n' ≠ n →
                   gone_with w n' (entry_path n) = false).
  { intros n' Hn' Hne. apply gone_with_sibling; eauto using listdir_no_sep. }
  split.
  - intros Hrem.
    assert (Hgone : ∀ q, gone_with w n q = true → fs (log
              ("delete_daily cleanup removed " ++ pretty removed ++ " items") w1) !! q
              = None).
    { intros q Hg. rewrite (proj1 (log_frame _ _)), Hq.
      assert (existsb (λ n0, gone_with w n0 q) (listdir DELETE_DAILY_DIR w) = true)
        as -> ; [| reflexivity].
      apply existsb_exists. exists n. split; [by apply list_elem_of_In | exact Hg]. }
    split.
    + apply Hgone. unfold gone_with. rewrite Hrem. cbn.
      destruct (isfile (entry_path n) w); [apply String.eqb_refl |].
      unfold under. by rewrite String.eqb_refl.
    + intros Hd q Hu. apply Hgone. unfold gone_with. rewrite Hrem. cbn.
      assert (isfile (entry_path n) w = false) as ->; [| exact Hu].
      unfold isfile, isdir in *. apply bool_decide_eq_true in Hd.
      apply bool_decide_eq_false. congruence.
  - intros e Hkind He. split.
    + rewrite log_trace, Ht. apply elem_of_app. left. apply elem_of_app. right.
      apply list_elem_of_In, in_flat_map. exists n.
      split; [by apply list_elem_of_In |].
      unfold purge_events. rewrite Hkind, He. right. left. reflexivity.
    + rewrite (proj1 (log_frame _ _)), Hq.
      assert (existsb (λ n0, gone_with w n0 (entry_path n))
                (listdir DELETE_DAILY_DIR w) = false) as ->; [| reflexivity].
      apply not_true_is_false. intros (n' & Hn' & Hg)%existsb_exists.
      apply list_elem_of_In in Hn'.
      destruct (decide (n' = n)) as [-> | Hne].
      * unfold gone_with, removable in Hg. rewrite He in Hg.
        rewrite bool_decide_eq_false_2 in Hg by discriminate.
        by rewrite andb_false_r in Hg.
      * by rewrite (Hsib n' Hn' Hne) in Hg.
Qed.

Lemma cleanup_delete_daily_purges_witness :
  let r := cleanup_delete_daily expired_world in
  ("clips" ∈ listdir DELETE_DAILY_DIR expired_world ∧
   removable expired_world "clips" = true ∧
   isdir (entry_path "clips") expired_world = true) ∧
  ("locked.mp4" ∈ listdir DELETE_DAILY_DIR expired_world ∧
   isfile (entry_path "locked.mp4") expired_world
     || isdir (entry_path "locked.mp4") expired_world = true ∧
   rm_fault expired_world (entry_path "locked.mp4")
     = Some "[WinError 32] file in use") ∧
  r.1 = 2%nat ∧
  fs r.2 !! path_join (entry_path "clips") "a.mp4" = None ∧
  fs r.2 !! entry_path "locked.mp4" = Some KFile ∧
  last (trace r.2) = Some (ELog "delete_daily cleanup removed 2 items").
Proof.
  intros r.
  assert (listdir DELETE_DAILY_DIR expired_world
          = ["old.mp4"; "clips"; "locked.mp4"; "dangling"]) as Hls
    by (vm_compute; reflexivity).
  assert ("clips" ∈ listdir DELETE_DAILY_DIR expired_world) as H1
    by (rewrite Hls; apply list_elem_of_In; right; left; reflexivity).
  assert ("locked.mp4" ∈ listdir DELETE_DAILY_DIR expired_world) as H2
    by (rewrite Hls; apply list_elem_of_In; right; right; left; reflexivity).
  assert (removable expired_world "clips" = true) as H3
    by (vm_compute; reflexivity).
  assert (isdir (entry_path "clips") expired_world = true) as H4
    by (vm_compute; reflexivity).
  assert (isfile (entry_path "locked.mp4") expired_world
          || isdir (entry_path "locked.mp4") expired_world = true) as H5
    by (vm_compute; reflexivity).
  assert (rm_fault expired_world (entry_path "locked.mp4")
          = Some "[WinError 32] file in use") as H6
    by (vm_compute; reflexivity).
  split; [exact (conj H1 (conj H3 H4)) |].
  split; [exact (conj H2 (conj H5 H6)) |].
  destruct (cleanup_delete_daily_purges expired_world) as (_ & _ & _ & Hall).
  split; [vm_compute; reflexivity |].
  assert (under (entry_path "clips") (path_join (entry_path "clips") "a.mp4") = true)
    as H7 by (vm_compute; reflexivity).
  split; [exact (proj2 (proj1 (Hall "clips" H1) H3) H4 _ H7) |].
  split; [| vm_compute; reflexivity].
  etransitivity; [exact (proj2 (proj2 (Hall "locked.mp4" H2) _ H5 H6)) |].
  vm_compute. reflexivity.
Defined.

(** ** Device detection and start-up *)

Lemma detect_devices_once_spec (w : World) (out : string) :
  ffmpeg_list_devices w = Some out →
  let parsed := parse_dshow_devices out in
  detect_devices_once w
  = Some (if bool_decide (parsed.1 = []) then [FALLBACK_VIDEO_DEVICE] else parsed.1,
          if bool_decide (parsed.2 = []) then [FALLBACK_AUDIO_DEVICE] else parsed.2).
Proof.
  intros H. cbn zeta. unfold detect_devices_once. rewrite H.
  cbn [mbind option_bind]. by destruct (parse_dshow_devices out) as [pv pa].
Qed.

Lemma detect_devices_once_nonempty (w : World) :
  is_Some (ffmpeg_list_devices w) →
  ∃ v vs a as_, detect_devices_once w = Some (v :: vs, a :: as_).
Proof.
  intros [out H]. rewrite (detect_devices_once_spec w out H).
  destruct (parse_dshow_devices out) as [[|v vs] [|a as_]]; cbn; eauto.
Qed.

Lemma query_answers_Some (w : World) :
  query_answers w = true ↔ is_Some (ffmpeg_list_devices w).
Proof.
  unfold query_answers, ffmpeg_list_devices.
  destruct (dshow w); split; (eauto || by intros [? [=]] || done).
Qed.

Lemma or_first_cons (x v : string) (vs : list string) :
  ∃ y, or_first x (v :: vs) = Some y ∧ (x = "" → y = v) ∧ (x ≠ "" → y = x).
Proof.
  unfold or_first. destruct x as [|c x]; cbn.
  - exists v. done.
  - exists (String c x). done.
Qed.

Lemma chosen_singleton (x : string) (c : choice) : chosen [x] x c = x.
Proof. destruct c as [|[|i]]; reflexivity. Qed.

Lemma open_preview_devices (st : App) (w : World) :
  video_device (open_preview st w).1 = video_device st ∧
  audio_device (open_preview st w).1 = audio_device st.
Proof. unfold open_preview. destruct st; cbn. by destruct cap0. Qed.

(** The first-run dialog gives back a session whose devices are taken from
    the lists or kept, whatever the operator does. *)
Lemma open_device_dialog_first_run (answer : option (choice * choice))
    (vids auds : list string) (st : App) (w : World) :
  vids ≠ [] → auds ≠ [] →
  ∃ st' w',
    open_device_dialog answer true (Some vids) (Some auds) st w = Some (st', w') ∧
    (vids = [video_device st] → video_device st' = video_device st) ∧
    (auds = [audio_device st] → audio_device st' = audio_device st).
Proof.
  intros Hv Ha. unfold open_device_dialog. cbn [mbind option_bind].
  destruct vids as [|v vs]; [done |]. destruct auds as [|a as_]; [done |].
  destruct answer as [[cv ca]|].
  - destruct (save_config _ w) as [ok w1].
    match goal with |- context [open_preview ?a ?b] =>
      set (stx := a); set (wx := b) end.
    destruct (open_preview_devices stx wx) as [Hpv Hpa].
    destruct (open_preview stx wx) as [st' w']. cbn [fst snd] in *.
    exists st', w'. split; [reflexivity |].
    rewrite Hpv, Hpa. subst stx. destruct st; cbn.
    split; intros [= -> ->]; by rewrite chosen_singleton.
  - destruct (or_first_cons (video_device st) v vs) as (y & Hy & Hy1 & Hy2).
    rewrite Hy. cbn [mbind option_bind].
    destruct (or_first_cons (audio_device (set_video_device y st)) a as_)
      as (z & Hz & Hz1 & Hz2).
    rewrite Hz. cbn [mbind option_bind].
    destruct (save_config _ w) as [ok w1].
    eexists _, _. split; [reflexivity |].
    destruct st; cbn in *. split.
    + intros [= -> ->]. destruct video_device0; [by apply Hy1 | by apply Hy2].
    + intros [= -> ->]. destruct audio_device0; [by apply Hz1 | by apply Hz2].
Qed.

(** C8, as the code has it.  When the device query completes, or fails
    because the encoder is not found, detection returns two non-empty
    lists, each the one-element fallback list when the query found no
    device of that kind; a start-up with no stored selection and no device
    found then uses the two fallback names, whatever the operator does in
    the first-run dialog.  Any other failure of the query is caught
    nowhere: detection raises, and start-up with it.  Start-up also raises
    when the configuration file holds a JSON value that is not an
    object. *)
Theorem detection_falls_back_or_raises (w : World) :
  (∀ out, ffmpeg_list_devices w = Some out →
     let parsed := parse_dshow_devices out in
     ∃ d, detect_devices_once w = Some d ∧
          d.1 ≠ [] ∧ d.2 ≠ [] ∧
          (parsed.1 = [] → d.1 = [FALLBACK_VIDEO_DEVICE]) ∧
          (parsed.2 = [] → d.2 = [FALLBACK_AUDIO_DEVICE]) ∧
          (parsed.1 ≠ [] → d.1 = parsed.1) ∧ (parsed.2 ≠ [] → d.2 = parsed.2) ∧
          (∀ answer, load_config w = JObject ∅ → parsed = ([], []) →
             ∃ st w', __init__ answer w = Some (st, w') ∧
                      video_device st = FALLBACK_VIDEO_DEVICE ∧
                      audio_device st = FALLBACK_AUDIO_DEVICE)) ∧
  (dshow w = FileNotFound ∨ dshow w = Completed "" →
     detect_devices_once w = Some ([FALLBACK_VIDEO_DEVICE], [FALLBACK_AUDIO_DEVICE])) ∧
  (∀ e, dshow w = Raised e →
     detect_devices_once w = None ∧ ∀ answer, __init__ answer w = None) ∧
  (load_config w = JOther → ∀ answer, __init__ answer w = None).
Proof.
  split; [| split; [| split]].
  - intros out Hout. cbn zeta.
    pose proof (detect_devices_once_spec w out Hout) as Hd. cbn zeta in Hd.
    eexists. split; [exact Hd |]. cbn [fst snd].
    split. { clear Hd. by destruct (parse_dshow_devices out) as [[|? ?] ?]. }
    split. { clear Hd. by destruct (parse_dshow_devices out) as [? [|? ?]]. }
    split. { intros H. by rewrite bool_decide_eq_true_2. }
    split. { intros H. by rewrite bool_decide_eq_true_2. }
    split. { intros H. by rewrite bool_decide_eq_false_2. }
    split. { intros H. by rewrite bool_decide_eq_false_2. }
    intros answer Hcfg Hparsed. unfold __init__. rewrite Hcfg, Hd, Hparsed.
    cbn [fst snd]. rewrite !bool_decide_eq_true_2 by done.
    cbn [mbind option_bind get_method lookup list_lookup].
    rewrite !lookup_empty. cbn [default from_option id].
    destruct (cleanup_delete_daily w) as [n w1].
    rewrite bool_decide_eq_true_2 by (by left).
    edestruct (open_device_dialog_first_run answer
                 [FALLBACK_VIDEO_DEVICE] [FALLBACK_AUDIO_DEVICE])
      as (st' & w' & -> & Hsv & Hsa); [done | done |].
    cbn [mbind option_bind].
    destruct (open_preview_devices st'
                (log ("Using devices -> " ++ devices_text st') w')) as [Hpv Hpa].
    destruct (open_preview st' _) as [st2 w2]. cbn [fst snd] in *.
    exists st2, w2. split; [reflexivity |].
    rewrite Hpv, Hpa. split; [exact (Hsv eq_refl) | exact (Hsa eq_refl)].
  - intros H. unfold detect_devices_once, ffmpeg_list_devices.
    destruct H as [-> | ->]; reflexivity.
  - intros e He.
    assert (detect_devices_once w = None) as Hd
      by (unfold detect_devices_once, ffmpeg_list_devices; by rewrite He).
    split; [exact Hd |]. intros answer. unfold __init__. by rewrite Hd.
  - intros Hcfg answer. unfold __init__. rewrite Hcfg.
    destruct (detect_devices_once w) as [[vids auds]|]; reflexivity.
Qed.

Lemma detection_falls_back_or_raises_witness :
  let w := fresh_world (λ _, obedient) in
  (ffmpeg_list_devices w = Some "" ∧ load_config w = JObject ∅ ∧
   parse_dshow_devices "" = ([], [])) ∧
  detect_devices_once w = Some ([FALLBACK_VIDEO_DEVICE], [FALLBACK_AUDIO_DEVICE]) ∧
  ∃ st w', __init__ (Some (Pick 0, Keep)) w = Some (st, w') ∧
           video_device st = FALLBACK_VIDEO_DEVICE ∧
           audio_device st = FALLBACK_AUDIO_DEVICE.
Proof.
  intros w.
  assert (ffmpeg_list_devices w = Some "") as H0 by reflexivity.
  assert (load_config w = JObject ∅) as H1 by reflexivity.
  assert (parse_dshow_devices "" = ([], [])) as H2 by (vm_compute; reflexivity).
  split; [exact (conj H0 (conj H1 H2)) |].
  destruct (proj1 (detection_falls_back_or_raises w) "" H0)
    as (d & Hd & _ & _ & _ & _ & _ & _ & Hinit).
  split; [apply (proj1 (proj2 (detection_falls_back_or_raises w))); by left |].
  exact (Hinit (Some (Pick 0, Keep)) H1 H2).
Defined.

(** C8 as stated fails on a query that fails otherwise than by a missing
    encoder: when [subprocess.run] raises [PermissionError], detection
    returns no fallback list but raises, and start-up raises with it, also
    with a stored selection.  Start-up raises as well when [config.json]
    holds the JSON value [[]]. *)
Lemma query_error_stops_startup :
  let w := with_query access_denied (fresh_world (λ _, obedient)) in
  let chosen_before : gmap string string :=
    {[ "video_device" := "USB Capture HDMI"; "audio_device" := "Line In" ]} in
  detect_devices_once w = None ∧
  __init__ None w = None ∧
  __init__ None (set_config_file (Stored (JObject chosen_before)) w) = None ∧
  __init__ None (set_config_file (Stored JOther) (fresh_world (λ _, obedient)))
    = None.
Proof. vm_compute. repeat split. Qed.

(** ** The worker always returns *)

Lemma ui_pump_frame (st : App) (w : World) :
  now (ui_pump st w).2 = now w ∧
  record_start_time (ui_pump st w).1 = record_start_time st.
Proof.
  unfold ui_pump, stop_recording.
  destruct (stop_at w) as [t|]; [| done].
  destruct (t <=? now w); [| done].
  destruct (recording st); cbn [negb]; [| by destruct w].
  assert (record_start_time (set_recording false st) = record_start_time st)
    as Hst by (by destruct st).
  assert (record_proc (set_recording false st) = record_proc st)
    as -> by (by destruct st).
  assert (now (log "User stopped recording" (set_stop_at None w)) = now w)
    as Hnow by (by destruct w).
  destruct (record_proc st) as [h|]; [| done].
  destruct (poll_is_None _ _); [| done].
  cbn [fst snd]. split; [| exact Hst].
  by rewrite (proj2 (proj2 (proj2 (terminate_frame _ _)))).
Qed.

(** The poll budget is enough: the loop is left, by its condition or by
    the bound, before the fuel runs out. *)
Lemma wait_loop_terminates (fuel : nat) :
  ∀ (st : App) (w : World),
    MAX_RECORD_SECONDS * 1000 - elapsed st w < 100 * Z.of_nat fuel →
    is_Some (wait_loop (S fuel) st w).
Proof.
  induction fuel as [|fuel IH]; intros st w Hfuel;
    cbn [wait_loop];
    (destruct (recording st && poll_is_None (record_proc st) w); [| by eauto]);
    (destruct (bound_reached (default 0 (record_start_time st)) (now w)) eqn:Hb;
       [by eauto |]).
  - rewrite bound_reached_after in Hb by (unfold elapsed in Hfuel; lia).
    discriminate.
  - destruct (ui_pump_frame st (sleep 100 w)) as [Hn Hs].
    destruct (ui_pump st (sleep 100 w)) as [st1 w1]. cbn [fst snd] in *.
    apply IH. unfold elapsed in *. rewrite Hn, Hs.
    rewrite (proj1 (sleep_spec 100 w)). lia.
Qed.

Lemma worker_launch_started (st : App) (w : World) (st1 : App) (w1 : World) :
  worker_launch st w = (st1, w1, true) → elapsed st1 w1 = 0.
Proof.
  unfold worker_launch.
  match goal with |- context [Popen ?c ?v] => destruct (Popen c v) as [[e|h] w2] end.
  - destruct (open_preview _ _). intros [=].
  - intros [= <- <-]. unfold elapsed. destruct st; cbn. lia.
Qed.

(** [_record_worker] returns, whatever the environment does. *)
Lemma _record_worker_total (st : App) (w : World) : is_Some (_record_worker st w).
Proof.
  unfold _record_worker.
  destruct (worker_launch st w) as [[st1 w1] [|]] eqn:Hl; [| eauto].
  apply worker_launch_started in Hl.
  change poll_budget with (S 601).
  destruct (wait_loop_terminates 601 st1 w1) as [[st2 w2] ->]; [| eauto].
  rewrite Hl. unfold MAX_RECORD_SECONDS. lia.
Qed.

(** * Further properties of the recording worker *)

Section QuietPolls.

(** A recording in progress, as in [FullCourse]. *)
Variables (h : nat) (p : Proc) (st : App).
Hypothesis Hrec : recording st = true.
Hypothesis Hproc : record_proc st = Some h.

(** [k] polls during which nothing happens: the encoder runs, the bound is
    not reached, no click on Stop becomes due.  The loop is then where it
    was, [k] sleeps later. *)
Lemma wait_loop_quiet :
  ∀ (k f : nat) (w : World),
    procs w !! h = Some p →
    (∀ i, (i < k)%nat → running_at p (now w + 100 * Z.of_nat i) = true) →
    elapsed st w + 100 * Z.of_nat k ≤ MAX_RECORD_SECONDS * 1000 →
    (∀ t, stop_at w = Some t → now w + 100 * Z.of_nat k < t) →
    ∃ wk,
      wait_loop (k + f) st w = wait_loop f st wk ∧
      now wk = now w + 100 * Z.of_nat k ∧
      trace wk = (trace w ++ replicate k (ESleep 100))%list ∧
      procs wk = procs w ∧ stop_at wk = stop_at w ∧
      fs wk = fs w ∧ timers wk = timers w.
Proof.
  induction k as [|k IH]; intros f w Hp Hrun Hel Hstop.
  - exists w. rewrite app_nil_r. repeat split; lia.
  - cbn [Nat.add wait_loop]. rewrite Hrec, Hproc. unfold poll_is_None.
    rewrite Hp. specialize (Hrun 0%nat ltac:(lia)) as Hrun0.
    rewrite Z.mul_0_r, Z.add_0_r in Hrun0. rewrite Hrun0. cbn [andb].
    rewrite bound_reached_before by (unfold elapsed in Hel; lia).
    destruct (sleep_spec 100 w) as (Hn & Ht & Hpr & Hsa & Hf & Htm).
    assert (ui_pump st (sleep 100 w) = (st, sleep 100 w)) as ->.
    { unfold ui_pump. rewrite Hsa. destruct (stop_at w) as [t|] eqn:Hs; [| done].
      specialize (Hstop t eq_refl).
      destruct (Z.leb_spec t (now (sleep 100 w))); [lia | done]. }
    destruct (IH f (sleep 100 w)) as (wk & Hw & Hn1 & Ht1 & Hp1 & Hs1 & Hf1 & Htm1).
    + by rewrite Hpr.
    + intros i Hi. rewrite Hn.
      replace (now w + 100 + 100 * Z.of_nat i) with (now w + 100 * Z.of_nat (S i))
        by lia.
      apply Hrun. lia.
    + unfold elapsed in *. lia.
    + intros t Hs. rewrite Hsa in Hs. specialize (Hstop t Hs). lia.
    + exists wk. split; [exact Hw |]. split; [lia |].
      split; [rewrite Ht1, Ht, <- app_assoc; reflexivity |].
      repeat split; congruence.
Qed.

End QuietPolls.

(** The loop is left at a poll: a whole number of sleeps after it was
    entered, 601 at most. *)
Lemma wait_loop_polls (fuel : nat) :
  ∀ (i : nat) (st : App) (w : World),
    elapsed st w = 100 * Z.of_nat i → (i ≤ 601)%nat → (601 < i + fuel)%nat →
    ∃ st' w' j,
      wait_loop fuel st w = Some (st', w') ∧ (i ≤ j ≤ 601)%nat ∧
      elapsed st' w' = 100 * Z.of_nat j ∧
      record_start_time st' = record_start_time st.
Proof.
  induction fuel as [|fuel IH]; intros i st w Hel Hi Hfuel; [lia |].
  cbn [wait_loop].
  destruct (recording st && poll_is_None (record_proc st) w).
  - destruct (bound_reached (default 0 (record_start_time st)) (now w)) eqn:Hb.
    + exists st, w, i. repeat split; lia.
    + assert (i ≤ 600)%nat as Hlt.
      { destruct (decide (i ≤ 600)%nat) as [|Hgt]; [done |].
        rewrite bound_reached_after in Hb; [discriminate |].
        unfold elapsed in Hel. unfold MAX_RECORD_SECONDS. lia. }
      destruct (ui_pump_frame st (sleep 100 w)) as [Hn Hs].
      destruct (ui_pump st (sleep 100 w)) as [st1 w1]. cbn [fst snd] in *.
      destruct (IH (S i) st1 w1) as (st' & w' & j & Hw & Hj & He & Hr).
      * unfold elapsed in *. rewrite Hn, Hs, (proj1 (sleep_spec 100 w)). lia.
      * lia.
      * lia.
      * exists st', w', j. split; [exact Hw |]. split; [lia |].
        split; [exact He | congruence].
  - exists st, w, i. repeat split; lia.
Qed.

Lemma reap_now (st : App) (w : World) :
  now (reap st w) ≤ Z.max (now w) (now w + 2000) ∧
  (∀ h, record_proc st = Some h → poll_is_None (Some h) w = false → reap st w = w).
Proof.
  split.
  - unfold reap. destruct (record_proc st) as [h|]; [| lia].
    destruct (poll_is_None (Some h) w); [| lia].
    unfold wait.
    set (w1 := emit (EWait h 2000) (terminate h w)).
    assert (now w1 = now w) as Hn.
    { subst w1. pose proof (proj2 (proj2 (proj2 (terminate_frame h w)))) as H.
      by destruct (terminate h w). }
    destruct (procs w1 !! h) as [q|]; [| lia].
    destruct (running_at q (now w1)); [| lia].
    destruct (exit_time q) as [e|]; destruct w1; cbn in *; lia.
  - intros h Hp Hn. unfold reap. by rewrite Hp, Hn.
Qed.

Lemma worker_finish_now (st : App) (w : World) :
  now (worker_finish st w).2 ≤ now (reap st w) + 370.
Proof.
  unfold worker_finish. destruct (reap st w) as
    [fs0 now0 tr0 tm0 nj0 pr0 cf0 mc0 po0 sa0 mvf rmf ff ds cg].
  unfold open_preview, start_post_timeout, cancel_post_timeout, after.
  destruct st as [cfg vd ad sb tb pb ab rb sv cp pr rp rc rs cfile pj pl]; cbn.
  destruct cp; cbn;
    match goal with |- context [has_current_file ?a ?b] =>
      destruct (has_current_file a b) end;
    cbn; try destruct pj; cbn; lia.
Qed.

Lemma worker_launch_now (st : App) (w : World) :
  let r := worker_launch st w in
  (r.2 = true → now r.1.2 = now w + 120 ∧ record_start_time r.1.1 = Some (now r.1.2)) ∧
  (r.2 = false → now r.1.2 = now w + 240).
Proof.
  cbn zeta. unfold worker_launch, Popen, open_preview, close_preview.
  destruct w as [fs0 now0 tr0 tm0 nj0 pr0 cf0 mc0 po0 sa0 mvf rmf ff ds cg].
  destruct st as [cfg vd ad sb tb pb ab rb sv cp pr rp rc rs cfile pj pl]. cbn.
  destruct (launch_error (ff po0)); cbn; [split; [discriminate | intros _; lia] |].
  destruct (writes_output (ff po0)); cbn; (split; [done | discriminate]).
Qed.

(** X1. The worker thread always comes back, and soon: whatever the
    encoder and the operator do, [_record_worker] returns after at most
    62.59 s of sleeping and waiting (0.12 s to release the camera, at most
    601 polls of 0.1 s, 2 s of grace, 0.25 s and 0.12 s to take the camera
    back). *)
Theorem record_worker_returns_in_time (st : App) (w : World) :
  ∃ st' w', _record_worker st w = Some (st', w') ∧
            now w' ≤ now w + 62590.
Proof.
  unfold _record_worker.
  pose proof (worker_launch_now st w) as Hl. cbn zeta in Hl.
  destruct (worker_launch st w) as [[st1 w1] [|]]; cbn [fst snd] in Hl.
  - destruct (proj1 Hl eq_refl) as [Hn Hs].
    destruct (wait_loop_polls poll_budget 0 st1 w1) as (st2 & w2 & j & -> & Hj & He & Hr).
    { unfold elapsed. rewrite Hs. cbn. lia. }
    { lia. }
    { unfold poll_budget. lia. }
    pose proof (worker_finish_now st2 w2) as Hf.
    pose proof (proj1 (reap_now st2 w2)) as Hrp.
    destruct (worker_finish st2 w2) as [st3 w3]. cbn [fst snd] in *.
    exists st3, w3. split; [reflexivity |].
    unfold elapsed in He. rewrite Hr, Hs in He. cbn in He. lia.
  - exists st1, w1. split; [reflexivity |]. rewrite (proj2 Hl eq_refl). lia.
Qed.

Lemma log_frame2 (m : string) (w : World) :
  procs (log m w) = procs w ∧ stop_at (log m w) = stop_at w.
Proof. by destruct w. Qed.

Lemma terminate_trace (h : nat) (w : World) :
  trace (terminate h w) = (trace w ++ [ETerminate h])%list ∧
  stop_at (terminate h w) = stop_at w.
Proof.
  unfold terminate.
  destruct w as [fs0 now0 tr0 tm0 nj0 pr0 cf0 mc0 po0 sa0 mvf rmf ff ds cg].
  cbn [emit set_trace trace procs now].
  destruct (pr0 !! h) as [q|]; [| done].
  by destruct (_ && _).
Qed.

Lemma stop_recording_spec (st : App) (w : World) (h : nat) (p : Proc) :
  recording st = true → record_proc st = Some h → procs w !! h = Some p →
  ∃ w', stop_recording st w = (set_recording false st, w') ∧
        trace w' = (trace w ++ ELog "User stopped recording"
                      :: (if running_at p (now w) then [ETerminate h] else []))%list ∧
        now w' = now w ∧ stop_at w' = stop_at w ∧ fs w' = fs w ∧
        timers w' = timers w.
Proof.
  intros Hrec Hproc Hp. unfold stop_recording. rewrite Hrec. cbn [negb].
  assert (record_proc (set_recording false st) = Some h) as ->
    by (by destruct st).
  set (w1 := log "User stopped recording" w).
  destruct (log_frame2 "User stopped recording" w) as [Hpr Hsa].
  destruct (log_frame "User stopped recording" w) as (Hfs & Htm & Hn).
  pose proof (log_trace "User stopped recording" w) as Htr.
  fold w1 in Hpr, Hsa, Hfs, Htm, Hn, Htr.
  unfold poll_is_None. rewrite Hpr, Hp, Hn.
  destruct (running_at p (now w)).
  - exists (terminate h w1). split; [reflexivity |].
    destruct (terminate_frame h w1) as (-> & -> & _ & ->).
    destruct (terminate_trace h w1) as (-> & ->).
    rewrite Htr, <- app_assoc. done.
  - exists w1. split; [reflexivity |]. rewrite Htr. done.
Qed.



(** X3. An encoder that ends by itself ends the recording at the next
    poll: the loop is left at the first poll at or after the exit, and the
    worker then neither asks the process to terminate nor waits for it. *)
Theorem encoder_exit_ends_recording
    (st : App) (w : World) (h : nat) (p : Proc) (k : nat) (e : Z) :
  recording st = true → record_proc st = Some h →
  record_start_time st = Some (now w) →
  procs w !! h = Some p →
  exit_time p = Some e →
  now w + 100 * (Z.of_nat k - 1) < e ≤ now w + 100 * Z.of_nat k →
  (k ≤ 600)%nat →
  (∀ t, stop_at w = Some t → now w + 100 * Z.of_nat k < t) →
  ∃ w',
    wait_loop poll_budget st w = Some (st, w') ∧
    now w' = now w + 100 * Z.of_nat k ∧
    trace w' = (trace w ++ replicate k (ESleep 100))%list ∧
    reap st w' = w'.
Proof.
  intros Hrec Hproc Hstart Hp He Hk Hk600 Hstop.
  destruct (wait_loop_quiet h p st Hrec Hproc k (S (601 - k)) w Hp)
    as (wk & Hw & Hn & Htr & Hpr & Hsa & _).
  { intros i Hi. unfold running_at. rewrite He. apply Z.ltb_lt. lia. }
  { unfold elapsed, MAX_RECORD_SECONDS. rewrite Hstart. cbn. lia. }
  { exact Hstop. }
  replace poll_budget with (k + S (601 - k))%nat by (unfold poll_budget; lia).
  rewrite Hw. cbn [wait_loop]. rewrite Hrec, Hproc.
  assert (poll_is_None (Some h) wk = false) as Hdead.
  { unfold poll_is_None, running_at. rewrite Hpr, Hp, He. apply Z.ltb_ge. lia. }
  rewrite Hdead. cbn [andb].
  exists wk. split; [reflexivity |]. split; [exact Hn |]. split; [exact Htr |].
  exact (proj2 (reap_now st wk) h Hproc Hdead).
Qed.

Lemma encoder_exit_ends_recording_witness :
  let r := worker_launch (awaiting_app 0) (fresh_world (λ _, brief)) in
  let st := r.1.1 in
  let w := r.1.2 in
  (recording st = true ∧ record_proc st = Some 0%nat ∧ now w = 5120 ∧
   procs w !! 0%nat
     = Some {| p_started := 5120; p_launch := brief; p_term_at := None |}) ∧
  ∃ w', wait_loop poll_budget st w = Some (st, w') ∧ now w' = 6120 ∧
        reap st w' = w'.
Proof.
  intros r st w.
  assert (recording st = true) as H1 by (vm_compute; reflexivity).
  assert (record_proc st = Some 0%nat) as H2 by (vm_compute; reflexivity).
  assert (record_start_time st = Some (now w)) as H3 by (vm_compute; reflexivity).
  assert (procs w !! 0%nat
          = Some {| p_started := 5120; p_launch := brief; p_term_at := None |})
    as H4 by (vm_compute; reflexivity).
  assert (now w = 5120) as H5 by (vm_compute; reflexivity).
  assert (stop_at w = None) as H6 by (vm_compute; reflexivity).
  split; [exact (conj H1 (conj H2 (conj H5 H4))) |].
  destruct (encoder_exit_ends_recording st w 0%nat
              {| p_started := 5120; p_launch := brief; p_term_at := None |}
              10 6120 H1 H2 H3 H4 eq_refl)
    as (w' & Hloop & Hnow & _ & Hreap).
  - rewrite H5. lia.
  - lia.
  - rewrite H6. intros t [=].
  - exists w'. split; [exact Hloop |]. split; [rewrite Hnow, H5; lia | exact Hreap].
Defined.

(** The name of the file a worker started in the world [w] records to. *)
Lemma worker_launch_app (st : App) (w : World) :
  let outpath :=
    path_join INBOUND_DIR
      ("recording_" ++ pretty (Z.quot (now w + 120) 1000) ++ ".mp4") in
  let st0 := set_current_file (Some outpath) (close_preview st) in
  let r := worker_launch st w in
  match launch_error (ffmpeg w (popens w)) with
  | Some e =>
      r.2 = false ∧
      r.1.1 = set_preview_running true (set_cap true st0) ∧
      procs r.1.2 = procs w ∧ fs r.1.2 = fs w ∧ timers r.1.2 = timers w ∧
      let cmd := encoder_cmd (video_device st) (audio_device st) outpath in
      trace r.1.2 =
        (trace w ++
           [ESleep 120; ELog ("Starting ffmpeg: " ++ String.concat " " cmd);
            EPopen cmd (Some e); ELog ("Recording failed: " ++ e);
            ESleep 120])%list
  | None =>
      r.2 = true ∧
      r.1.1 = set_status_var "Recording..."
                (set_stop_btn normal (set_start_btn disabled
                   (set_record_start_time (Some (now w + 120))
                      (set_recording true
                         (set_record_proc (Some (length (procs w))) st0)))))
  end.
Proof.
  cbn zeta. unfold worker_launch, Popen, open_preview, close_preview.
  destruct w as [fs0 now0 tr0 tm0 nj0 pr0 cf0 mc0 po0 sa0 mvf rmf ff ds cg].
  destruct st as [cfg vd ad sb tb pb ab rb sv cp pr rp rc rs cfile pj pl].
  cbn -[String.concat pretty path_join String.append encoder_cmd INBOUND_DIR].
  destruct (launch_error (ff po0));
    cbn -[String.concat pretty path_join String.append encoder_cmd INBOUND_DIR].
  - repeat split. rewrite <- !app_assoc. reflexivity.
  - destruct (writes_output (ff po0)); cbn; done.
Qed.

(** X5. When the encoder cannot be launched, the worker logs the error,
    takes the camera back and returns: no process is created, the file
    system and the timer queue are untouched, the recording flag and every
    button are as before.  The current file is nevertheless the new output
    path, whether or not something exists there. *)
Theorem launch_failure_returns_at_once (st : App) (w : World) (e : string) :
  launch_error (ffmpeg w (popens w)) = Some e →
  let outpath :=
    path_join INBOUND_DIR
      ("recording_" ++ pretty (Z.quot (now w + 120) 1000) ++ ".mp4") in
  let cmd := encoder_cmd (video_device st) (audio_device st) outpath in
  ∃ w',
    _record_worker st w
      = Some (set_preview_running true (set_cap true
                (set_current_file (Some outpath) (close_preview st))), w') ∧
    procs w' = procs w ∧ fs w' = fs w ∧ timers w' = timers w ∧
    trace w' =
      (trace w ++
         [ESleep 120; ELog ("Starting ffmpeg: " ++ String.concat " " cmd);
          EPopen cmd (Some e); ELog ("Recording failed: " ++ e); ESleep 120])%list.
Proof.
  intros He outpath cmd. unfold _record_worker.
  pose proof (worker_launch_app st w) as Hl. cbn zeta in Hl. rewrite He in Hl.
  destruct (worker_launch st w) as [[st1 w1] ok]. cbn [fst snd] in Hl.
  destruct Hl as (-> & -> & Hp & Hf & Ht & Htr).
  exists w1. done.
Qed.

Lemma launch_failure_returns_at_once_witness :
  let w := fresh_world (λ _, unlaunchable) in
  launch_error (ffmpeg w (popens w)) = Some "[WinError 2] ffmpeg not found" ∧
  ∃ w', _record_worker (awaiting_app 7) w
          = Some (set_current_file
                    (Some (path_join INBOUND_DIR "recording_5.mp4"))
                    (awaiting_app 7), w') ∧
        procs w' = [] ∧ fs w' = layout.
Proof.
  intros w. split; [reflexivity |].
  destruct (launch_failure_returns_at_once (awaiting_app 7) w
              "[WinError 2] ffmpeg not found" eq_refl)
    as (w' & Hr & Hp & Hf & _).
  exists w'. split; [| split; [exact Hp | exact Hf]].
  etransitivity; [exact Hr |]. f_equal.
Defined.

(** * Further properties of the disposition window *)

(** The two ways [safe_move] ends for a source that exists, with what it
    leaves in the world. *)
Lemma safe_move_cases (p dst_dir : string) (k : kind) (w : World) :
  p ≠ "" → fs w !! p = Some k →
  let dst := path_join dst_dir (basename p) in
  ((∃ i, (i < 6)%nat ∧ mv_fault w (mv_calls w + i)%nat = None) ∧
   ∃ w', safe_move (Some p) dst_dir w = (true, w') ∧
         fs w' = <[dst := k]> (delete p (fs (makedirs dst_dir w))) ∧
         timers w' = timers w ∧ next_job w' = next_job w ∧
         moves_done (trace w') = S (moves_done (trace w)))
  ∨
  ((∀ i, (i < 6)%nat → mv_fault w (mv_calls w + i)%nat ≠ None) ∧
   ∃ w', safe_move (Some p) dst_dir w = (false, w') ∧
         fs w' = fs (makedirs dst_dir w) ∧
         timers w' = timers w ∧ next_job w' = next_job w ∧
         moves_done (trace w') = moves_done (trace w)).
Proof.
  intros Hp Hk dst.
  rewrite (safe_move_spec p dst_dir k w Hp Hk). cbn zeta. fold dst.
  set (errs := leading_faults (mv_fault w) (mv_calls w) 6).
  pose proof (leading_faults_agree (mv_fault w) 6 (mv_calls w)) as Hagree.
  pose proof (leading_faults_stop (mv_fault w) 6 (mv_calls w)) as Hstop.
  fold errs in Hagree, Hstop.
  assert (Hframe : ∀ v,
            timers (after_failures p dst 0 errs v) = timers v ∧
            next_job (after_failures p dst 0 errs v) = next_job v)
    by (intros v; by destruct v).
  assert (Hmk : timers (makedirs dst_dir w) = timers w ∧
                next_job (makedirs dst_dir w) = next_job w).
  { unfold makedirs. destruct (fs w !! dst_dir); by destruct w. }
  destruct (Nat.ltb_spec (length errs) 6) as [Hlt | Hge].
  - left. split; [exists (length errs); by auto |].
    eexists. split; [reflexivity |].
    split; [by rewrite after_success_fs, after_failures_fs |].
    assert (∀ v, timers (after_success p dst k v) = timers v ∧
                 next_job (after_success p dst k v) = next_job v)
      as Hs by (intros v; by destruct v).
    rewrite (proj1 (Hs _)), (proj2 (Hs _)), (proj1 (Hframe _)), (proj2 (Hframe _)).
    split; [apply Hmk |]. split; [apply Hmk |].
    rewrite after_success_trace, after_failures_makedirs_trace.
    rewrite !moves_done_app, moves_done_failed_attempts. cbn. lia.
  - right. split.
    + intros i Hi.
      destruct (lookup_lt_is_Some_2 errs i ltac:(lia)) as [e He].
      rewrite (Hagree i e He). discriminate.
    + eexists. split; [reflexivity |].
      rewrite (proj1 (log_frame _ _)), after_failures_fs.
      split; [reflexivity |].
      assert (∀ m v, timers (log m v) = timers v ∧ next_job (log m v) = next_job v)
        as Hl by (intros m v; by destruct v).
      rewrite (proj1 (Hl _ _)), (proj2 (Hl _ _)), (proj1 (Hframe _)), (proj2 (Hframe _)).
      split; [apply Hmk |]. split; [apply Hmk |].
      rewrite log_trace, after_failures_makedirs_trace.
      rewrite !moves_done_app, moves_done_failed_attempts. cbn. lia.
Qed.

(** A tick that is not the last one: one second less, the next tick
    scheduled a second from now, nothing else. *)
Lemma tick_counts (st : App) (w : World) :
  1 < post_timeout_left st →
  let r := _post_timeout_tick st w in
  post_timeout_left r.1 = post_timeout_left st - 1 ∧
  status_var r.1 = awaiting_text (post_timeout_left st - 1) ∧
  post_timeout_job r.1 = Some (next_job w) ∧
  timers r.2 = <[next_job w := now w + 1000]> (timers w) ∧
  next_job r.2 = S (next_job w) ∧ now r.2 = now w ∧
  fs r.2 = fs w ∧ trace r.2 = trace w ∧
  current_file r.1 = current_file st ∧ recording r.1 = recording st ∧
  approve_btn r.1 = approve_btn st ∧ reject_btn r.1 = reject_btn st ∧
  play_btn r.1 = play_btn st ∧
  mv_calls r.2 = mv_calls w ∧ mv_fault r.2 = mv_fault w.
Proof.
  intros Hl. cbn zeta. unfold _post_timeout_tick, after.
  destruct st as [cfg vd ad sb tb pb ab rb sv cp pr rp rc rs cfile pj pl].
  destruct w as [fs0 now0 tr0 tm0 nj0 pr0 cf0 mc0 po0 sa0 mvf rmf ff ds cg].
  cbn in Hl |- *.
  destruct (Z.leb_spec (pl - 1) 0); [lia |]. cbn. done.
Qed.

Lemma countdown_steps (k : nat) :
  ∀ (st : App) (w : World) (j : nat) (due : Z),
    post_timeout_job st = Some j → timers w !! j = Some due →
    Z.of_nat k < post_timeout_left st →
    let r := Nat.iter k fire_pending (st, w) in
    post_timeout_left r.1 = post_timeout_left st - Z.of_nat k ∧
    (0 < k → status_var r.1 = awaiting_text (post_timeout_left st - Z.of_nat k))%nat ∧
    (∃ j' due', post_timeout_job r.1 = Some j' ∧ timers r.2 !! j' = Some due' ∧
                due + 1000 * Z.of_nat k ≤ due') ∧
    fs r.2 = fs w ∧ trace r.2 = trace w ∧ current_file r.1 = current_file st ∧
    mv_calls r.2 = mv_calls w ∧ mv_fault r.2 = mv_fault w.
Proof.
  induction k as [|k IH]; intros st w j due Hj Hdue Hk.
  - cbn. split; [lia |]. split; [lia |].
    split; [| done]. exists j, due. split; [done |]. split; [done |]. lia.
  - cbn [Nat.iter nat_rect]. cbn zeta in IH.
    destruct (IH st w j due Hj Hdue ltac:(lia))
      as (Hl & _ & (j' & due' & Hj' & Hd' & Hge) & Hfs & Htr & Hcf & Hmc & Hmf).
    change (nat_rect _ _ _ k) with (Nat.iter k fire_pending (st, w)).
    destruct (Nat.iter k fire_pending (st, w)) as [st1 w1]. cbn [fst snd] in *.
    unfold fire_pending, fire. cbn [fst snd]. rewrite Hj', Hd'.
    set (w2 := set_now _ _).
    assert (Hw2 : fs w2 = fs w1 ∧ trace w2 = trace w1 ∧
                  timers w2 = delete j' (timers w1) ∧ due' ≤ now w2 ∧
                  mv_calls w2 = mv_calls w1 ∧ mv_fault w2 = mv_fault w1)
      by (subst w2; destruct w1; cbn; repeat split; lia).
    destruct Hw2 as (Hf2 & Ht2 & Htm2 & Hn2 & Hmc2 & Hmf2).
    destruct (tick_counts st1 w2 ltac:(lia))
      as (Hl3 & Hs3 & Hj3 & Htm3 & _ & _ & Hf3 & Ht3 & Hc3 & _ & _ & _ & _
          & Hmc3 & Hmf3).
    destruct (_post_timeout_tick st1 w2) as [st3 w3]. cbn [fst snd] in *.
    split; [lia |].
    split. { intros _. rewrite Hs3. f_equal. lia. }
    split; [| by rewrite Hf3, Hf2, Ht3, Ht2, Hc3, Hmc3, Hmc2, Hmf3, Hmf2].
    exists (next_job w2), (now w2 + 1000).
    split; [exact Hj3 |]. rewrite Htm3. split; [apply lookup_insert_eq | lia].
Qed.

(** X6. The countdown counts: as long as fewer ticks have passed than
    seconds were left, each tick of the main loop takes one second off,
    shows the new value, and schedules the next tick, due a second later at
    the earliest; the file system, the log and the current file are not
    touched. *)
Theorem countdown_counts (k : nat) :
  ∀ (st : App) (w : World) (j : nat) (due : Z),
    post_timeout_job st = Some j → timers w !! j = Some due →
    Z.of_nat k < post_timeout_left st →
    let r := Nat.iter k fire_pending (st, w) in
    post_timeout_left r.1 = post_timeout_left st - Z.of_nat k ∧
    (0 < k → status_var r.1 = awaiting_text (post_timeout_left st - Z.of_nat k))%nat ∧
    (∃ j' due', post_timeout_job r.1 = Some j' ∧ timers r.2 !! j' = Some due' ∧
                due + 1000 * Z.of_nat k ≤ due') ∧
    fs r.2 = fs w ∧ trace r.2 = trace w ∧ current_file r.1 = current_file st.
Proof.
  intros st w j due Hj Hdue Hk.
  destruct (countdown_steps k st w j due Hj Hdue Hk)
    as (H1 & H2 & H3 & H4 & H5 & H6 & _).
  exact (conj H1 (conj H2 (conj H3 (conj H4 (conj H5 H6))))).
Qed.

Lemma countdown_counts_witness :
  let r := Nat.iter 12 fire_pending (awaiting_app 30, awaiting_world 0) in
  (post_timeout_job (awaiting_app 30) = Some 0%nat ∧
   timers (awaiting_world 0) !! 0%nat = Some 6000) ∧
  post_timeout_left r.1 = 18 ∧ fs r.2 = fs (awaiting_world 0) ∧
  status_var r.1 = awaiting_text 18.
Proof.
  intros r.
  assert (timers (awaiting_world 0) !! 0%nat = Some 6000) as H
    by (vm_compute; reflexivity).
  split; [exact (conj eq_refl H) |].
  destruct (countdown_counts 12 (awaiting_app 30) (awaiting_world 0) 0%nat 6000
              eq_refl H ltac:(cbn; lia)) as (Hl & Hs & _ & Hf & _).
  split; [exact Hl |]. split; [exact Hf |]. apply Hs. lia.
Defined.

Lemma cancel_post_timeout_app (st : App) (w : World) :
  let r := cancel_post_timeout st w in
  status_var r.1 = "Ready" ∧
  (post_timeout_job st ≠ None → post_timeout_left r.1 = 0) ∧
  (∀ j, post_timeout_job st = Some j → timers r.2 !! j = None) ∧
  approve_btn r.1 = approve_btn st ∧ reject_btn r.1 = reject_btn st ∧
  play_btn r.1 = play_btn st ∧ recording r.1 = recording st.
Proof.
  cbn zeta. unfold cancel_post_timeout, after_cancel.
  destruct st as [cfg vd ad sb tb pb ab rb sv cp pr rp rc rs cfile pj pl].
  destruct w as [fs0 now0 tr0 tm0 nj0 pr0 cf0 mc0 po0 sa0 mvf rmf ff ds cg].
  cbn. destruct pj as [j|]; cbn.
  - repeat split; try done. intros j' [= <-]. apply lookup_delete_eq.
  - repeat split; done.
Qed.

Lemma expiry_spec (st : App) (w : World) (p : string) (k : kind) :
  current_file st = Some p → p ≠ "" → fs w !! p = Some k →
  post_timeout_left st ≤ 1 →
  let r := _post_timeout_tick st w in
  let dst := path_join DELETE_DAILY_DIR (basename p) in
  current_file r.1 = None ∧
  approve_btn r.1 = disabled ∧ reject_btn r.1 = disabled ∧ play_btn r.1 = disabled ∧
  post_timeout_job r.1 = None ∧ status_var r.1 = "Ready" ∧
  (∀ j, post_timeout_job st = Some j → timers r.2 !! j = None) ∧
  (∃ pre, trace r.2 =
            (pre ++ [EDialog "Timed out"
                       ("No action taken — moved to " ++ DELETE_DAILY_DIR);
                     ELog ("Auto-moved to delete_daily: " ++ p)])%list) ∧
  ((∃ i, (i < 6)%nat ∧ mv_fault w (mv_calls w + i)%nat = None) →
     fs r.2 !! dst = Some k ∧ (p ≠ dst → fs r.2 !! p = None) ∧
     moves_done (trace r.2) = S (moves_done (trace w))) ∧
  ((∀ i, (i < 6)%nat → mv_fault w (mv_calls w + i)%nat ≠ None) →
     fs r.2 !! p = Some k ∧ moves_done (trace r.2) = moves_done (trace w)).
Proof.
  intros Hcf Hp Hk Hleft. cbn zeta. unfold _post_timeout_tick.
  set (st1 := set_status_var _ _).
  assert ((post_timeout_left st1 <=? 0) = true) as ->.
  { apply Z.leb_le. subst st1. destruct st. cbn in *. lia. }
  assert (Hst1 : current_file st1 = Some p ∧ post_timeout_job st1 = post_timeout_job st)
    by (subst st1; by destruct st).
  destruct Hst1 as [Hcf1 Hj1].
  assert (has_current_file st1 w = true) as ->.
  { unfold has_current_file. rewrite Hcf1, truthy_Some by done. cbn.
    apply path_exists_true. eauto. }
  rewrite Hcf1. cbn [str_opt default from_option id].
  set (st2 := set_decision_btns disabled (set_current_file None st1)).
  assert (Hst2 : current_file st2 = None ∧ approve_btn st2 = disabled ∧
                 reject_btn st2 = disabled ∧ play_btn st2 = disabled ∧
                 post_timeout_job st2 = post_timeout_job st)
    by (subst st2 st1; by destruct st).
  destruct Hst2 as (Hc2 & Ha2 & Hr2 & Hp2 & Hj2).
  pose proof (safe_move_cases p DELETE_DAILY_DIR k w Hp Hk) as Hcases.
  cbn zeta in Hcases.
  destruct (safe_move (Some p) DELETE_DAILY_DIR w) as [ok w1].
  set (w3 := log _ (showinfo _ _ w1)).
  assert (Hw3 : fs w3 = fs w1 ∧
                trace w3 = (trace w1 ++
                  [EDialog "Timed out"
                     ("No action taken — moved to " ++ DELETE_DAILY_DIR);
                   ELog ("Auto-moved to delete_daily: " ++ p)])%list).
  { subst w3. destruct w1. cbn. by rewrite <- app_assoc. }
  destruct Hw3 as [Hf3 Ht3].
  destruct (cancel_post_timeout_spec st2 w3) as (Hjn & _ & _ & _ & Hfc & Htc & Hcc).
  destruct (cancel_post_timeout_app st2 w3) as (Hs & _ & Htm & Hab & Hrb & Hpb & _).
  destruct (cancel_post_timeout st2 w3) as [st4 w4]. cbn [fst snd] in *.
  split; [congruence |]. split; [congruence |]. split; [congruence |].
  split; [congruence |]. split; [exact Hjn |]. split; [exact Hs |].
  split. { intros j Hj. apply Htm. congruence. }
  split. { exists (trace w1). by rewrite Htc, Ht3. }
  assert (Hmd : moves_done (trace w4) = moves_done (trace w1)).
  { rewrite Htc, Ht3, moves_done_app. cbn. lia. }
  split.
  - intros [i [Hi Hnone]].
    destruct Hcases as [(_ & w' & Heq & Hfs & _ & _ & Hm)
                       | (Hall & _)]; [| by destruct (Hall i Hi)].
    injection Heq as -> ->.
    rewrite Hfc, Hf3, Hfs, Hmd.
    split; [apply lookup_insert_eq |]. split; [| exact Hm].
    intros Hne. rewrite lookup_insert_ne by done. apply lookup_delete_eq.
  - intros Hall.
    destruct Hcases as [([i [Hi Hnone]] & _)
                       | (_ & w' & Heq & Hfs & _ & _ & Hm)];
      [by destruct (Hall i Hi) |].
    injection Heq as -> ->.
    rewrite Hfc, Hf3, Hfs, Hmd. split; [by apply makedirs_lookup | exact Hm].
Qed.

(** X7. The last tick of the countdown.  When the seconds run out and the
    current file exists, [safe_move] is called once towards the expired
    directory and its result is not looked at: the notice [Timed out] is
    shown and [Auto-moved to delete_daily] is logged, the session forgets
    the file, disables the decision buttons, has no tick pending and reads
    [Ready].  If one of the six attempts works the file is in the expired
    directory; if none does it stays in the staging directory, with nothing
    in the session pointing at it. *)
Theorem expiry_forgets_artifact (st : App) (w : World) (p : string) (k : kind) :
  current_file st = Some p → p ≠ "" → fs w !! p = Some k →
  post_timeout_left st ≤ 1 →
  let r := _post_timeout_tick st w in
  let dst := path_join DELETE_DAILY_DIR (basename p) in
  current_file r.1 = None ∧
  approve_btn r.1 = disabled ∧ reject_btn r.1 = disabled ∧ play_btn r.1 = disabled ∧
  post_timeout_job r.1 = None ∧ status_var r.1 = "Ready" ∧
  (∀ j, post_timeout_job st = Some j → timers r.2 !! j = None) ∧
  (∃ pre, trace r.2 =
            (pre ++ [EDialog "Timed out"
                       ("No action taken — moved to " ++ DELETE_DAILY_DIR);
                     ELog ("Auto-moved to delete_daily: " ++ p)])%list) ∧
  ((∃ i, (i < 6)%nat ∧ mv_fault w (mv_calls w + i)%nat = None) →
     fs r.2 !! dst = Some k ∧ (p ≠ dst → fs r.2 !! p = None) ∧
     moves_done (trace r.2) = S (moves_done (trace w))) ∧
  ((∀ i, (i < 6)%nat → mv_fault w (mv_calls w + i)%nat ≠ None) →
     fs r.2 !! p = Some k ∧ moves_done (trace r.2) = moves_done (trace w)).
Proof. exact (expiry_spec st w p k). Qed.

Lemma expiry_forgets_artifact_witness :
  let r := _post_timeout_tick (awaiting_app 1) (awaiting_world 6) in
  (current_file (awaiting_app 1) = Some staged ∧
   fs (awaiting_world 6) !! staged = Some KFile) ∧
  current_file r.1 = None ∧ play_btn r.1 = disabled ∧
  fs r.2 !! staged = Some KFile.
Proof.
  intros r.
  assert (fs (awaiting_world 6) !! staged = Some KFile) as H
    by (vm_compute; reflexivity).
  assert (staged ≠ "") as Hne by (vm_compute; discriminate).
  split; [exact (conj eq_refl H) |].
  destruct (expiry_forgets_artifact (awaiting_app 1) (awaiting_world 6) staged KFile
              eq_refl Hne H ltac:(cbn; lia))
    as (Hc & _ & _ & Hp & _ & _ & _ & _ & _ & Hfail).
  split; [exact Hc |]. split; [exact Hp |].
  apply Hfail. intros i Hi. cbn. unfold locked_for.
  destruct (Nat.ltb_spec i 6); [discriminate | lia].
Defined.

(** X8. A decision that goes through.  When approve or reject finds the
    current file and one of the six attempts of the move works, the file is
    in the directory of the decision and no longer at its old path, exactly
    one relocation has happened, a notice names the directory, and the
    session leaves the disposition window: no current file, decision
    buttons disabled, the countdown tick cancelled, status [Ready]. *)
Theorem resolve_relocates (d : decision) (st : App) (w : World)
    (p : string) (k : kind) :
  current_file st = Some p → p ≠ "" → fs w !! p = Some k →
  (∃ i, (i < 6)%nat ∧ mv_fault w (mv_calls w + i)%nat = None) →
  let r := resolve d st w in
  let dst := path_join (dest d) (basename p) in
  fs r.2 !! dst = Some k ∧ (p ≠ dst → fs r.2 !! p = None) ∧
  moves_done (trace r.2) = S (moves_done (trace w)) ∧
  last (trace r.2) = Some (EDialog (notice d) ("Moved to " ++ dest d)) ∧
  current_file r.1 = None ∧
  approve_btn r.1 = disabled ∧ reject_btn r.1 = disabled ∧ play_btn r.1 = disabled ∧
  post_timeout_job r.1 = None ∧ status_var r.1 = "Ready" ∧
  (∀ j, post_timeout_job st = Some j → timers r.2 !! j = None) ∧
  (recording st = false → phase_of r.1 = Idle).
Proof.
  intros Hcf Hp Hk [i [Hi Hnone]]. cbn zeta. rewrite resolve_unfold.
  assert (has_current_file st w = true) as ->.
  { unfold has_current_file. rewrite Hcf, truthy_Some by done. cbn.
    apply path_exists_true. eauto. }
  rewrite Hcf.
  destruct (safe_move_cases p (dest d) k w Hp Hk)
    as [(_ & w1 & -> & Hfs & _ & _ & Hm) | (Hall & _)];
    [| by destruct (Hall i Hi)].
  set (st2 := set_decision_btns disabled (set_current_file None st)).
  assert (Hst2 : current_file st2 = None ∧ approve_btn st2 = disabled ∧
                 reject_btn st2 = disabled ∧ play_btn st2 = disabled ∧
                 post_timeout_job st2 = post_timeout_job st ∧
                 recording st2 = recording st)
    by (subst st2; by destruct st).
  destruct Hst2 as (Hc2 & Ha2 & Hr2 & Hp2 & Hj2 & Hrec2).
  destruct (showinfo_frame (notice d) ("Moved to " ++ dest d) w1) as (Ht3 & Hf3 & _).
  set (w3 := showinfo _ _ w1) in *.
  destruct (cancel_post_timeout_spec st2 w3) as (Hjn & _ & _ & _ & Hfc & Htc & Hcc).
  destruct (cancel_post_timeout_app st2 w3) as (Hs & _ & Htm & Hab & Hrb & Hpb & Hrc).
  destruct (cancel_post_timeout st2 w3) as [st4 w4]. cbn [fst snd] in *.
  rewrite Hfc, Hf3, Hfs, Htc, Ht3.
  split; [apply lookup_insert_eq |].
  split. { intros Hne. rewrite lookup_insert_ne by done. apply lookup_delete_eq. }
  split. { rewrite moves_done_app. cbn. lia. }
  split; [apply last_snoc |].
  split; [congruence |]. split; [congruence |]. split; [congruence |].
  split; [congruence |]. split; [exact Hjn |]. split; [exact Hs |].
  split. { intros j Hj. apply Htm. congruence. }
  intros Hrec. unfold phase_of. rewrite Hrc, Hrec2, Hrec, Hjn. reflexivity.
Qed.

Lemma resolve_relocates_witness :
  let r := resolve Rejected (awaiting_app 9) (awaiting_world 3) in
  (current_file (awaiting_app 9) = Some staged ∧
   fs (awaiting_world 3) !! staged = Some KFile ∧
   mv_fault (awaiting_world 3) 3%nat = None) ∧
  fs r.2 !! path_join DELETE_DAILY_DIR "recording_7.mp4" = Some KFile ∧
  fs r.2 !! staged = None ∧ phase_of r.1 = Idle.
Proof.
  intros r.
  assert (fs (awaiting_world 3) !! staged = Some KFile) as H
    by (vm_compute; reflexivity).
  assert (staged ≠ "") as Hne by (vm_compute; discriminate).
  split; [exact (conj eq_refl (conj H eq_refl)) |].
  destruct (resolve_relocates Rejected (awaiting_app 9) (awaiting_world 3) staged KFile
              eq_refl Hne H ltac:(exists 3%nat; split; [lia | reflexivity]))
    as (Hd & Hs & _ & _ & _ & _ & _ & _ & _ & _ & _ & Hph).
  split; [exact Hd |]. split; [| exact (Hph eq_refl)].
  apply Hs. vm_compute. discriminate.
Defined.

(** * The timer queue *)

Lemma safe_move_timers (src : option string) (d : string) (w : World) :
  timers (safe_move src d w).2 = timers w.
Proof.
  destruct src as [p|]; [| reflexivity].
  destruct (truthy (Some p)) eqn:Ht; [| unfold safe_move, safe_move_with; by rewrite Ht].
  destruct (path_exists p w) eqn:He;
    [| unfold safe_move, safe_move_with; by rewrite Ht, He].
  apply path_exists_true in He as [k Hk].
  assert (p ≠ "") as Hp by (intros ->; discriminate).
  destruct (safe_move_cases p d k w Hp Hk)
    as [(_ & w' & -> & _ & H & _) | (_ & w' & -> & _ & H & _)]; exact H.
Qed.

Lemma stop_recording_job (st : App) (w : World) :
  timers (stop_recording st w).2 = timers w ∧
  post_timeout_job (stop_recording st w).1 = post_timeout_job st.
Proof.
  unfold stop_recording. destruct (recording st); cbn [negb]; [| done].
  assert (post_timeout_job (set_recording false st) = post_timeout_job st) as Hj
    by (by destruct st).
  destruct (log_frame "User stopped recording" w) as (_ & Htm & _).
  destruct (record_proc (set_recording false st)) as [h|]; [| done].
  destruct (poll_is_None _ _); cbn [fst snd]; [| done].
  by rewrite (proj1 (proj2 (terminate_frame _ _))).
Qed.

Lemma ui_pump_job (st : App) (w : World) :
  timers (ui_pump st w).2 = timers w ∧
  post_timeout_job (ui_pump st w).1 = post_timeout_job st.
Proof.
  unfold ui_pump. destruct (stop_at w) as [t|]; [| done].
  destruct (t <=? now w); [| done].
  destruct (stop_recording_job st (set_stop_at None w)) as [-> ->].
  by destruct w.
Qed.

Lemma wait_loop_job (fuel : nat) :
  ∀ (st : App) (w : World) (st' : App) (w' : World),
    wait_loop fuel st w = Some (st', w') →
    timers w' = timers w ∧ post_timeout_job st' = post_timeout_job st.
Proof.
  induction fuel as [|fuel IH]; intros st w st' w'; cbn [wait_loop]; [done |].
  destruct (recording st && poll_is_None (record_proc st) w);
    [| by intros [= <- <-]].
  destruct (bound_reached (default 0 (record_start_time st)) (now w));
    [by intros [= <- <-] |].
  destruct (ui_pump_job st (sleep 100 w)) as [Ht Hj].
  destruct (ui_pump st (sleep 100 w)) as [st1 w1]. cbn [fst snd] in *.
  intros [-> ->]%IH. rewrite Ht, Hj. split; [by destruct w | done].
Qed.

Lemma worker_launch_job (st : App) (w : World) :
  timers (worker_launch st w).1.2 = timers w ∧
  post_timeout_job (worker_launch st w).1.1 = post_timeout_job st.
Proof.
  unfold worker_launch, Popen, open_preview, close_preview.
  destruct w as [fs0 now0 tr0 tm0 nj0 pr0 cf0 mc0 po0 sa0 mvf rmf ff ds cg].
  destruct st as [cfg vd ad sb tb pb ab rb sv cp pr rp rc rs cfile pj pl].
  cbn -[String.concat pretty path_join String.append INBOUND_DIR].
  destruct (launch_error (ff po0));
    cbn -[String.concat pretty path_join String.append INBOUND_DIR]; [done |].
  destruct (writes_output (ff po0)); cbn; done.
Qed.

Lemma start_post_timeout_tidy (st : App) (w : World) :
  tidy st w → tidy (start_post_timeout st w).1 (start_post_timeout st w).2.
Proof.
  intros Ht.
  destruct (start_post_timeout_spec st w) as (_ & Hj & Htm & _).
  intros j. rewrite Hj, Htm. split.
  - intros Hs. destruct (decide (j = next_job w)) as [-> | Hne]; [done |].
    rewrite lookup_insert_ne in Hs by done. exfalso.
    destruct (post_timeout_job st) as [j0|] eqn:Hj0; cbn in Hs.
    + destruct (decide (j = j0)) as [-> | Hne0].
      * rewrite lookup_delete_eq in Hs. by destruct Hs.
      * rewrite lookup_delete_ne in Hs by done. apply Ht in Hs. congruence.
    + apply Ht in Hs. congruence.
  - intros [= <-]. rewrite lookup_insert_eq. eauto.
Qed.

Lemma cancel_post_timeout_tidy (st : App) (w : World) :
  tidy st w → tidy (cancel_post_timeout st w).1 (cancel_post_timeout st w).2.
Proof.
  intros Ht.
  destruct (cancel_post_timeout_spec st w) as (Hj & Htm & _).
  intros j. rewrite Hj, Htm. split; [| done]. intros Hs. exfalso.
  destruct (post_timeout_job st) as [j0|] eqn:Hj0; cbn in Hs.
  - destruct (decide (j = j0)) as [-> | Hne0].
    + rewrite lookup_delete_eq in Hs. by destruct Hs.
    + rewrite lookup_delete_ne in Hs by done. apply Ht in Hs. congruence.
  - apply Ht in Hs. congruence.
Qed.

Lemma tidy_ext (st st' : App) (w w' : World) :
  timers w' = timers w → post_timeout_job st' = post_timeout_job st →
  tidy st w → tidy st' w'.
Proof. unfold tidy. by intros -> ->. Qed.

Lemma resolve_tidy (d : decision) (st : App) (w : World) :
  tidy st w → tidy (resolve d st w).1 (resolve d st w).2.
Proof.
  intros Ht. rewrite resolve_unfold.
  destruct (has_current_file st w); [| exact Ht].
  pose proof (safe_move_timers (current_file st) (dest d) w) as Hm.
  destruct (safe_move (current_file st) (dest d) w) as [[|] w1]; cbn [snd] in Hm.
  - apply cancel_post_timeout_tidy.
    apply (tidy_ext st _ w); [| by destruct st | exact Ht].
    by rewrite (proj2 (proj2 (showinfo_frame _ _ _))).
  - by apply (tidy_ext st _ w).
Qed.

Lemma cancel_post_timeout_clears (st : App) (w : World) :
  (∀ j, timers w !! j = None) →
  tidy (cancel_post_timeout st w).1 (cancel_post_timeout st w).2.
Proof.
  intros Hnone.
  destruct (cancel_post_timeout_spec st w) as (Hj & Htm & _).
  intros j. rewrite Hj, Htm. split; [| done]. intros Hs. exfalso.
  destruct (post_timeout_job st) as [j0|]; cbn in Hs.
  - destruct (decide (j = j0)) as [-> | Hne0].
    + rewrite lookup_delete_eq in Hs. by destruct Hs.
    + rewrite lookup_delete_ne, Hnone in Hs by done. by destruct Hs.
  - rewrite Hnone in Hs. by destruct Hs.
Qed.

Lemma tick_tidy (st : App) (w : World) :
  (∀ j, timers w !! j = None) →
  tidy (_post_timeout_tick st w).1 (_post_timeout_tick st w).2.
Proof.
  intros Hnone. unfold _post_timeout_tick.
  set (st1 := set_status_var _ _).
  destruct (post_timeout_left st1 <=? 0).
  - destruct (has_current_file st1 w); [| by apply cancel_post_timeout_clears].
    pose proof (safe_move_timers (current_file st1) DELETE_DAILY_DIR w) as Hm.
    destruct (safe_move (current_file st1) DELETE_DAILY_DIR w) as [ok w1].
    cbn [snd] in Hm. apply cancel_post_timeout_clears. intros j.
    by rewrite (proj1 (proj2 (log_frame _ _))),
      (proj2 (proj2 (showinfo_frame _ _ _))), Hm.
  - unfold after. intros j. cbn [fst snd].
    assert (post_timeout_job (set_post_timeout_job (Some (next_job w)) st1)
            = Some (next_job w)) as -> by (by destruct st1).
    assert (timers (set_next_job (S (next_job w))
                      (set_timers (<[next_job w := now w + 1000]> (timers w)) w))
            = <[next_job w := now w + 1000]> (timers w)) as -> by (by destruct w).
    split.
    + intros Hs. destruct (decide (j = next_job w)) as [-> | Hne]; [done |].
      rewrite lookup_insert_ne, Hnone in Hs by done. by destruct Hs.
    + intros [= <-]. rewrite lookup_insert_eq. eauto.
Qed.

Lemma fire_tidy (j : nat) (s : App * World) :
  tidy s.1 s.2 → tidy (fire j s).1 (fire j s).2.
Proof.
  intros Ht. unfold fire.
  destruct (timers s.2 !! j) as [due|] eqn:Hdue; [| exact Ht].
  assert (post_timeout_job s.1 = Some j) as Hj by (apply Ht; eauto).
  apply tick_tidy. intros j'.
  assert (timers (set_now (Z.max (now s.2) due)
                    (set_timers (delete j (timers s.2)) s.2))
          = delete j (timers s.2)) as -> by (by destruct s.2).
  destruct (decide (j' = j)) as [-> | Hne]; [apply lookup_delete_eq |].
  rewrite lookup_delete_ne by done.
  destruct (timers s.2 !! j') eqn:Hl; [| done].
  assert (post_timeout_job s.1 = Some j') by (apply Ht; eauto). congruence.
Qed.

Lemma sleep_timers (ms : Z) (w : World) : timers (sleep ms w) = timers w.
Proof. by destruct w. Qed.

Lemma worker_finish_tidy (st : App) (w : World) :
  tidy st w → tidy (worker_finish st w).1 (worker_finish st w).2.
Proof.
  intros Ht. unfold worker_finish.
  match goal with |- context [open_preview ?a _] => set (sta := a) end.
  match goal with |- context [open_preview sta ?b] => set (wa := b) end.
  assert (tidy (open_preview sta wa).1 (open_preview sta wa).2) as Hop.
  { apply (tidy_ext st _ w); [| | exact Ht].
    - unfold open_preview. destruct (cap sta); cbn [snd];
        [| rewrite sleep_timers]; subst wa;
        rewrite sleep_timers, (proj1 (proj2 (log_frame _ _)));
        apply reap_frame.
    - unfold open_preview. subst sta. destruct (cap _); by destruct st. }
  destruct (open_preview sta wa) as [st2 w2]. cbn [fst snd] in Hop.
  destruct (has_current_file st2 w2); [| exact Hop].
  apply start_post_timeout_tidy.
  apply (tidy_ext st2 _ w2); [done | by destruct st2 | exact Hop].
Qed.

Lemma record_worker_tidy (st st' : App) (w w' : World) :
  _record_worker st w = Some (st', w') → tidy st w → tidy st' w'.
Proof.
  unfold _record_worker. intros Hr Ht.
  destruct (worker_launch_job st w) as [Htm Hj].
  destruct (worker_launch st w) as [[st1 w1] [|]]; cbn [fst snd] in *.
  - destruct (wait_loop poll_budget st1 w1) as [[st2 w2]|] eqn:Hw; [| done].
    apply wait_loop_job in Hw as [Htm2 Hj2].
    injection Hr as Hr. 
    assert (tidy st2 w2) as Ht2
      by (apply (tidy_ext st _ w); [congruence | congruence | exact Ht]).
    apply worker_finish_tidy in Ht2. by rewrite Hr in Ht2.
  - injection Hr as <- <-. by apply (tidy_ext st _ w).
Qed.

Lemma handle_tidy (e : ui_event) (s : App * World) :
  tidy s.1 s.2 → ∃ s', handle e s = Some s' ∧ tidy s'.1 s'.2.
Proof.
  intros Ht. destruct e; cbn [handle].
  - unfold click_start.
    assert (tidy (start_recording_thread s.1 s.2).1 (start_recording_thread s.1 s.2).2)
      as Hs.
    { unfold start_recording_thread. destruct (recording s.1); [exact Ht |].
      apply (tidy_ext s.1 _ s.2); [by destruct s.2 | done | exact Ht]. }
    destruct (start_recording_thread s.1 s.2) as [st1 w1]. cbn [fst snd] in Hs.
    destruct (recording s.1); [by exists (st1, w1) |].
    destruct (_record_worker_total st1 w1) as [[st2 w2] Hr].
    exists (st2, w2). split; [exact Hr |]. exact (record_worker_tidy _ _ _ _ Hr Hs).
  - eexists. split; [reflexivity |].
    destruct (stop_recording_job s.1 s.2) as [Htm Hj].
    by apply (tidy_ext s.1 _ s.2).
  - eexists. split; [reflexivity |]. exact (resolve_tidy Approved _ _ Ht).
  - eexists. split; [reflexivity |]. exact (resolve_tidy Rejected _ _ Ht).
  - eexists. split; [reflexivity |]. unfold reset_post_timeout.
    destruct (has_current_file s.1 s.2); [by apply start_post_timeout_tidy | exact Ht].
  - eexists. split; [reflexivity |]. by apply fire_tidy.
Qed.

Lemma handle_all_tidy (evs : list ui_event) :
  ∀ s, tidy s.1 s.2 → ∃ s', handle_all evs s = Some s' ∧ tidy s'.1 s'.2.
Proof.
  induction evs as [|e rest IH]; intros s Ht; cbn [handle_all]; [eauto |].
  destruct (handle_tidy e s Ht) as (s1 & -> & Ht1). cbn [mbind option_bind].
  exact (IH s1 Ht1).
Qed.

(** * Start-up and the device selection *)

Lemma cleanup_loop_frame (names : list string) :
  ∀ (c : nat) (w : World),
    timers (cleanup_loop names c w).2 = timers w ∧
    config_file (cleanup_loop names c w).2 = config_file w ∧
    cfg_fault (cleanup_loop names c w).2 = cfg_fault w ∧
    dshow (cleanup_loop names c w).2 = dshow w.
Proof.
  induction names as [|n rest IH]; intros c w; cbn [cleanup_loop]; [done |].
  assert (Hrm : ∀ p, let r := os_remove p w in
            timers r.2 = timers w ∧ config_file r.2 = config_file w ∧
            cfg_fault r.2 = cfg_fault w ∧ dshow r.2 = dshow w).
  { intros p. unfold os_remove. destruct (rm_fault w p); by destruct w. }
  assert (Hrt : ∀ p, let r := shutil_rmtree p w in
            timers r.2 = timers w ∧ config_file r.2 = config_file w ∧
            cfg_fault r.2 = cfg_fault w ∧ dshow r.2 = dshow w).
  { intros p. unfold shutil_rmtree. destruct (rm_fault w p); by destruct w. }
  assert (Hlog : ∀ m v, timers (log m v) = timers v ∧
            config_file (log m v) = config_file v ∧ cfg_fault (log m v) = cfg_fault v ∧
            dshow (log m v) = dshow v)
    by (intros m v; by destruct v).
  destruct (isfile _ w).
  - specialize (Hrm (path_join DELETE_DAILY_DIR n)). cbn zeta in Hrm.
    destruct (os_remove _ w) as [[e|] w1]; cbn [snd] in Hrm.
    + destruct (IH c (log ("Cleanup error for " ++ path_join DELETE_DAILY_DIR n
                             ++ ": " ++ e) w1)) as (-> & -> & -> & ->).
      destruct (Hlog ("Cleanup error for " ++ path_join DELETE_DAILY_DIR n
                        ++ ": " ++ e) w1) as (-> & -> & -> & ->).
      exact Hrm.
    + destruct (IH (S c) w1) as (-> & -> & -> & ->). exact Hrm.
  - destruct (isdir _ w); [| apply IH].
    specialize (Hrt (path_join DELETE_DAILY_DIR n)). cbn zeta in Hrt.
    destruct (shutil_rmtree _ w) as [[e|] w1]; cbn [snd] in Hrt.
    + destruct (IH c (log ("Cleanup error for " ++ path_join DELETE_DAILY_DIR n
                             ++ ": " ++ e) w1)) as (-> & -> & -> & ->).
      destruct (Hlog ("Cleanup error for " ++ path_join DELETE_DAILY_DIR n
                        ++ ": " ++ e) w1) as (-> & -> & -> & ->).
      exact Hrt.
    + destruct (IH (S c) w1) as (-> & -> & -> & ->). exact Hrt.
Qed.

Lemma cleanup_delete_daily_frame (w : World) :
  timers (cleanup_delete_daily w).2 = timers w ∧
  config_file (cleanup_delete_daily w).2 = config_file w ∧
  cfg_fault (cleanup_delete_daily w).2 = cfg_fault w ∧
  dshow (cleanup_delete_daily w).2 = dshow w.
Proof.
  unfold cleanup_delete_daily.
  pose proof (cleanup_loop_frame (listdir DELETE_DAILY_DIR w) 0 w) as H.
  destruct (cleanup_loop (listdir DELETE_DAILY_DIR w) 0 w) as [n w1].
  cbn [snd] in *. by destruct w1.
Qed.

(** What [open_device_dialog] leaves behind when it stores a selection:
    after an answer of the operator, or on the first run. *)
Lemma open_device_dialog_spec (answer : option (choice * choice)) (fr : bool)
    (vids auds : list string) (st : App) (w : World) :
  vids ≠ [] → auds ≠ [] → is_Some answer ∨ fr = true →
  ∃ st' w',
    open_device_dialog answer fr (Some vids) (Some auds) st w = Some (st', w') ∧
    config st' = <["audio_device" := audio_device st']>
                   (<["video_device" := video_device st']> (config st)) ∧
    config_file w' = saved (config st') w ∧
    (∀ f, cfg_fault w = Some f →
       ELog ("Failed to save config: " ++ fault_text f) ∈ trace w') ∧
    timers w' = timers w ∧ cfg_fault w' = cfg_fault w ∧ dshow w' = dshow w ∧
    fs w' = fs w ∧
    post_timeout_job st' = post_timeout_job st ∧ recording st' = recording st ∧
    current_file st' = current_file st ∧
    (∀ cv ca, answer = Some (cv, ca) →
       video_device st' = chosen vids (video_device st) cv ∧
       audio_device st' = chosen auds (audio_device st) ca ∧
       preview_running st' = true ∧ last (trace w') = Some (ESleep 120)).
Proof.
  intros Hv Ha Hor. unfold open_device_dialog. cbn [mbind option_bind].
  destruct vids as [|v vs]; [done |]. destruct auds as [|a as_]; [done |].
  destruct answer as [[cv ca]|].
  - unfold save_config, saved, open_preview, close_preview, remember_devices.
    destruct w as [fs0 now0 tr0 tm0 nj0 pr0 cf0 mc0 po0 sa0 mvf rmf ff ds cg].
    destruct st as [cfg vd ad sb tb pb ab rb sv cp pr rp rc rs cfile pj pl].
    cbn -[String.append]. destruct cg as [[e|e]|]; cbn -[String.append];
      (eexists _, _; split; [reflexivity |]); cbn -[String.append];
      repeat split; try done;
      try (intros f [= <-]; cbn [fault_text];
           rewrite !elem_of_app, !list_elem_of_singleton; auto);
      try (by simplify_eq); try apply last_snoc.
  - destruct Hor as [[? [=]] | ->].
    destruct (or_first_cons (video_device st) v vs) as (y & Hy & _).
    rewrite Hy. cbn [mbind option_bind].
    destruct (or_first_cons (audio_device (set_video_device y st)) a as_)
      as (z & Hz & _).
    rewrite Hz. cbn [mbind option_bind].
    unfold save_config, saved, remember_devices.
    destruct w as [fs0 now0 tr0 tm0 nj0 pr0 cf0 mc0 po0 sa0 mvf rmf ff ds cg].
    destruct st as [cfg vd ad sb tb pb ab rb sv cp pr rp rc rs cfile pj pl].
    cbn -[String.append]. destruct cg as [[e|e]|]; cbn -[String.append];
      (eexists _, _; split; [reflexivity |]); cbn -[String.append];
      repeat split; try done;
      try (intros f [= <-]; cbn [fault_text];
           rewrite !elem_of_app, !list_elem_of_singleton; auto);
      try (by simplify_eq).
Qed.

Lemma open_preview_frame (st : App) (w : World) :
  let r := open_preview st w in
  cap r.1 = true ∧ (cap st = false → preview_running r.1 = true) ∧
  config r.1 = config st ∧ video_device r.1 = video_device st ∧
  audio_device r.1 = audio_device st ∧
  post_timeout_job r.1 = post_timeout_job st ∧ recording r.1 = recording st ∧
  current_file r.1 = current_file st ∧
  timers r.2 = timers w ∧ config_file r.2 = config_file w ∧
  cfg_fault r.2 = cfg_fault w ∧ fs r.2 = fs w ∧
  trace r.2 = (trace w ++ (if cap st then [] else [ESleep 120]))%list ∧
  dshow r.2 = dshow w.
Proof.
  cbn zeta. unfold open_preview.
  destruct st as [cfg vd ad sb tb pb ab rb sv cp pr rp rc rs cfile pj pl].
  destruct w as [fs0 now0 tr0 tm0 nj0 pr0 cf0 mc0 po0 sa0 mvf rmf ff ds cg].
  destruct cp; cbn; rewrite ?app_nil_r; done.
Qed.

Lemma init_stored (w : World) (cfg : gmap string string) (v a : string) :
  query_answers w = true → config_file w = Stored (JObject cfg) →
  cfg !! "video_device" = Some v → cfg !! "audio_device" = Some a →
  ∃ st w',
    (∀ answer, __init__ answer w = Some (st, w')) ∧
    video_device st = v ∧ audio_device st = a ∧ config st = cfg ∧
    config_file w' = config_file w ∧ timers w' = timers w ∧
    post_timeout_job st = None ∧ recording st = false ∧ current_file st = None ∧
    cap st = true ∧
    ELog ("Using devices -> video: " ++ repr v ++ ", audio: " ++ repr a) ∈ trace w' ∧
    fs w' = fs (cleanup_delete_daily w).2.
Proof.
  intros Hq Hcf Hv Ha. unfold __init__, load_config. rewrite Hcf.
  destruct (detect_devices_once_nonempty w) as (v0 & vs & a0 & as_ & ->);
    [by apply query_answers_Some |].
  cbn [lookup list_lookup mbind option_bind get_method]. rewrite Hv, Ha.
  cbn [default from_option id].
  destruct (cleanup_delete_daily_frame w) as (Htm & Hcfw & _).
  destruct (cleanup_delete_daily w) as [n w1]. cbn [snd] in *.
  rewrite bool_decide_eq_false_2 by (by intros [|]).
  cbn [mbind option_bind].
  match goal with |- context [open_preview ?s ?x] =>
    pose proof (open_preview_frame s x) as Hop; cbn zeta in Hop;
    destruct (open_preview s x) as [st2 w2] end.
  cbn [fst snd cap config video_device audio_device post_timeout_job recording
       current_file] in Hop.
  destruct Hop as (Hc & _ & Hcfg & Hvd & Had & Hj & Hr & Hcur & Ht & Hcf2 & _ & Hfs2
                   & Htr & _).
  exists st2, w2. split; [done |].
  split; [done |]. split; [done |]. split; [done |].
  split. { rewrite Hcf2. transitivity (config_file w1); [by destruct w1 | congruence]. }
  split. { rewrite Ht. transitivity (timers w1); [by destruct w1 | done]. }
  split; [done |]. split; [done |]. split; [done |]. split; [done |].
  split; [rewrite Htr, log_trace, !elem_of_app, !list_elem_of_singleton; auto |].
  rewrite Hfs2. by destruct w1.
Qed.

Lemma init_first_run (answer : option (choice * choice)) (w : World)
    (cfg0 : gmap string string) :
  query_answers w = true → load_config w = JObject cfg0 →
  cfg0 !! "video_device" = None ∨ cfg0 !! "audio_device" = None →
  ∃ st w',
    __init__ answer w = Some (st, w') ∧
    config st = <["audio_device" := audio_device st]>
                  (<["video_device" := video_device st]> cfg0) ∧
    config_file w' = saved (config st) w ∧
    (∀ f, cfg_fault w = Some f →
       ELog ("Failed to save config: " ++ fault_text f) ∈ trace w') ∧
    timers w' = timers w ∧ cfg_fault w' = cfg_fault w ∧ dshow w' = dshow w ∧
    post_timeout_job st = None ∧ recording st = false ∧ current_file st = None ∧
    cap st = true ∧ fs w' = fs (cleanup_delete_daily w).2.
Proof.
  intros Hq Hload Hmiss. unfold __init__. rewrite Hload.
  destruct (detect_devices_once_nonempty w) as (v0 & vs & a0 & as_ & ->);
    [by apply query_answers_Some |].
  cbn [lookup list_lookup mbind option_bind get_method].
  destruct (cleanup_delete_daily_frame w) as (Htm & Hcfw & Hcg & Hds).
  destruct (cleanup_delete_daily w) as [n w1]. cbn [snd] in *.
  rewrite bool_decide_eq_true_2 by exact Hmiss.
  match goal with |- context [open_device_dialog _ _ _ _ ?s _] => set (st0 := s) end.
  destruct (open_device_dialog_spec answer true (v0 :: vs) (a0 :: as_) st0 w1)
    as (st1 & w2 & -> & Hcfg & Hcf & Hlog & Ht & Hg & Hd & Hfs1 & Hj & Hr & Hcur & _);
    [done | done | by right |].
  cbn [mbind option_bind].
  match goal with |- context [open_preview ?s ?x] =>
    pose proof (open_preview_frame s x) as Hop; cbn zeta in Hop;
    destruct (open_preview s x) as [st2 w3] end.
  cbn [fst snd] in Hop.
  destruct Hop as (Hc & _ & Hcfg2 & Hvd & Had & Hj2 & Hr2 & Hcur2 & Ht2 & Hcf2
                   & Hg2 & Hfs2 & Htr & Hd2).
  exists st2, w3. split; [done |].
  assert (Hl : ∀ m, timers (log m w2) = timers w2 ∧
                    config_file (log m w2) = config_file w2 ∧
                    cfg_fault (log m w2) = cfg_fault w2 ∧
                    dshow (log m w2) = dshow w2)
    by (intros m; by destruct w2).
  split. { rewrite Hcfg2, Hvd, Had. exact Hcfg. }
  split. { rewrite Hcf2, (proj1 (proj2 (Hl _))), Hcf, Hcfg2.
           unfold saved. by rewrite Hcg, Hcfw. }
  split. { intros f Hf. rewrite Htr, log_trace, !elem_of_app. left. left.
           apply Hlog. congruence. }
  split. { rewrite Ht2, (proj1 (Hl _)). congruence. }
  split. { rewrite Hg2, (proj1 (proj2 (proj2 (Hl _)))). congruence. }
  split. { rewrite Hd2, (proj2 (proj2 (proj2 (Hl _)))). congruence. }
  split; [by rewrite Hj2, Hj |]. split; [by rewrite Hr2, Hr |].
  split; [by rewrite Hcur2, Hcur |]. split; [exact Hc |].
  rewrite Hfs2, (proj1 (log_frame _ _)). exact Hfs1.
Qed.

(** The two ways through start-up. *)
Lemma starts_up_cases (w : World) :
  starts_up w = true →
  query_answers w = true ∧
  ∃ cfg0, load_config w = JObject cfg0 ∧
    ((cfg0 !! "video_device" = None ∨ cfg0 !! "audio_device" = None) ∨
     (∃ v a, config_file w = Stored (JObject cfg0) ∧
             cfg0 !! "video_device" = Some v ∧ cfg0 !! "audio_device" = Some a)).
Proof.
  unfold starts_up. intros [Hq Hl]%andb_true_iff. split; [exact Hq |].
  destruct (load_config w) as [cfg0|] eqn:Hload; [| discriminate].
  exists cfg0. split; [reflexivity |].
  destruct (cfg0 !! "video_device") as [v|] eqn:Hv; [| by left; left].
  destruct (cfg0 !! "audio_device") as [a|] eqn:Ha; [| by left; right].
  right. exists v, a. split; [| done].
  unfold load_config in Hload.
  destruct (config_file w) as [| |d];
    [injection Hload as <- | injection Hload as <- |];
    [by rewrite lookup_empty in Hv | by rewrite lookup_empty in Hv | by subst].
Qed.

Lemma init_tidy (answer : option (choice * choice)) (w : World) :
  timers w = ∅ → starts_up w = true →
  ∃ s, __init__ answer w = Some s ∧ tidy s.1 s.2.
Proof.
  intros Hempty Hup.
  assert (Hk : ∀ st w', timers w' = timers w → post_timeout_job st = None →
            tidy st w').
  { intros st w' Ht Hj j. rewrite Ht, Hempty, Hj, lookup_empty. split; [| done].
    by intros [? [=]]. }
  destruct (starts_up_cases w Hup)
    as (Hq & cfg0 & Hload & [Hmiss | (v & a & Hcf & Hv & Ha)]).
  - destruct (init_first_run answer w cfg0 Hq Hload Hmiss)
      as (st & w' & Hi & _ & _ & _ & Ht & _ & _ & Hj & _).
    exists (st, w'). split; [exact Hi | by apply Hk].
  - destruct (init_stored w cfg0 v a Hq Hcf Hv Ha)
      as (st & w' & Hi & _ & _ & _ & _ & Ht & Hj & _).
    exists (st, w'). split; [apply Hi | by apply Hk].
Qed.

(** X9. The countdown never runs twice.  From a start-up that gets as far
    as the window on, whatever the operator clicks or types and whichever
    pending job the main loop runs, the timer queue holds exactly the tick
    the application remembers, and nothing when it remembers none: at most
    one tick is pending, a restarted or finished countdown leaves no stale
    tick behind, and a remembered tick is never lost from the queue. *)
Theorem countdown_queue_tidy (answer : option (choice * choice)) (w : World)
    (evs : list ui_event) :
  timers w = ∅ → starts_up w = true →
  ∃ s s',
    __init__ answer w = Some s ∧ handle_all evs s = Some s' ∧
    tidy s'.1 s'.2 ∧
    (∀ j1 j2, is_Some (timers s'.2 !! j1) → is_Some (timers s'.2 !! j2) → j1 = j2).
Proof.
  intros Hempty Hup.
  destruct (init_tidy answer w Hempty Hup) as (s & Hi & Ht).
  destruct (handle_all_tidy evs s Ht) as (s' & Hh & Ht').
  exists s, s'. split; [exact Hi |]. split; [exact Hh |]. split; [exact Ht' |].
  intros j1 j2 H1%Ht' H2%Ht'. congruence.
Qed.

Lemma countdown_queue_tidy_witness :
  (timers (fresh_world (λ _, brief)) = ∅ ∧
   starts_up (fresh_world (λ _, brief)) = true) ∧
  ∃ s s',
    __init__ None (fresh_world (λ _, brief)) = Some s ∧
    handle_all [ClickStart; TickDue 1; KeyOrButton; ClickStart; TickDue 3;
                ClickReject] s
      = Some s' ∧
    tidy s'.1 s'.2.
Proof.
  split; [split; reflexivity |].
  destruct (countdown_queue_tidy None (fresh_world (λ _, brief))
              [ClickStart; TickDue 1; KeyOrButton; ClickStart; TickDue 3; ClickReject]
              eq_refl eq_refl) as (s & s' & Hi & Hh & Ht & _).
  exists s, s'. exact (conj Hi (conj Hh Ht)).
Defined.

(** X10. Start-up with a stored selection.  When the device query is one
    the source handles and the configuration file holds an object with
    both device names, start-up uses them as they are, whether or not
    detection still lists them, opens no dialog (the result does not depend
    on the operator), leaves the file as it is, logs the two names, when
    they are ASCII, as [repr] writes them, and ends with no recording,
    current file or countdown. *)
Theorem startup_uses_stored_selection (w : World) (cfg : gmap string string)
    (v a : string) :
  query_answers w = true → config_file w = Stored (JObject cfg) →
  cfg !! "video_device" = Some v → cfg !! "audio_device" = Some a →
  ∃ st w',
    (∀ answer, __init__ answer w = Some (st, w')) ∧
    video_device st = v ∧ audio_device st = a ∧ config st = cfg ∧
    config_file w' = Stored (JObject cfg) ∧
    (ascii_only v = true → ascii_only a = true →
     ELog ("Using devices -> video: " ++ repr v ++ ", audio: " ++ repr a)
       ∈ trace w') ∧
    phase_of st = Idle ∧ current_file st = None.
Proof.
  intros Hq Hcf Hv Ha.
  destruct (init_stored w cfg v a Hq Hcf Hv Ha)
    as (st & w' & Hi & Hvd & Had & Hcfg & Hcf' & _ & Hj & Hr & Hcur & Hc & Hlog & _).
  exists st, w'. repeat (split; [done || congruence |]).
  split; [| exact Hcur]. unfold phase_of. by rewrite Hr, Hj.
Qed.

Lemma startup_uses_stored_selection_witness :
  let cfg : gmap string string :=
    {[ "video_device" := "Anna's Webcam"; "audio_device" := "Line In" ]} in
  let w := set_config_file (Stored (JObject cfg)) (fresh_world (λ _, obedient)) in
  (query_answers w = true ∧ repr "Line In" = "'Line In'") ∧
  ∃ st w',
    __init__ (Some (Pick 0, Pick 0)) w = Some (st, w') ∧
    video_device st = "Anna's Webcam" ∧ audio_device st = "Line In" ∧
    ELog ("Using devices -> video: " ++ dq ++ "Anna's Webcam" ++ dq
            ++ ", audio: 'Line In'") ∈ trace w'.
Proof.
  intros cfg w. split; [split; [reflexivity | vm_compute; reflexivity] |].
  destruct (startup_uses_stored_selection w cfg "Anna's Webcam" "Line In"
              eq_refl eq_refl ltac:(vm_compute; reflexivity)
              ltac:(vm_compute; reflexivity))
    as (st & w' & Hi & Hv & Ha & _ & _ & Hlog & _).
  specialize (Hlog ltac:(vm_compute; reflexivity) ltac:(vm_compute; reflexivity)).
  exists st, w'. split; [exact (Hi _) |]. split; [exact Hv |]. split; [exact Ha |].
  assert ("Using devices -> video: " ++ repr "Anna's Webcam" ++ ", audio: "
            ++ repr "Line In"
          = "Using devices -> video: " ++ dq ++ "Anna's Webcam" ++ dq
              ++ ", audio: 'Line In'") as <- by (vm_compute; reflexivity).
  exact Hlog.
Defined.

(** X11. The first run is remembered when the file can be written.  When
    the device query is one the source handles and the configuration, an
    object or nothing readable, lacks a device name, start-up stores the
    selection it ends with (the operator's, or the fallback when the dialog
    is cancelled).  If the file can be written, the next start-up uses the
    same two devices and asks nothing.  If it cannot be opened, the failure
    is logged, start-up goes on with the selection, and the file is what
    it was.  If it is opened and the write fails, the failure is logged
    and what the file held is lost: the next start-up finds no
    selection. *)
Theorem first_run_is_remembered (answer : option (choice * choice)) (w : World)
    (cfg0 : gmap string string) :
  query_answers w = true → load_config w = JObject cfg0 →
  cfg0 !! "video_device" = None ∨ cfg0 !! "audio_device" = None →
  ∃ st w',
    __init__ answer w = Some (st, w') ∧
    (cfg_fault w = None →
       load_config w'
       = JObject (<["audio_device" := audio_device st]>
                    (<["video_device" := video_device st]> cfg0)) ∧
       ∃ st2 w2, ∀ answer2,
         __init__ answer2 w' = Some (st2, w2) ∧
         video_device st2 = video_device st ∧ audio_device st2 = audio_device st) ∧
    (∀ e, cfg_fault w = Some (OpenFails e) →
       config_file w' = config_file w ∧
       ELog ("Failed to save config: " ++ e) ∈ trace w') ∧
    (∀ e, cfg_fault w = Some (WriteFails e) →
       config_file w' = Garbled ∧ load_config w' = JObject ∅ ∧
       ELog ("Failed to save config: " ++ e) ∈ trace w').
Proof.
  intros Hq Hload Hmiss.
  destruct (init_first_run answer w cfg0 Hq Hload Hmiss)
    as (st & w' & Hi & Hcfg & Hcf & Hlog & _ & _ & Hds & _).
  exists st, w'. split; [exact Hi |]. unfold saved in Hcf. split; [| split].
  - intros Hok. rewrite Hok in Hcf.
    assert (config st !! "video_device" = Some (video_device st)) as Hv.
    { rewrite Hcfg, lookup_insert_ne by done. apply lookup_insert_eq. }
    assert (config st !! "audio_device" = Some (audio_device st)) as Ha.
    { rewrite Hcfg. apply lookup_insert_eq. }
    split; [unfold load_config; by rewrite Hcf, Hcfg |].
    assert (query_answers w' = true) as Hq'
      by (unfold query_answers in *; by rewrite Hds).
    destruct (init_stored w' (config st) _ _ Hq' Hcf Hv Ha)
      as (st2 & w2 & Hi2 & Hv2 & Ha2 & _).
    exists st2, w2. intros answer2. split; [apply Hi2 | done].
  - intros e He. rewrite He in Hcf. split; [exact Hcf |]. exact (Hlog _ He).
  - intros e He. rewrite He in Hcf. split; [exact Hcf |].
    split; [unfold load_config; by rewrite Hcf |]. exact (Hlog _ He).
Qed.

Lemma first_run_is_remembered_witness :
  let w := fresh_world (λ _, obedient) in
  (query_answers w = true ∧ load_config w = JObject ∅) ∧
  ∃ st w',
    __init__ None w = Some (st, w') ∧
    load_config w'
    = JObject (<["audio_device" := audio_device st]>
                 (<["video_device" := video_device st]> ∅)).
Proof.
  intros w. split; [split; reflexivity |].
  destruct (first_run_is_remembered None w ∅ eq_refl eq_refl
              (or_introl (lookup_empty _)))
    as (st & w' & Hi & Hok & _).
  exists st, w'. split; [exact Hi |]. exact (proj1 (Hok eq_refl)).
Defined.

Lemma open_device_dialog_detects (answer : option (choice * choice)) (fr : bool)
    (st : App) (w : World) (vids auds : list string) :
  detect_devices_once w = Some (vids, auds) →
  open_device_dialog answer fr None None st w
  = open_device_dialog answer fr (Some vids) (Some auds) st w.
Proof. intros H. unfold open_device_dialog. by rewrite H. Qed.

(** X12. Changing the devices with Ctrl-D, the device query being one the
    source handles.  A cancelled dialog leaves the two devices, the
    configuration of the session and the file as they are.  With an
    answer, each device becomes the value its box was opened with or an
    entry of the freshly detected list, the two names are put into the
    configuration of the session, and the preview is closed and opened
    again.  The selection is stored if the file can be written.  If it
    cannot be opened, the failure is logged and the file is what it was;
    if the write fails after the file was opened, the failure is logged
    and what the file held is lost.  The session keeps the selection in
    both cases. *)
Theorem device_change_applies (cv ca : choice) (st : App) (w : World) :
  query_answers w = true →
  (∃ st0 w0,
     open_device_dialog None false None None st w = Some (st0, w0) ∧
     video_device st0 = video_device st ∧ audio_device st0 = audio_device st ∧
     config st0 = config st ∧ config_file w0 = config_file w) ∧
  ∃ vids auds st' w',
    detect_devices_once w = Some (vids, auds) ∧
    open_device_dialog (Some (cv, ca)) false None None st w = Some (st', w') ∧
    video_device st' = chosen vids (video_device st) cv ∧
    audio_device st' = chosen auds (audio_device st) ca ∧
    (video_device st' = video_device st ∨ video_device st' ∈ vids) ∧
    (audio_device st' = audio_device st ∨ audio_device st' ∈ auds) ∧
    config st' = <["audio_device" := audio_device st']>
                   (<["video_device" := video_device st']> (config st)) ∧
    preview_running st' = true ∧
    (cfg_fault w = None → config_file w' = Stored (JObject (config st'))) ∧
    (∀ e, cfg_fault w = Some (OpenFails e) →
       config_file w' = config_file w ∧
       ELog ("Failed to save config: " ++ e) ∈ trace w') ∧
    (∀ e, cfg_fault w = Some (WriteFails e) →
       config_file w' = Garbled ∧
       ELog ("Failed to save config: " ++ e) ∈ trace w').
Proof.
  intros Hq.
  destruct (detect_devices_once_nonempty w) as (v0 & vs & a0 & as_ & Hd);
    [by apply query_answers_Some |].
  split. { exists st, w. unfold open_device_dialog. by rewrite Hd. }
  exists (v0 :: vs), (a0 :: as_).
  rewrite (open_device_dialog_detects _ _ _ _ _ _ Hd).
  destruct (open_device_dialog_spec (Some (cv, ca)) false (v0 :: vs) (a0 :: as_) st w)
    as (st' & w' & Hr & Hcfg & Hcf & Hlog & _ & _ & _ & _ & _ & _ & _ & Hans);
    [done | done | left; eauto |].
  destruct (Hans cv ca eq_refl) as (Hv & Ha & Hp & Hl).
  exists st', w'. split; [exact Hd |]. split; [exact Hr |].
  assert (Hin : ∀ l init c, chosen l init c = init ∨ chosen l init c ∈ l).
  { intros l init [|i]; cbn; [by left |].
    destruct (l !! i) as [x|] eqn:Hx; cbn; [right | by left].
    by apply list_elem_of_lookup_2 in Hx. }
  split; [exact Hv |]. split; [exact Ha |].
  split; [rewrite Hv; apply Hin |]. split; [rewrite Ha; apply Hin |].
  split; [exact Hcfg |]. split; [exact Hp |].
  unfold saved in Hcf. split; [| split].
  - intros Hok. by rewrite Hok in Hcf.
  - intros e He. rewrite He in Hcf. split; [exact Hcf | exact (Hlog _ He)].
  - intros e He. rewrite He in Hcf. split; [exact Hcf | exact (Hlog _ He)].
Qed.

Lemma device_change_applies_witness :
  let w := fresh_world (λ _, obedient) in
  query_answers w = true ∧
  ∃ st' w',
    open_device_dialog (Some (Pick 0, Keep)) false None None (awaiting_app 9) w
      = Some (st', w') ∧
    video_device st' = FALLBACK_VIDEO_DEVICE ∧
    config_file w' = Stored (JObject (config st')).
Proof.
  intros w. split; [reflexivity |].
  destruct (device_change_applies (Pick 0) Keep (awaiting_app 9) w eq_refl)
    as (_ & vids & auds & st' & w' & Hd & Hr & Hv & _ & _ & _ & _ & _ & Hok & _).
  exists st', w'. split; [exact Hr |]. split; [| exact (Hok eq_refl)].
  rewrite Hv.
  assert (detect_devices_once w
          = Some ([FALLBACK_VIDEO_DEVICE], [FALLBACK_AUDIO_DEVICE])) as Hd'
    by reflexivity.
  rewrite Hd' in Hd. injection Hd as <- <-. reflexivity.
Defined.

(** * More on moving and purging files *)

(** X13. [safe_move] never loses the file.  For a regular file moved to
    an existing directory in which its name is free or names a regular
    file: whether or not the move goes through, the file is afterwards at
    the destination and no longer at its source (result [True]) or still
    at its source (result [False]), never gone, and every other entry of
    the file system is as before. *)
Theorem safe_move_keeps_file (p d : string) (w : World) :
  p ≠ "" → fs w !! p = Some KFile → fs w !! d = Some KDir →
  p ≠ path_join d (basename p) →
  fs w !! path_join d (basename p) ≠ Some KDir →
  let r := safe_move (Some p) d w in
  let dst := path_join d (basename p) in
  (if r.1 then fs r.2 !! dst = Some KFile ∧ fs r.2 !! p = None
   else fs r.2 !! p = Some KFile) ∧
  (∀ q, q ≠ p → q ≠ dst → fs r.2 !! q = fs w !! q).
Proof.
  intros Hp Hk Hd Hne _. cbn zeta.
  assert (Hmk : makedirs d w = w) by (unfold makedirs; by rewrite Hd).
  destruct (safe_move_cases p d KFile w Hp Hk)
    as [(_ & w' & -> & Hfs & _) | (_ & w' & -> & Hfs & _)]; cbn [fst snd];
    rewrite Hfs, Hmk.
  - split; [split |]; [apply lookup_insert_eq | |].
    + rewrite lookup_insert_ne by done. apply lookup_delete_eq.
    + intros q H1 H2. by rewrite lookup_insert_ne, lookup_delete_ne.
  - split; done.
Qed.

Lemma safe_move_keeps_file_witness :
  fs (staged_world 9) !! staged = Some KFile ∧
  fs (staged_world 9) !! APPROVED_DIR = Some KDir ∧
  fs (staged_world 9) !! path_join APPROVED_DIR (basename staged) = None ∧
  (safe_move (Some staged) APPROVED_DIR (staged_world 9)).1 = false ∧
  fs (safe_move (Some staged) APPROVED_DIR (staged_world 9)).2 !! staged = Some KFile.
Proof.
  assert (fs (staged_world 9) !! staged = Some KFile) as H
    by (vm_compute; reflexivity).
  assert (fs (staged_world 9) !! APPROVED_DIR = Some KDir) as Hd
    by (vm_compute; reflexivity).
  assert (fs (staged_world 9) !! path_join APPROVED_DIR (basename staged) = None)
    as Hfree by (vm_compute; reflexivity).
  assert (staged ≠ "") as Hne by (vm_compute; discriminate).
  assert (staged ≠ path_join APPROVED_DIR (basename staged)) as Hne2
    by (vm_compute; discriminate).
  assert ((safe_move (Some staged) APPROVED_DIR (staged_world 9)).1 = false) as Hr
    by (vm_compute; reflexivity).
  split; [exact H |]. split; [exact Hd |]. split; [exact Hfree |].
  split; [exact Hr |].
  destruct (safe_move_keeps_file staged APPROVED_DIR (staged_world 9) Hne H Hd Hne2)
    as [Hs _]; [by rewrite Hfree |].
  cbv zeta in Hs. rewrite Hr in Hs. exact Hs.
Defined.

Lemma prefix_append_l (a b q : string) :
  String.prefix (a ++ b) q = true → String.prefix a q = true.
Proof.
  revert q. induction a as [|c a IH]; intros q; [by destruct q |].
  destruct q as [|e q]; [discriminate |].
  change (String.prefix (String c (a ++ b)) (String e q) = true
          → String.prefix (String c a) (String e q) = true).
  rewrite !prefix_cons. destruct (ascii_dec c e); [apply IH | done].
Qed.

Lemma prefix_self_append (a b : string) : String.prefix a (a ++ b) = true.
Proof.
  induction a as [|c a IH]; [by destruct b |].
  change (String.prefix (String c a) (String c (a ++ b)) = true).
  rewrite prefix_cons. by destruct (ascii_dec c c).
Qed.

Lemma gone_with_below (w : World) (n q : string) :
  has_sep n = false → gone_with w n q = true →
  String.prefix (DELETE_DAILY_DIR ++ "/") q = true.
Proof.
  intros Hn. unfold gone_with, entry_path. rewrite (join_delete_daily n Hn).
  intros [_ H]%andb_true_iff.
  assert (He : String.eqb (DELETE_DAILY_DIR ++ "/" ++ n) q = true →
               String.prefix (DELETE_DAILY_DIR ++ "/") q = true).
  { intros <-%String.eqb_eq. rewrite <- append_assoc. apply prefix_self_append. }
  destruct (isfile _ w); [by apply He |].
  unfold under in H. apply orb_true_iff in H as [H | H]; [by apply He |].
  apply (prefix_append_l _ (n ++ "/")).
  by rewrite !append_assoc in H |- *.
Qed.

Lemma cleanup_delete_daily_outside (w : World) (q : string) :
  String.prefix (DELETE_DAILY_DIR ++ "/") q = false →
  fs (cleanup_delete_daily w).2 !! q = fs w !! q.
Proof.
  intros Hq. unfold cleanup_delete_daily.
  destruct (cleanup_loop_spec w (listdir DELETE_DAILY_DIR w) 0 w
              (NoDup_listdir _ _) (λ n, listdir_no_sep _ n w) eq_refl
              (λ _ _, eq_refl)) as (_ & _ & Hl).
  destruct (cleanup_loop (listdir DELETE_DAILY_DIR w) 0 w) as [removed w1].
  cbn [fst snd] in *. rewrite (proj1 (log_frame _ _)), Hl.
  assert (existsb (λ n, gone_with w n q) (listdir DELETE_DAILY_DIR w) = false)
    as ->; [| reflexivity].
  apply not_true_is_false. intros (n & Hn & Hg)%existsb_exists.
  apply list_elem_of_In, listdir_no_sep in Hn.
  apply (gone_with_below w n q Hn) in Hg. congruence.
Qed.

Lemma init_starts_up (answer : option (choice * choice)) (w : World)
    (s : App * World) :
  __init__ answer w = Some s → starts_up w = true.
Proof.
  intros Hi. unfold starts_up. apply andb_true_iff. split.
  - unfold query_answers. destruct (dshow w) eqn:E; try done.
    unfold __init__, detect_devices_once, ffmpeg_list_devices in Hi.
    by rewrite E in Hi.
  - destruct (load_config w) eqn:E; [done |].
    unfold __init__ in Hi. rewrite E in Hi.
    by destruct (detect_devices_once w) as [[? ?]|].
Qed.

Lemma init_fs (answer : option (choice * choice)) (w : World) (st : App)
    (w' : World) :
  __init__ answer w = Some (st, w') → fs w' = fs (cleanup_delete_daily w).2.
Proof.
  intros Hi.
  destruct (starts_up_cases w (init_starts_up _ _ _ Hi))
    as (Hq & cfg0 & Hload & [Hmiss | (v & a & Hcf & Hv & Ha)]).
  - destruct (init_first_run answer w cfg0 Hq Hload Hmiss)
      as (st1 & w1 & Hi1 & _ & _ & _ & _ & _ & _ & _ & _ & _ & _ & Hfs).
    congruence.
  - destruct (init_stored w cfg0 v a Hq Hcf Hv Ha)
      as (st1 & w1 & Hi1 & _ & _ & _ & _ & _ & _ & _ & _ & _ & _ & Hfs).
    specialize (Hi1 answer). congruence.
Qed.

(** X14. The start-up purge is confined to the expired directory.  A path
    that does not lie below [DELETE_DAILY_DIR], and is neither the log
    file nor the configuration file, is after the purge, and after the
    whole of a start-up that gets as far as the window, what it was
    before: approved and staged recordings and the expired directory
    itself are never deleted. *)
Theorem purge_is_confined (answer : option (choice * choice)) (w : World)
    (q : string) :
  String.prefix (DELETE_DAILY_DIR ++ "/") q = false →
  q ≠ LOG_FILE → q ≠ CONFIG_PATH →
  fs (cleanup_delete_daily w).2 !! q = fs w !! q ∧
  ∀ st w', __init__ answer w = Some (st, w') → fs w' !! q = fs w !! q.
Proof.
  intros Hq _ _. pose proof (cleanup_delete_daily_outside w q Hq) as Hc.
  split; [exact Hc |]. intros st w' Hi. by rewrite (init_fs _ _ _ _ Hi).
Qed.

Lemma purge_is_confined_witness :
  let q := path_join APPROVED_DIR "keep.mp4" in
  let w := set_fs (<[q := KFile]> (fs expired_world)) expired_world in
  (String.prefix (DELETE_DAILY_DIR ++ "/") q = false ∧
   q ≠ LOG_FILE ∧ q ≠ CONFIG_PATH) ∧
  fs w !! q = Some KFile ∧
  fs (cleanup_delete_daily w).2 !! q = Some KFile.
Proof.
  intros q w.
  assert (String.prefix (DELETE_DAILY_DIR ++ "/") q = false) as H
    by (vm_compute; reflexivity).
  assert (q ≠ LOG_FILE) as H1 by (vm_compute; discriminate).
  assert (q ≠ CONFIG_PATH) as H2 by (vm_compute; discriminate).
  assert (fs w !! q = Some KFile) as Hk by (vm_compute; reflexivity).
  split; [done |]. split; [exact Hk |].
  rewrite <- Hk. exact (proj1 (purge_is_confined None w q H H1 H2)).
Defined.

(** * Parsing the device listing *)

Lemma parse_line_unquoted (acc : option mode * list string * list string)
    (line : string) :
  startswith_quote (strip is_space line) = false →
  (parse_line acc line).1.2 = acc.1.2 ∧ (parse_line acc line).2 = acc.2.
Proof.
  intros H. destruct acc as [[m video] audio]. unfold parse_line.
  rewrite H. cbn [andb].
  destruct (contains "DirectShow video devices" _); [done |].
  destruct (contains "DirectShow audio devices" _); [done |].
  by destruct m.
Qed.

Lemma parse_lines_unquoted (lines : list string) :
  ∀ acc : option mode * list string * list string,
    (∀ line, line ∈ lines → startswith_quote (strip is_space line) = false) →
    (foldl parse_line acc lines).1.2 = acc.1.2 ∧
    (foldl parse_line acc lines).2 = acc.2.
Proof.
  induction lines as [|l rest IH]; intros acc H; [done |]. cbn [foldl].
  destruct (IH (parse_line acc l)) as [-> ->].
  { intros line Hin. apply H. by right. }
  apply parse_line_unquoted, H. by left.
Qed.

(** X15. Only a line that starts with a double quote names a device.  When
    no line of an ASCII listing, once stripped of white space, starts with
    a double quote, the parser finds nothing and detection returns the two
    fallback devices.  A listing in which each line carries a tag in front,
    as ffmpeg prints it, is such a text. *)
Theorem tagged_lines_name_no_device (w : World) (text : string) :
  dshow w = Completed text → ascii_only text = true →
  (∀ line, line ∈ splitlines text → startswith_quote (strip is_space line) = false) →
  parse_dshow_devices text = ([], []) ∧
  detect_devices_once w = Some ([FALLBACK_VIDEO_DEVICE], [FALLBACK_AUDIO_DEVICE]).
Proof.
  intros Hd _ Hlines.
  assert (parse_dshow_devices text = ([], [])) as Hp.
  { unfold parse_dshow_devices.
    destruct (parse_lines_unquoted (splitlines text) (None, [], []) Hlines)
      as [Hv Ha].
    destruct (foldl parse_line _ _) as [[m video] audio]. cbn in Hv, Ha.
    by subst. }
  split; [exact Hp |].
  rewrite (detect_devices_once_spec w text)
    by (unfold ffmpeg_list_devices; by rewrite Hd).
  cbn zeta. by rewrite Hp.
Qed.

Lemma tagged_lines_name_no_device_witness :
  let w := with_query (Completed tagged_listing) (fresh_world (λ _, obedient)) in
  (ascii_only tagged_listing = true ∧
   length (splitlines tagged_listing) = 5%nat) ∧
  detect_devices_once w = Some ([FALLBACK_VIDEO_DEVICE], [FALLBACK_AUDIO_DEVICE]).
Proof.
  intros w.
  assert (ascii_only tagged_listing = true) as Ha by (vm_compute; reflexivity).
  split; [split; [exact Ha | vm_compute; reflexivity] |].
  refine (proj2 (tagged_lines_name_no_device w tagged_listing eq_refl Ha _)).
  intros line Hin.
  assert (forallb (λ l, negb (startswith_quote (strip is_space l)))
            (splitlines tagged_listing) = true) as Hb by (vm_compute; reflexivity).
  rewrite forallb_forall in Hb. apply negb_true_iff, Hb. by apply list_elem_of_In.
Defined.

Lemma append_nil_r (s : string) : s ++ "" = s.
Proof.
  induction s as [|c s IH]; [reflexivity |].
  change (String c (s ++ "") = String c s). by rewrite IH.
Qed.

Lemma rev_app_append (a b c : string) :
  String.rev_app (a ++ b) c = String.rev_app b (String.rev_app a c).
Proof.
  revert c. induction a as [|x a IH]; intros c; [reflexivity |].
  change (String.rev_app (a ++ b) (String x c)
          = String.rev_app b (String.rev_app a (String x c))).
  apply IH.
Qed.

Lemma rev_app_rev_app (a b c : string) :
  String.rev_app (String.rev_app a b) c = String.rev_app b (a ++ c).
Proof.
  revert b c. induction a as [|x a IH]; intros b c; [reflexivity |].
  cbn [String.rev_app]. rewrite IH. reflexivity.
Qed.

Lemma rev_involutive (s : string) : String.rev (String.rev s) = s.
Proof. unfold String.rev. rewrite rev_app_rev_app. apply append_nil_r. Qed.

Lemma rev_snoc (s : string) (c : ascii) :
  String.rev (s ++ String c "") = String c (String.rev s).
Proof. unfold String.rev. by rewrite rev_app_append. Qed.

Lemma rev_cons (s : string) (c : ascii) :
  String.rev (String c s) = String.rev s ++ String c "".
Proof.
  unfold String.rev. cbn [String.rev_app].
  change (String c "") with ("" ++ String c "") at 1.
  generalize "" at 1 3 as acc. revert c. induction s as [|x s IH]; intros c acc.
  - reflexivity.
  - cbn [String.rev_app].
    change (String x (acc ++ String c "")) with (String x acc ++ String c "").
    apply IH.
Qed.

(** A line without line breaks, followed by a line feed, is the next line
    that [splitlines] gives. *)
Lemma splitlines_go_line (l : string) :
  ∀ cur rest, free_of is_linebreak l = true →
    splitlines_go false cur (l ++ nl ++ rest)
    = (cur ++ l) :: splitlines_go false "" rest.
Proof.
  induction l as [|c l IH]; intros cur rest Hl.
  - rewrite append_nil_r. reflexivity.
  - cbn [free_of] in Hl. apply andb_true_iff in Hl as [Hc Hl].
    apply negb_true_iff in Hc.
    change (String c l ++ nl ++ rest) with (String c (l ++ nl ++ rest)).
    cbn [splitlines_go andb]. rewrite Hc, (IH _ _ Hl), append_assoc. reflexivity.
Qed.

Lemma splitlines_unlines (ls : list string) :
  Forall (λ l, free_of is_linebreak l = true) ls → splitlines (unlines ls) = ls.
Proof.
  unfold splitlines. induction 1 as [|l ls Hl _ IH]; [reflexivity |].
  cbn [unlines foldr]. rewrite (splitlines_go_line l "" _ Hl).
  f_equal. exact IH.
Qed.

Lemma quoted_unfold (n : string) :
  quoted n = String (ascii_of_nat 34) (n ++ dq).
Proof. reflexivity. Qed.

Lemma lstrip_keep (f : ascii → bool) (c : ascii) (s : string) :
  f c = false → lstrip f (String c s) = String c s.
Proof. intros H. cbn [lstrip]. by rewrite H. Qed.

Lemma rev_quoted (n : string) :
  String.rev (quoted n) = String (ascii_of_nat 34) (String.rev n ++ dq).
Proof.
  rewrite quoted_unfold, rev_cons. unfold dq. rewrite rev_snoc. reflexivity.
Qed.

Lemma strip_space_quoted (n : string) : strip is_space (quoted n) = quoted n.
Proof.
  unfold strip. rewrite quoted_unfold, lstrip_keep by (vm_compute; reflexivity).
  rewrite <- quoted_unfold, rev_quoted, lstrip_keep by (vm_compute; reflexivity).
  rewrite <- rev_quoted. apply rev_involutive.
Qed.

Lemma lstrip_unquoted (s : string) :
  startswith_quote s = false → lstrip is_quote s = s.
Proof. destruct s as [|c s]; [done |]. cbn. by intros ->. Qed.

Lemma strip_quote_quoted (n : string) :
  startswith_quote n = false → endswith_quote n = false →
  strip is_quote (quoted n) = n.
Proof.
  intros Hs He. unfold strip. rewrite quoted_unfold.
  assert (lstrip is_quote (String (ascii_of_nat 34) (n ++ dq))
          = lstrip is_quote (n ++ dq)) as -> by reflexivity.
  destruct n as [|c n]; [reflexivity |].
  change (String c n ++ dq) with (String c (n ++ dq)).
  rewrite lstrip_keep by exact Hs.
  change (String c (n ++ dq)) with (String c n ++ String (ascii_of_nat 34) "").
  rewrite rev_snoc.
  assert (lstrip is_quote (String (ascii_of_nat 34) (String.rev (String c n)))
          = lstrip is_quote (String.rev (String c n))) as -> by reflexivity.
  rewrite (lstrip_unquoted _ He). apply rev_involutive.
Qed.

Lemma quoted_ends (n : string) :
  startswith_quote (quoted n) = true ∧ endswith_quote (quoted n) = true.
Proof.
  split; [reflexivity |]. unfold endswith_quote. by rewrite rev_quoted.
Qed.

Lemma prefix_snoc_free (q : ascii) (h : string) :
  ∀ n, free_of (Ascii.eqb q) h = true →
       String.prefix h (n ++ String q "") = String.prefix h n.
Proof.
  induction h as [|a h IH]; intros n Hf; [by destruct n |].
  cbn [free_of] in Hf. apply andb_true_iff in Hf as [Ha Hf].
  apply negb_true_iff, Ascii.eqb_neq in Ha.
  destruct n as [|b n].
  - change (String.prefix (String a h) (String q "") = false).
    rewrite prefix_cons. destruct (ascii_dec a q); [congruence | reflexivity].
  - change (String.prefix (String a h) (String b (n ++ String q ""))
            = String.prefix (String a h) (String b n)).
    rewrite !prefix_cons. destruct (ascii_dec a b); [by apply IH | reflexivity].
Qed.

Lemma contains_snoc_free (q : ascii) (h : string) :
  free_of (Ascii.eqb q) h = true →
  ∀ n, contains h (n ++ String q "") = contains h n.
Proof.
  intros Hf. induction n as [|c n IH].
  - change (contains h (String q "") = contains h "").
    cbn [contains].
    rewrite (prefix_snoc_free q h "" Hf : String.prefix h (String q "") = _).
    by destruct (String.prefix h "").
  - change (contains h (String c (n ++ String q "")) = contains h (String c n)).
    cbn [contains]. rewrite IH.
    by rewrite (prefix_snoc_free q h (String c n) Hf
                : String.prefix h (String c (n ++ String q "")) = _).
Qed.

Lemma contains_quoted (h : string) (n : string) :
  free_of (Ascii.eqb (ascii_of_nat 34)) h = true → h ≠ "" →
  contains h (quoted n) = contains h n.
Proof.
  intros Hf Hne. rewrite quoted_unfold. cbn [contains].
  unfold dq. rewrite (contains_snoc_free _ h Hf).
  assert (String.prefix h (String (ascii_of_nat 34) (n ++ String (ascii_of_nat 34) ""))
          = false) as ->; [| reflexivity].
  destruct h as [|a h]; [done |]. cbn [free_of] in Hf.
  apply andb_true_iff in Hf as [Ha _]. apply negb_true_iff, Ascii.eqb_neq in Ha.
  rewrite prefix_cons. destruct (ascii_dec a (ascii_of_nat 34)); [congruence | done].
Qed.

Lemma free_of_quoted (n : string) :
  free_of is_linebreak n = true → free_of is_linebreak (quoted n) = true.
Proof.
  intros H. rewrite quoted_unfold. cbn [free_of].
  assert (is_linebreak (ascii_of_nat 34) = false) as -> by (vm_compute; reflexivity).
  cbn [negb andb]. induction n as [|c n IH]; [vm_compute; reflexivity |].
  change (free_of is_linebreak (String c (n ++ dq)) = true).
  cbn [free_of] in H |- *. apply andb_true_iff in H as [-> H]. by apply IH.
Qed.

Lemma plain_name_inv (n : string) :
  plain_name n = true →
  free_of is_linebreak n = true ∧ startswith_quote n = false ∧
  endswith_quote n = false ∧
  contains "DirectShow video devices" n = false ∧
  contains "DirectShow audio devices" n = false.
Proof.
  unfold plain_name. rewrite !andb_true_iff, !negb_true_iff. tauto.
Qed.

Lemma parse_line_quoted (md : mode) (video audio : list string) (n : string) :
  plain_name n = true →
  parse_line (Some md, video, audio) (quoted n)
  = match md with
    | ModeVideo => (Some md, (video ++ [n])%list, audio)
    | ModeAudio => (Some md, video, (audio ++ [n])%list)
    end.
Proof.
  intros (_ & Hs & He & Hv & Ha)%plain_name_inv. unfold parse_line.
  rewrite strip_space_quoted.
  rewrite !contains_quoted, Hv, Ha by (vm_compute; first [reflexivity | discriminate]).
  destruct (quoted_ends n) as [-> ->]. cbn [andb].
  by rewrite (strip_quote_quoted n Hs He).
Qed.

Lemma parse_names (md : mode) (ns : list string) :
  Forall (λ n, plain_name n = true) ns →
  ∀ video audio,
    foldl parse_line (Some md, video, audio) (map quoted ns)
    = match md with
      | ModeVideo => (Some md, (video ++ ns)%list, audio)
      | ModeAudio => (Some md, video, (audio ++ ns)%list)
      end.
Proof.
  induction 1 as [|n ns Hn _ IH]; intros video audio.
  - cbn. rewrite !app_nil_r. by destruct md.
  - cbn [map foldl]. rewrite (parse_line_quoted md video audio n Hn).
    destruct md; rewrite IH, <- app_assoc; reflexivity.
Qed.

Lemma parse_line_headers (acc : option mode * list string * list string) :
  parse_line acc "DirectShow video devices" = (Some ModeVideo, acc.1.2, acc.2) ∧
  parse_line acc "DirectShow audio devices" = (Some ModeAudio, acc.1.2, acc.2).
Proof.
  destruct acc as [[m video] audio]. unfold parse_line.
  assert (strip is_space "DirectShow video devices" = "DirectShow video devices")
    as -> by (vm_compute; reflexivity).
  assert (strip is_space "DirectShow audio devices" = "DirectShow audio devices")
    as -> by (vm_compute; reflexivity).
  assert (contains "DirectShow video devices" "DirectShow video devices" = true)
    as -> by (vm_compute; reflexivity).
  assert (contains "DirectShow video devices" "DirectShow audio devices" = false)
    as -> by (vm_compute; reflexivity).
  assert (contains "DirectShow audio devices" "DirectShow audio devices" = true)
    as -> by (vm_compute; reflexivity).
  done.
Qed.

(** X16. A listing in the form the parser expects is read back as it was
    written.  A header line for the video devices followed by their names
    between double quotes, one to a line, then the same for the audio
    devices, gives exactly the two lists of names, in order; detection
    then returns these lists, or the fallback for a list that is empty.
    The names are ASCII, of one line, with no double quote at either end
    and no header text in them. *)
Theorem listing_is_read_back (vs as_ : list string) :
  Forall (λ n, plain_name n = true) vs →
  Forall (λ n, plain_name n = true) as_ →
  parse_dshow_devices (listing vs as_) = (vs, as_) ∧
  ∀ w, dshow w = Completed (listing vs as_) →
       detect_devices_once w
       = Some (if bool_decide (vs = []) then [FALLBACK_VIDEO_DEVICE] else vs,
               if bool_decide (as_ = []) then [FALLBACK_AUDIO_DEVICE] else as_).
Proof.
  intros Hvs Has.
  assert (parse_dshow_devices (listing vs as_) = (vs, as_)) as Hp.
  { unfold parse_dshow_devices, listing. rewrite splitlines_unlines.
    - cbn [foldl]. rewrite (proj1 (parse_line_headers _)). cbn [fst snd].
      rewrite foldl_app, (parse_names ModeVideo vs Hvs). cbn [foldl].
      rewrite (proj2 (parse_line_headers _)). cbn [fst snd].
      rewrite (parse_names ModeAudio as_ Has). reflexivity.
    - apply Forall_cons. split; [vm_compute; reflexivity |].
      apply Forall_app. split.
      + apply Forall_fmap. eapply Forall_impl; [exact Hvs |].
        intros n (H & _)%plain_name_inv. by apply free_of_quoted.
      + apply Forall_cons. split; [vm_compute; reflexivity |].
        apply Forall_fmap. eapply Forall_impl; [exact Has |].
        intros n (H & _)%plain_name_inv. by apply free_of_quoted. }
  split; [exact Hp |].
  intros w Hd.
  rewrite (detect_devices_once_spec w (listing vs as_))
    by (unfold ffmpeg_list_devices; by rewrite Hd).
  cbn zeta. by rewrite Hp.
Qed.

Lemma listing_is_read_back_witness :
  let vs := ["Integrated Camera"; "USB Capture HDMI"] in
  let as_ := ["Microphone (Realtek Audio)"] in
  (forallb plain_name vs = true ∧ forallb plain_name as_ = true) ∧
  parse_dshow_devices (listing vs as_) = (vs, as_).
Proof.
  intros vs as_.
  assert (forallb plain_name vs = true) as H1 by (vm_compute; reflexivity).
  assert (forallb plain_name as_ = true) as H2 by (vm_compute; reflexivity).
  split; [exact (conj H1 H2) |].
  refine (proj1 (listing_is_read_back vs as_ _ _)).
  - apply Forall_forall. intros n Hn. rewrite forallb_forall in H1.
    by apply H1, list_elem_of_In.
  - apply Forall_forall. intros n Hn. rewrite forallb_forall in H2.
    by apply H2, list_elem_of_In.
Defined.

(** * A recording started before the last one was decided *)

Lemma safe_move_others (src : option string) (d : string) (w : World) (q : string) :
  src ≠ Some q → q ≠ d →
  (∀ p, src = Some p → q ≠ path_join d (basename p)) →
  fs (safe_move src d w).2 !! q = fs w !! q.
Proof.
  intros Hsrc Hd Hdst.
  destruct src as [p|]; [| reflexivity].
  destruct (truthy (Some p)) eqn:Ht; [| unfold safe_move, safe_move_with; by rewrite Ht].
  destruct (path_exists p w) eqn:He;
    [| unfold safe_move, safe_move_with; by rewrite Ht, He].
  apply path_exists_true in He as [k Hk].
  assert (p ≠ "") as Hp by (intros ->; discriminate).
  assert (Hmk : fs (makedirs d w) !! q = fs w !! q).
  { unfold makedirs. destruct (fs w !! d); [done |].
    destruct w as [fs0 now0 tr0 tm0 nj0 pr0 cf0 mc0 po0 sa0 mvf rmf ff ds cg].
    cbn. by rewrite lookup_insert_ne. }
  destruct (safe_move_cases p d k w Hp Hk)
    as [(_ & w' & -> & Hfs & _) | (_ & w' & -> & Hfs & _)]; cbn [snd]; rewrite Hfs.
  - rewrite lookup_insert_ne by (intros E; by apply (Hdst p)).
    rewrite lookup_delete_ne by congruence. exact Hmk.
  - exact Hmk.
Qed.

Lemma stop_recording_fs (st : App) (w : World) :
  fs (stop_recording st w).2 = fs w.
Proof.
  unfold stop_recording. destruct (recording st); cbn [negb]; [| done].
  destruct (log_frame "User stopped recording" w) as (Hfs & _).
  destruct (record_proc (set_recording false st)) as [h|]; [| done].
  destruct (poll_is_None _ _); cbn [fst snd]; [| done].
  by rewrite (proj1 (terminate_frame _ _)).
Qed.

Lemma worker_launch_fs (st : App) (w : World) (q : string) :
  q ≠ path_join INBOUND_DIR
        ("recording_" ++ pretty (Z.quot (now w + 120) 1000) ++ ".mp4") →
  fs (worker_launch st w).1.2 !! q = fs w !! q.
Proof.
  intros Hq. unfold worker_launch, Popen, open_preview, close_preview.
  destruct w as [fs0 now0 tr0 tm0 nj0 pr0 cf0 mc0 po0 sa0 mvf rmf ff ds cg].
  destruct st as [cfg vd ad sb tb pb ab rb sv cp pr rp rc rs cfile pj pl].
  cbn -[String.concat pretty path_join String.append INBOUND_DIR] in Hq |- *.
  destruct (launch_error (ff po0));
    cbn -[String.concat pretty path_join String.append INBOUND_DIR]; [done |].
  destruct (writes_output (ff po0));
    cbn -[String.concat pretty path_join String.append INBOUND_DIR]; [| done].
  by rewrite lookup_insert_ne.
Qed.

Lemma worker_finish_fs (st : App) (w : World) :
  fs (worker_finish st w).2 = fs w ∧
  current_file (worker_finish st w).1 = current_file st.
Proof.
  unfold worker_finish.
  match goal with |- context [open_preview ?a _] => set (sta := a) end.
  match goal with |- context [open_preview sta ?b] => set (wa := b) end.
  assert (fs wa = fs w) as Hwa.
  { subst wa. rewrite (proj1 (proj2 (proj2 (proj2 (proj2 (sleep_spec _ _)))))),
      (proj1 (log_frame _ _)). apply reap_frame. }
  assert (current_file sta = current_file st) as Hsta by (subst sta; by destruct st).
  destruct (open_preview_frame sta wa)
    as (_ & _ & _ & _ & _ & _ & _ & Hcur & _ & _ & _ & Hfs & _).
  destruct (open_preview sta wa) as [st2 w2]. cbn [fst snd] in *.
  destruct (has_current_file st2 w2); cbn [fst snd]; [| split; congruence].
  destruct (start_post_timeout_spec (set_decision_btns normal st2) w2)
    as (_ & _ & _ & _ & Hf & _ & Hc & _).
  rewrite Hf, Hc. split; [congruence |].
  transitivity (current_file st2); [by destruct st2 | congruence].
Qed.

Lemma current_file_set_job (j : option nat) (st : App) :
  current_file (set_post_timeout_job j st) = current_file st.
Proof. by destruct st. Qed.

Lemma staging_apart (d : decision) (p b : string) :
  String.prefix (INBOUND_DIR ++ "/") p = true →
  has_sep b = false →
  p ≠ dest d ∧ p ≠ path_join (dest d) b.
Proof.
  intros Hp Hb. split.
  - intros ->. by destruct d; vm_compute in Hp.
  - intros ->. unfold path_join in Hp. rewrite (no_sep_starts b Hb) in Hp.
    by destruct d; vm_compute in Hp.
Qed.

Lemma rev_app_inj (s a b : string) :
  String.rev_app s a = String.rev_app s b → a = b.
Proof.
  revert a b. induction s as [|c s IH]; intros a b; cbn [String.rev_app]; [done |].
  intros H%IH. by injection H.
Qed.

Lemma append_inv_r (x y s : string) : x ++ s = y ++ s → x = y.
Proof.
  intros H. apply (f_equal String.rev) in H. unfold String.rev in H.
  rewrite !rev_app_append in H. apply rev_app_inj in H.
  rewrite <- (rev_involutive x), <- (rev_involutive y). unfold String.rev at 2 4.
  by rewrite H.
Qed.

Lemma recording_path_unfold (t : Z) :
  recording_path t = INBOUND_DIR ++ "/" ++ "recording_" ++ pretty t ++ ".mp4".
Proof. reflexivity. Qed.

(** Two recordings have the same path only if they have the same time
    stamp. *)
Lemma recording_path_inj (t t' : Z) : recording_path t = recording_path t' → t = t'.
Proof.
  rewrite !recording_path_unfold. intros H.
  do 3 apply (inj (String.app _)) in H.
  apply append_inv_r in H. by apply (inj pretty) in H.
Qed.

Lemma recording_path_staged (t : Z) :
  String.prefix (INBOUND_DIR ++ "/") (recording_path t) = true.
Proof.
  rewrite recording_path_unfold.
  change (INBOUND_DIR ++ "/" ++ "recording_" ++ pretty t ++ ".mp4")
    with ((INBOUND_DIR ++ "/") ++ "recording_" ++ pretty t ++ ".mp4").
  apply prefix_self_append.
Qed.

(** The clock never goes back. *)
Lemma later_stamp (t0 n n' : Z) :
  n ≤ n' → t0 < Z.quot (n + 120) 1000 → t0 < Z.quot (n' + 120) 1000.
Proof.
  intros Hn Ht. eapply Z.lt_le_trans; [exact Ht |]. apply Z.quot_le_mono; lia.
Qed.

Lemma safe_move_now (src : option string) (d : string) (w : World) :
  now w ≤ now (safe_move src d w).2.
Proof.
  destruct src as [p|]; [| reflexivity].
  destruct (truthy (Some p)) eqn:Ht;
    [| unfold safe_move, safe_move_with; by rewrite Ht].
  destruct (path_exists p w) eqn:He;
    [| unfold safe_move, safe_move_with; by rewrite Ht, He].
  apply path_exists_true in He as [k Hk].
  assert (p ≠ "") as Hp by (intros ->; discriminate).
  rewrite (safe_move_spec p d k w Hp Hk). cbn zeta.
  set (errs := leading_faults _ _ _).
  assert (now w ≤ now (after_failures p (path_join d (basename p)) 0 errs
                         (makedirs d w))) as Hf.
  { unfold makedirs. destruct (fs w !! d); destruct w; cbn; lia. }
  destruct (length errs <? 6)%nat; cbn [snd].
  - by rewrite (proj1 (after_success_frame _ _ _ _)).
  - by rewrite (proj2 (proj2 (log_frame _ _))).
Qed.

Lemma start_post_timeout_now (st : App) (w : World) :
  now (start_post_timeout st w).2 = now w.
Proof.
  unfold start_post_timeout, cancel_post_timeout, after, after_cancel.
  destruct st as [cfg vd ad sb tb pb ab rb sv cp pr rp rc rs cfile pj pl].
  destruct w as [fs0 now0 tr0 tm0 nj0 pr0 cf0 mc0 po0 sa0 mvf rmf ff ds cg].
  cbn. by destruct pj.
Qed.

Lemma reap_later (st : App) (w : World) : now w ≤ now (reap st w).
Proof.
  unfold reap. destruct (record_proc st) as [h|]; [| done].
  destruct (poll_is_None (Some h) w); [| done].
  pose proof (proj2 (proj2 (proj2 (terminate_frame h w)))) as Ht.
  rewrite <- Ht. generalize (terminate h w). intros v. unfold wait.
  destruct v as [fs0 now0 tr0 tm0 nj0 pr0 cf0 mc0 po0 sa0 mvf rmf ff ds cg]. cbn.
  destruct (pr0 !! h) as [q|]; cbn; [| done].
  unfold running_at. destruct (exit_time q) as [e|]; cbn; [| lia].
  destruct (Z.ltb_spec now0 e); cbn; lia.
Qed.

Lemma safe_move_kept (t0 : Z) (d : decision) (st : App) (w : World) :
  current_file st ≠ Some (recording_path t0) →
  fs (safe_move (current_file st) (dest d) w).2 !! recording_path t0
  = fs w !! recording_path t0.
Proof.
  intros Hc. apply safe_move_others; [exact Hc | |].
  - exact (proj1 (staging_apart d (recording_path t0) ""
                    (recording_path_staged t0) eq_refl)).
  - intros q _.
    exact (proj2 (staging_apart d (recording_path t0) (basename q)
                    (recording_path_staged t0) (basename_no_sep q))).
Qed.

Lemma resolve_kept (t0 : Z) (d : decision) (st : App) (w : World) :
  current_file st ≠ Some (recording_path t0) →
  kept (recording_path t0) w (resolve d st w).
Proof.
  intros Hc. unfold kept. rewrite resolve_unfold.
  destruct (has_current_file st w); cbn [fst snd]; [| done].
  pose proof (safe_move_kept t0 d st w Hc) as Hm.
  pose proof (safe_move_now (current_file st) (dest d) w) as Hn.
  destruct (safe_move (current_file st) (dest d) w) as [[|] w1]; cbn [fst snd] in *;
    [| done].
  destruct (cancel_post_timeout_spec
              (set_decision_btns disabled (set_current_file None st))
              (showinfo (notice d) ("Moved to " ++ dest d) w1))
    as (_ & _ & _ & Hnow & Hf & _ & Hcur).
  rewrite Hf, Hcur, Hnow, (proj1 (proj2 (showinfo_frame _ _ _))), Hm.
  split; [done |]. split; [by destruct st | by destruct w1].
Qed.

Lemma post_timeout_tick_kept (t0 : Z) (st : App) (w : World) :
  current_file st ≠ Some (recording_path t0) →
  kept (recording_path t0) w (_post_timeout_tick st w).
Proof.
  intros Hc. unfold kept, _post_timeout_tick. set (st1 := set_status_var _ _).
  assert (current_file st1 = current_file st) as Hc1 by (subst st1; by destruct st).
  destruct (post_timeout_left st1 <=? 0).
  - destruct (has_current_file st1 w).
    + pose proof (safe_move_kept t0 Rejected st1 w) as Hm.
      pose proof (safe_move_now (current_file st1) DELETE_DAILY_DIR w) as Hn.
      cbn [dest] in Hm. rewrite Hc1 in Hm, Hn |- *. specialize (Hm Hc).
      destruct (safe_move (current_file st) DELETE_DAILY_DIR w) as [ok w1].
      cbn [snd] in Hm, Hn.
      match goal with |- context [cancel_post_timeout ?a ?b] =>
        destruct (cancel_post_timeout_spec a b)
          as (_ & _ & _ & Hnow & Hf & _ & Hcur)
      end.
      rewrite Hf, Hcur, Hnow, (proj1 (log_frame _ _)),
        (proj2 (proj2 (log_frame _ _))),
        (proj1 (proj2 (showinfo_frame _ _ _))), Hm.
      split; [done |]. split; [by destruct st1 | by destruct w1].
    + destruct (cancel_post_timeout_spec st1 w)
        as (_ & _ & _ & Hnow & Hf & _ & Hcur).
      rewrite Hf, Hcur, Hnow, Hc1. done.
  - unfold after. cbn [fst snd]. split; [by destruct w |].
    split; [by rewrite current_file_set_job, Hc1 | by destruct w].
Qed.

Lemma fire_kept (t0 : Z) (j : nat) (st : App) (w : World) :
  current_file st ≠ Some (recording_path t0) →
  kept (recording_path t0) w (fire j (st, w)).
Proof.
  intros Hc. unfold fire. cbn [fst snd].
  destruct (timers w !! j) as [due|]; [| by unfold kept].
  destruct (post_timeout_tick_kept t0 st
              (set_now (Z.max (now w) due) (set_timers (delete j (timers w)) w)) Hc)
    as (Hf & Hcur & Hn).
  unfold kept. rewrite Hf. split; [by destruct w |]. split; [exact Hcur |].
  etrans; [| exact Hn]. destruct w; cbn. lia.
Qed.

Lemma stop_recording_kept (t0 : Z) (st : App) (w : World) :
  current_file st ≠ Some (recording_path t0) →
  kept (recording_path t0) w (stop_recording st w).
Proof.
  intros Hc. unfold kept. rewrite stop_recording_fs. split; [done |].
  unfold stop_recording. destruct (recording st); cbn [negb]; [| done].
  destruct (record_proc (set_recording false st)) as [h|];
    [destruct (poll_is_None _ _) |]; cbn [fst snd];
    rewrite ?(proj2 (proj2 (proj2 (terminate_frame _ _)))),
      ?(proj2 (proj2 (log_frame _ _)));
    (split; [by destruct st | done]).
Qed.

Lemma reset_post_timeout_kept (t0 : Z) (st : App) (w : World) :
  current_file st ≠ Some (recording_path t0) →
  kept (recording_path t0) w (reset_post_timeout st w).
Proof.
  intros Hc. unfold kept, reset_post_timeout.
  destruct (has_current_file st w); [| done].
  destruct (start_post_timeout_spec st w) as (_ & _ & _ & _ & Hf & _ & Hcur & _).
  by rewrite Hf, Hcur, start_post_timeout_now.
Qed.

Lemma main_loop_kept (t0 : Z) (e : ui_event) (st : App) (w : World) :
  current_file st ≠ Some (recording_path t0) →
  kept (recording_path t0) w (main_loop e (st, w)).
Proof.
  intros Hc. destruct e; cbn [main_loop fst snd].
  - unfold kept, start_recording_thread.
    destruct (recording st); [done | by destruct w].
  - by apply stop_recording_kept.
  - by apply (resolve_kept t0 Approved).
  - by apply (resolve_kept t0 Rejected).
  - by apply reset_post_timeout_kept.
  - by apply fire_kept.
Qed.

Lemma worker_launch_kept (t0 : Z) (st : App) (w : World) :
  t0 < Z.quot (now w + 120) 1000 →
  kept (recording_path t0) w (worker_launch st w).1 ∧
  current_file (worker_launch st w).1.1
  = Some (recording_path (Z.quot (now w + 120) 1000)).
Proof.
  intros Ht.
  assert (recording_path t0 ≠ recording_path (Z.quot (now w + 120) 1000)) as Hne
    by (intros E%recording_path_inj; lia).
  pose proof (worker_launch_fs st w (recording_path t0) Hne) as Hf.
  assert (current_file (worker_launch st w).1.1
          = Some (recording_path (Z.quot (now w + 120) 1000))
          ∧ now w ≤ now (worker_launch st w).1.2) as [Hc Hn].
  { unfold worker_launch, Popen, open_preview, close_preview, recording_path.
    destruct w as [fs0 now0 tr0 tm0 nj0 pr0 cf0 mc0 po0 sa0 mvf rmf ff ds cg].
    destruct st as [cfg vd ad sb tb pb ab rb sv cp pr rp rc rs cfile pj pl].
    cbn -[String.concat pretty path_join String.append INBOUND_DIR Z.quot].
    destruct (launch_error (ff po0));
      cbn -[String.concat pretty path_join String.append INBOUND_DIR Z.quot];
      [split; [done | lia] |].
    destruct (writes_output (ff po0));
      cbn -[String.concat pretty path_join String.append INBOUND_DIR Z.quot];
      (split; [done | lia]). }
  split; [| exact Hc]. unfold kept. rewrite Hf, Hc.
  split; [done |]. split; [congruence | exact Hn].
Qed.

Lemma worker_finish_kept (t0 : Z) (st : App) (w : World) :
  current_file st ≠ Some (recording_path t0) →
  kept (recording_path t0) w (worker_finish st w).
Proof.
  intros Hc. unfold kept.
  destruct (worker_finish_fs st w) as [-> ->]. split; [done |]. split; [done |].
  unfold worker_finish.
  match goal with |- context [open_preview ?a _] => set (sta := a) end.
  match goal with |- context [open_preview sta ?b] => set (wa := b) end.
  assert (now w ≤ now wa) as Hwa.
  { subst wa. rewrite (proj1 (sleep_spec _ _)), (proj2 (proj2 (log_frame _ _))).
    pose proof (reap_later st w). lia. }
  assert (now wa ≤ now (open_preview sta wa).2) as Hop.
  { unfold open_preview. destruct (cap sta); cbn [snd]; [done |].
    rewrite (proj1 (sleep_spec _ _)). lia. }
  destruct (open_preview sta wa) as [st2 w2]. cbn [snd] in Hop.
  destruct (has_current_file st2 w2); cbn [snd];
    rewrite ?start_post_timeout_now; lia.
Qed.

Lemma run_move_reach (t0 : Z) (k : kind) (m : move) (s : App * World) :
  out_of_reach t0 k s → out_of_reach t0 k (run_move m s).
Proof.
  destruct s as [st w]. unfold out_of_reach. cbn [fst snd].
  intros (Hf & Hc & Ht).
  assert (Hk : ∀ r, kept (recording_path t0) w r →
            fs r.2 !! recording_path t0 = Some k ∧
            current_file r.1 ≠ Some (recording_path t0) ∧
            t0 < Z.quot (now r.2 + 120) 1000).
  { intros r (Hf' & Hc' & Hn). split; [congruence |]. split; [exact Hc' |].
    by apply (later_stamp t0 (now w)). }
  apply Hk. destruct m as [| | | e | d]; cbn [run_move fst snd].
  - by apply worker_launch_kept.
  - unfold kept. cbn [fst snd]. rewrite (proj1 (sleep_spec _ _)).
    split; [by destruct w |]. split; [done | lia].
  - by apply worker_finish_kept.
  - by apply main_loop_kept.
  - unfold kept. cbn [fst snd]. split; [by destruct w |].
    split; [done | destruct w; cbn; lia].
Qed.

Lemma run_moves_reach (t0 : Z) (k : kind) (ms : list move) :
  ∀ s, out_of_reach t0 k s → out_of_reach t0 k (run_moves ms s).
Proof.
  induction ms as [|m ms IH]; intros s Hs; [exact Hs |].
  cbn [run_moves foldl]. apply IH. by apply run_move_reach.
Qed.

Lemma worker_launch_reach (t0 : Z) (k : kind) (st : App) (w : World) :
  fs w !! recording_path t0 = Some k → t0 < Z.quot (now w + 120) 1000 →
  out_of_reach t0 k (run_move WorkerLaunch (st, w)) ∧
  current_file (run_move WorkerLaunch (st, w)).1
  = Some (recording_path (Z.quot (now w + 120) 1000)).
Proof.
  intros Hf Ht. cbn [run_move fst snd].
  destruct (worker_launch_kept t0 st w Ht) as ((Hf' & Hc' & Hn) & Hcur).
  split; [| exact Hcur]. unfold out_of_reach.
  split; [congruence |]. split; [exact Hc' |]. by apply (later_stamp t0 (now w)).
Qed.



(** * From the end of a recording to the expiry *)

Lemma start_post_timeout_mv (st : App) (w : World) :
  mv_calls (start_post_timeout st w).2 = mv_calls w ∧
  mv_fault (start_post_timeout st w).2 = mv_fault w.
Proof.
  unfold start_post_timeout, cancel_post_timeout, after, after_cancel.
  destruct st as [cfg vd ad sb tb pb ab rb sv cp pr rp rc rs cfile pj pl].
  destruct w as [fs0 now0 tr0 tm0 nj0 pr0 cf0 mc0 po0 sa0 mvf rmf ff ds cg].
  cbn. by destruct pj.
Qed.

(** X18. A file nobody decides on expires with the thirtieth tick.  From
    the start of the countdown, the first 29 ticks only count down: the
    file stays the current file and the file system is not touched.  The
    thirtieth tick is due 30 s after the start at the earliest; it ends
    the disposition window (no current file, no tick pending, decision
    buttons disabled, status [Ready]), and if one of the six attempts of
    the move works the file is then in the expired directory. *)
Theorem undecided_file_expires (st : App) (w : World) (p : string) (k : kind) :
  current_file st = Some p → p ≠ "" → fs w !! p = Some k →
  let r := λ n, Nat.iter n fire_pending (start_post_timeout st w) in
  let dst := path_join DELETE_DAILY_DIR (basename p) in
  (∀ n, (n < 30)%nat →
     post_timeout_left (r n).1 = 30 - Z.of_nat n ∧
     current_file (r n).1 = Some p ∧ fs (r n).2 = fs w) ∧
  (∃ j due, post_timeout_job (r 29%nat).1 = Some j ∧
            timers (r 29%nat).2 !! j = Some due ∧ now w + 30000 ≤ due) ∧
  current_file (r 30%nat).1 = None ∧ post_timeout_job (r 30%nat).1 = None ∧
  status_var (r 30%nat).1 = "Ready" ∧
  approve_btn (r 30%nat).1 = disabled ∧ reject_btn (r 30%nat).1 = disabled ∧
  play_btn (r 30%nat).1 = disabled ∧
  ((∃ i, (i < 6)%nat ∧ mv_fault w (mv_calls w + i)%nat = None) →
     fs (r 30%nat).2 !! dst = Some k ∧ (p ≠ dst → fs (r 30%nat).2 !! p = None)).
Proof.
  intros Hcf Hp Hk. cbn zeta.
  destruct (start_post_timeout_spec st w)
    as (Hl0 & Hj0 & Htm0 & _ & Hfs0 & _ & Hc0 & _).
  destruct (start_post_timeout_mv st w) as [Hmc0 Hmf0].
  destruct (start_post_timeout st w) as [st0 w0]. cbn [fst snd] in *.
  assert (Hdue0 : timers w0 !! next_job w = Some (now w + 1000))
    by (rewrite Htm0; apply lookup_insert_eq).
  assert (Hsteps : ∀ n, (n < 30)%nat →
            let r := Nat.iter n fire_pending (st0, w0) in
            post_timeout_left r.1 = 30 - Z.of_nat n ∧
            (∃ j' due', post_timeout_job r.1 = Some j' ∧
                        timers r.2 !! j' = Some due' ∧
                        now w + 1000 + 1000 * Z.of_nat n ≤ due') ∧
            fs r.2 = fs w ∧ current_file r.1 = Some p ∧
            mv_calls r.2 = mv_calls w ∧ mv_fault r.2 = mv_fault w).
  { intros n Hn.
    destruct (countdown_steps n st0 w0 _ _ Hj0 Hdue0)
      as (H1 & _ & H3 & H4 & _ & H6 & H7 & H8).
    { rewrite Hl0. unfold POST_RECORD_TIMEOUT. lia. }
    cbn zeta. rewrite H1, H4, H6, H7, H8, Hl0.
    split; [unfold POST_RECORD_TIMEOUT; lia |]. split; [exact H3 |].
    split; [exact Hfs0 |]. split; [congruence |]. done. }
  split.
  { intros n Hn. destruct (Hsteps n Hn) as (H1 & _ & H3 & H4 & _). done. }
  destruct (Hsteps 29%nat ltac:(lia))
    as (H1 & (j' & due' & Hj' & Hd' & Hge) & Hf & Hc & Hmc & Hmf).
  split. { exists j', due'. split; [exact Hj' |]. split; [exact Hd' | lia]. }
  rewrite (Nat.iter_succ 29).
  destruct (Nat.iter 29 fire_pending (st0, w0)) as [st1 w1]. cbn [fst snd] in *.
  unfold fire_pending, fire. cbn [fst snd]. rewrite Hj', Hd'.
  set (w2 := set_now _ _).
  assert (Hw2 : fs w2 = fs w1 ∧ mv_calls w2 = mv_calls w1 ∧ mv_fault w2 = mv_fault w1)
    by (subst w2; by destruct w1).
  destruct Hw2 as (Hf2 & Hmc2 & Hmf2).
  destruct (expiry_spec st1 w2 p k Hc Hp)
    as (E1 & E2 & E3 & E4 & E5 & E6 & _ & _ & Eok & _).
  { by rewrite Hf2, Hf. }
  { lia. }
  repeat (split; [assumption |]).
  intros Hex. destruct Eok as (Ed & Es & _); [by rewrite Hmc2, Hmf2, Hmc, Hmf |].
  exact (conj Ed Es).
Qed.

Lemma undecided_file_expires_witness :
  let r := Nat.iter 30 fire_pending
             (start_post_timeout (awaiting_app 9) (awaiting_world 0)) in
  (current_file (awaiting_app 9) = Some staged ∧
   fs (awaiting_world 0) !! staged = Some KFile) ∧
  current_file r.1 = None ∧
  fs r.2 !! path_join DELETE_DAILY_DIR "recording_7.mp4" = Some KFile ∧
  fs r.2 !! staged = None.
Proof.
  intros r.
  assert (fs (awaiting_world 0) !! staged = Some KFile) as H
    by (vm_compute; reflexivity).
  assert (staged ≠ "") as Hne by (vm_compute; discriminate).
  split; [exact (conj eq_refl H) |].
  destruct (undecided_file_expires (awaiting_app 9) (awaiting_world 0) staged KFile
              eq_refl Hne H)
    as (_ & _ & Hc & _ & _ & _ & _ & _ & Hok).
  split; [exact Hc |].
  destruct Hok as [Hd Hs]; [exists 0%nat; split; [lia | reflexivity] |].
  split; [exact Hd |]. apply Hs. vm_compute. discriminate.
Defined.
